(** * Metrics analysis and report generation of the COBOL-check CI scripts

    A shallow embedding of [.github/scripts/analyze_metrics.py] and
    [.github/scripts/generate_report.py].

    Python integers are [Z].  Python floats are IEEE-754 binary64 values,
    represented by [spec_float] and computed with the operations of the
    standard library's [SpecFloat] at precision 53 and maximal exponent
    1024, so every operation is rounded to nearest, ties to even, exactly
    as the interpreter does it.  Exceptions are the [Raise] results of a
    small error monad. *)

From Stdlib Require Import ZArith QArith Qround Qabs List String Ascii Bool Lia.
From Stdlib Require Import SpecFloat DecimalString DecimalPos Permutation.
From Stdlib Require DecimalFacts.
Import ListNotations.
Open Scope Z_scope.

(** ** Python primitives used by the two scripts *)

Module Py.

Inductive exn : Type :=
  | ZeroDivisionError
  | OverflowError
  | ValueError
  | KeyError
  | IndexError
  | TypeError
  | OSError
  | UnicodeDecodeError.

Inductive res (A : Type) : Type :=
  | Ok (a : A)
  | Raise (e : exn).
Arguments Ok {A} a.
Arguments Raise {A} e.

Definition bind {A B : Type} (r : res A) (k : A -> res B) : res B :=
  match r with
  | Ok a => k a
  | Raise e => Raise e
  end.

Notation "x <- c ;; k" := (bind c (fun x => k))
  (at level 61, c at next level, right associativity).

Definition prec : Z := 53.
Definition emax : Z := 1024.

Definition float : Type := spec_float.

Definition fadd : float -> float -> float := SFadd prec emax.
Definition fsub : float -> float -> float := SFsub prec emax.
Definition fmul : float -> float -> float := SFmul prec emax.

(** [float(n)] for an integer [n] (PyLong_AsDouble): the nearest double,
    OverflowError when that is beyond the finite range. *)
Definition float_of_int (n : Z) : res float :=
  match binary_normalize prec emax n 0 false with
  | S754_infinity _ => Raise OverflowError
  | f => Ok f
  end.

(** [a / b] on two integers (long_true_divide): the exact quotient rounded
    once to the nearest double. *)
Definition int_truediv (a b : Z) : res float :=
  if b =? 0 then Raise ZeroDivisionError
  else
    match a with
    | Z0 => Ok (S754_zero (b <? 0))
    | _ =>
      match SFdiv prec emax
              (S754_finite (a <? 0) (Z.to_pos (Z.abs a)) 0)
              (S754_finite (b <? 0) (Z.to_pos (Z.abs b)) 0) with
      | S754_infinity _ => Raise OverflowError
      | f => Ok f
      end
    end.

(** [x / y] on two floats (float_div). *)
Definition float_truediv (x y : float) : res float :=
  match y with
  | S754_zero _ => Raise ZeroDivisionError
  | _ => Ok (SFdiv prec emax x y)
  end.

(** [int(x)] for a float [x] (PyLong_FromDouble): truncation towards zero. *)
Definition int_of_float (x : float) : res Z :=
  match x with
  | S754_zero _ => Ok 0
  | S754_infinity _ => Raise OverflowError
  | S754_nan => Raise ValueError
  | S754_finite s m e =>
    let a := match e with
             | Zneg p => Z.shiftr (Zpos m) (Zpos p)
             | _ => Z.shiftl (Zpos m) e
             end in
    Ok (if s then - a else a)
  end.

(** The nearest integer to [n / d] for [0 < d], ties to the even one. *)
Definition round_half_even_div (n d : Z) : Z :=
  let q := n / d in
  match 2 * (n mod d) ?= d with
  | Lt => q
  | Gt => q + 1
  | Eq => if Z.even q then q else q + 1
  end.

(** [round(x, ndigits)] for a float [x] and [0 <= ndigits] (double_round):
    the exact value of [x] is rounded to [ndigits] decimals, ties to even,
    and that decimal is converted back to the nearest double. *)
Definition float_round (x : float) (ndigits : Z) : res float :=
  match x with
  | S754_finite s m e =>
    let scale := 10 ^ ndigits in
    let n := match e with
             | Zneg p => round_half_even_div (Zpos m * scale) (2 ^ Zpos p)
             | _ => Zpos m * 2 ^ e * scale
             end in
    if n =? 0 then Ok (S754_zero s)
    else int_truediv (if s then - n else n) scale
  | _ => Ok x
  end.

(** A number is an [int] or a [float]; the scripts mix the two. *)
Inductive num : Type :=
  | Int (n : Z)
  | Float (x : float).

Definition to_float (v : num) : res float :=
  match v with
  | Int n => float_of_int n
  | Float x => Ok x
  end.

(** [round(v, ndigits)]: an [int] is returned unchanged for [0 <= ndigits]. *)
Definition round (v : num) (ndigits : Z) : res num :=
  match v with
  | Int n => Ok (Int n)
  | Float x => bind (float_round x ndigits) (fun r => Ok (Float r))
  end.

(** [v + w], [v - w], [v * w]: integer arithmetic on two [int]s, float
    arithmetic after conversion otherwise. *)
Definition arith (fz : Z -> Z -> Z) (ff : float -> float -> float)
    (v w : num) : res num :=
  match v, w with
  | Int a, Int b => Ok (Int (fz a b))
  | _, _ =>
    bind (to_float v) (fun x =>
    bind (to_float w) (fun y => Ok (Float (ff x y))))
  end.

Definition add : num -> num -> res num := arith Z.add fadd.
Definition sub : num -> num -> res num := arith Z.sub fsub.
Definition mul : num -> num -> res num := arith Z.mul fmul.

(** [v / w]: always a float. *)
Definition truediv (v w : num) : res num :=
  match v, w with
  | Int a, Int b => bind (int_truediv a b) (fun r => Ok (Float r))
  | _, _ =>
    bind (to_float v) (fun x =>
    bind (to_float w) (fun y =>
    bind (float_truediv x y) (fun r => Ok (Float r))))
  end.

(** [int(v)]. *)
Definition int (v : num) : res Z :=
  match v with
  | Int n => Ok n
  | Float x => int_of_float x
  end.

(** The float literals of the scripts. *)
Definition f_half : float := S754_finite false 4503599627370496 (-53).
Definition f_one : float := S754_finite false 4503599627370496 (-52).
Definition f_two : float := S754_finite false 4503599627370496 (-51).

Definition is_zero (x : float) : bool :=
  match x with S754_zero _ => true | _ => false end.

Definition is_nan (x : float) : bool :=
  match x with S754_nan => true | _ => false end.

Definition is_negative (x : float) : bool :=
  match x with
  | S754_finite true _ _ | S754_infinity true => true
  | _ => false
  end.

(** [x == floor(x)] for a finite [x]. *)
Definition is_integer (x : float) : bool :=
  match x with
  | S754_zero _ => true
  | S754_finite _ m (Zneg p) => Zpos m mod 2 ^ Zpos p =? 0
  | S754_finite _ _ _ => true
  | _ => false
  end.

(** DOUBLE_IS_ODD_INTEGER. *)
Definition is_odd_integer (x : float) : bool :=
  match x with
  | S754_finite _ m Z0 => Z.odd (Zpos m)
  | S754_finite _ m (Zneg p) =>
    (Zpos m mod 2 ^ Zpos p =? 0) && Z.odd (Zpos m / 2 ^ Zpos p)
  | _ => false
  end.

Section Libm.

(** The C library's [pow], called by the interpreter only on a finite
    positive base other than 1 and a finite non-zero exponent.  Its result
    is not fixed by IEEE-754, so it stays a parameter. *)
Variable libm_pow : float -> float -> float.

(** [iv ** iw] on two floats (float_pow).  A negative base with a
    fractional exponent yields a complex number, on which the only
    consumer in the scripts, [round], raises TypeError. *)
Definition float_pow (iv iw : float) : res float :=
  if is_zero iw then Ok f_one
  else if is_nan iv then Ok iv
  else if is_nan iw then Ok (if SFeqb iv f_one then f_one else iw)
  else
    match iw with
    | S754_infinity sw =>
      let a := SFabs iv in
      if SFeqb a f_one then Ok f_one
      else if Bool.eqb (negb sw) (SFltb f_one a) then Ok (S754_infinity false)
      else Ok (S754_zero false)
    | _ =>
      match iv with
      | S754_infinity _ =>
        if is_negative iw
        then Ok (S754_zero (is_odd_integer iw && is_negative iv))
        else Ok (if is_odd_integer iw then iv else SFabs iv)
      | S754_zero _ =>
        if is_negative iw then Raise ZeroDivisionError
        else Ok (if is_odd_integer iw then iv else S754_zero false)
      | _ =>
        if is_negative iv && negb (is_integer iw) then Raise TypeError
        else
          let negate_result := is_negative iv && is_odd_integer iw in
          let a := SFabs iv in
          if SFeqb a f_one
          then Ok (if negate_result then SFopp f_one else f_one)
          else
            let ix := libm_pow a iw in
            match ix with
            | S754_infinity _ => Raise OverflowError
            | _ => Ok (if negate_result then SFopp ix else ix)
            end
      end
    end.

(** [v ** w]; the scripts only raise a float to an [int] or a float. *)
Definition pow (v w : num) : res num :=
  match v, w with
  | Int a, Int b => Raise TypeError
  | _, _ =>
    x <- to_float v ;;
    y <- to_float w ;;
    r <- float_pow x y ;;
    Ok (Float r)
  end.

End Libm.

(** [sum(l)] and [len(l)] on a list of integers. *)
Definition sum (l : list Z) : Z := fold_left Z.add l 0.
Definition len {A : Type} (l : list A) : Z := Z.of_nat (List.length l).

(** [l[i]]. *)
Definition index {A : Type} (l : list A) (i : nat) : res A :=
  match nth_error l i with
  | Some a => Ok a
  | None => Raise IndexError
  end.

(** [sys.get_int_max_str_digits()], 4300 unless the interpreter is
    configured otherwise: the longest numeral that [int] reads and that
    [str] prints. *)
Definition max_str_digits : nat := 4300.

(** [str(n)], which is also what an f-string makes of an integer: the
    decimal numeral of [n].  A numeral of more than [max_str_digits] digits
    (the sign is not counted) is refused, that is every integer of absolute
    value [10 ^ 4300] or more. *)
Definition str (n : Z) : res string :=
  let digits := NilZero.string_of_int (Z.to_int (Z.abs n)) in
  if (max_str_digits <? String.length digits)%nat then Raise ValueError
  else Ok (NilZero.string_of_int (Z.to_int n)).

(** A dict, in insertion order; keys are unique. *)
Definition dict (V : Type) : Type := list (string * V).

(** [d[k]]. *)
Fixpoint getitem {V : Type} (d : dict V) (k : string) : res V :=
  match d with
  | [] => Raise KeyError
  | (k', v) :: d' => if String.eqb k k' then Ok v else getitem d' k
  end.

(** [d[k] = v]: the value of an existing key is replaced in place, a new
    key goes last. *)
Fixpoint setitem {V : Type} (d : dict V) (k : string) (v : V) : dict V :=
  match d with
  | [] => [(k, v)]
  | (k', v') :: d' =>
    if String.eqb k k' then (k, v) :: d' else (k', v') :: setitem d' k v
  end.

(** Running a body over the items of a list, stopping at the first
    exception. *)
Fixpoint mapM {A B : Type} (f : A -> res B) (l : list A) : res (list B) :=
  match l with
  | [] => Ok []
  | a :: l' => b <- f a ;; bs <- mapM f l' ;; Ok (b :: bs)
  end.

(** *** Texts and the regular expressions of the scripts

    The text read from a file is a sequence of Unicode code points.  The
    strings the scripts write themselves (keys, labels, the lines of the
    report) are kept as [string]s; the labels are ASCII. *)

Definition text : Type := list N.

(** The code points of a string of ASCII characters. *)
Definition text_of_string (s : string) : text :=
  map N_of_ascii (list_ascii_of_string s).

(** [Py_UNICODE_ISSPACE], the class [\s] of a pattern on [str]: the
    characters of bidirectional type WS, B or S and those of category Zs
    (tab to carriage return, the four separators before the space, the
    space, NEL, the no-break space, the ogham space mark, en quad to hair
    space, line and paragraph separator, the narrow no-break space, the
    medium mathematical space and the ideographic space). *)
Definition isspace (c : N) : bool :=
  (((9 <=? c) && (c <=? 13)) || ((28 <=? c) && (c <=? 32))
   || (c =? 133) || (c =? 160) || (c =? 5760)
   || ((8192 <=? c) && (c <=? 8202))
   || (c =? 8232) || (c =? 8233) || (c =? 8239) || (c =? 8287)
   || (c =? 12288))%N.

(** The code points of the digit zero of every run of ten decimal digits
    (category Nd) of Unicode 14.0, the version of the character database
    of Python 3.11: the digit of value [v] of a run follows its zero at
    distance [v]. *)
Definition decimal_zeros : list N :=
  [48; 1632; 1776; 1984; 2406; 2534; 2662; 2790; 2918; 3046; 3174; 3302;
   3430; 3558; 3664; 3792; 3872; 4160; 4240; 6112; 6160; 6470; 6608; 6784;
   6800; 6992; 7088; 7232; 7248; 42528; 43216; 43264; 43472; 43504; 43600;
   44016; 65296; 66720; 68912; 69734; 69872; 69942; 70096; 70384; 70736;
   70864; 71248; 71360; 71472; 71904; 72016; 72784; 73040; 73120; 92768;
   92864; 93008; 120782; 120792; 120802; 120812; 120822; 123200; 123632;
   125264; 130032]%N.

(** The zero of the run of decimal digits [c] belongs to. *)
Definition decimal_zero (c : N) : option N :=
  find (fun z => (z <=? c) && (c <=? z + 9))%N decimal_zeros.

(** [Py_UNICODE_ISDECIMAL], the class [\d] of a pattern on [str]. *)
Definition isdecimal (c : N) : bool :=
  match decimal_zero c with
  | Some _ => true
  | None => false
  end.

(** [Py_UNICODE_TODECIMAL] on a decimal digit: its value. *)
Definition todecimal (c : N) : Z :=
  match decimal_zero c with
  | Some z => Z.of_N (c - z)
  | None => 0
  end.

(** The patterns of the scripts are sequences of single-character items:
    a literal character, [\s] or [\d], taken once or under a greedy [*]
    or [+], one item being the group.  [match_here] is the backtracking
    matcher of [re] on such a sequence and yields the text of the group;
    [search] is [re.search]. *)
Inductive quant : Type := One | Star | Plus.

Record item : Type := {
  cls : N -> bool;
  qnt : quant;
  grp : bool
}.

Definition keep (it : item) (c : N) (g : text) : text :=
  if grp it then c :: g else g.

Fixpoint match_here (items : list item) : text -> option text :=
  match items with
  | [] => fun _ => Some []
  | it :: rest =>
    let k := match_here rest in
    let many :=
      fix many (s : text) : option text :=
        match s with
        | c :: s' =>
          if cls it c
          then match many s' with
               | Some g => Some (keep it c g)
               | None => k s
               end
          else k s
        | [] => k s
        end in
    let one (next : text -> option text) (s : text) : option text :=
      match s with
      | c :: s' =>
        if cls it c then option_map (keep it c) (next s') else None
      | [] => None
      end in
    match qnt it with
    | One => one k
    | Star => many
    | Plus => one many
    end
  end.

Fixpoint search (items : list item) (s : text) : option text :=
  match match_here items s with
  | Some g => Some g
  | None =>
    match s with
    | _ :: s' => search items s'
    | [] => None
    end
  end.

(** A label of the scripts holds no regex operator: each of its characters
    matches itself. *)
Definition lit (label : string) : list item :=
  map (fun c => {| cls := N.eqb c; qnt := One; grp := false |})
      (text_of_string label).

Definition spaces (q : quant) : item :=
  {| cls := isspace; qnt := q; grp := false |}.

Definition digits_group : item :=
  {| cls := isdecimal; qnt := Plus; grp := true |}.

(** The value of a group of decimal digits, of whatever scripts. *)
Definition int_of_decimals (g : text) : Z :=
  fold_left (fun acc c => 10 * acc + todecimal c) g 0.

(** [int(g)] on a group of decimal digits: a numeral of more than
    [max_str_digits] digits is refused. *)
Definition int_of_str (g : text) : res Z :=
  if (max_str_digits <? List.length g)%nat then Raise ValueError
  else Ok (int_of_decimals g).

End Py.

Notation "x <- c ;; k" := (Py.bind c (fun x => k))
  (at level 61, c at next level, right associativity).

(** ** The data shared by the two scripts *)

Module Data.

(** The subjects of a run, in the order the scripts visit them. *)
Definition program_names : list string :=
  ["NUMBERS"; "EMPPAY"; "DEPTPAY"]%string.

(** One entry of [programs_data]. *)
Record program_data : Type := {
  total_tests : Z;
  passed : Z;
  failed : Z;
  coverage : Z;
  quality_score : Z
}.

(** The dict returned by [calculate_totals]. *)
Module Totals.
Record t : Type := {
  total_tests : Z;
  total_passed : Z;
  total_failed : Z;
  overall_coverage : Z;
  overall_quality : Z
}.
End Totals.

(** One entry of [metrics_history.json]. *)
Record snapshot : Type := {
  timestamp : string;
  programs : Py.dict program_data;
  totals : Totals.t
}.

End Data.

(** ** analyze_metrics.py *)

Module Metrics.
Import Py Data.

Inductive complexity_level : Type := LOW | MEDIUM | HIGH.

(** One entry of the dict returned by [analyze_code_complexity]. *)
Record analysis_entry : Type := {
  complexity : complexity_level;
  complexity_score : Z;
  test_cases : Z;
  coverage_per_test : num;
  execution_paths : string;
  test_quality_index : Z
}.

(** The two f-strings of [estimate_paths]; each prints its first number,
    then its second. *)
Definition estimate_paths (test_count : Z) : res string :=
  if test_count <? 10
  then lo <- str test_count ;;
       hi <- str (test_count * 2) ;;
       Ok (lo ++ "-" ++ hi)%string
  else lo <- str test_count ;;
       hi <- str (test_count + test_count / 2) ;;
       Ok (lo ++ "-" ++ hi)%string.

Definition calculate_quality_index (d : program_data) : res Z :=
  pass_rate <- (if 0 <? total_tests d
                then q <- truediv (Int (passed d)) (Int (total_tests d)) ;;
                     mul q (Int 50)
                else Ok (Int 0)) ;;
  coverage_score <- mul (Int (coverage d)) (Float f_half) ;;
  quality_index <- add pass_rate coverage_score ;;
  n <- int quality_index ;;
  Ok (Z.min 100 n).

(** The body of the loop of [analyze_code_complexity]. *)
Definition analyze_program (d : program_data) : res analysis_entry :=
  let test_density := total_tests d in
  let '(level, score) :=
    if test_density <=? 5 then (LOW, 1)
    else if test_density <=? 20 then (MEDIUM, 2)
    else (HIGH, 3) in
  cpt <- (if 0 <? total_tests d
          then truediv (Int (coverage d)) (Int (total_tests d))
          else Ok (Int 0)) ;;
  rounded <- round cpt 2 ;;
  paths <- estimate_paths (total_tests d) ;;
  qi <- calculate_quality_index d ;;
  Ok {| complexity := level;
        complexity_score := score;
        test_cases := test_density;
        coverage_per_test := rounded;
        execution_paths := paths;
        test_quality_index := qi |}.

Definition analyze_code_complexity (programs_data : dict program_data)
  : res (dict analysis_entry) :=
  mapM (fun '(program, d) => a <- analyze_program d ;; Ok (program, a))
       programs_data.

(** The deltas collected by the loop of [analyze_trends]. *)
Record deltas : Type := {
  d_coverage : list Z;
  d_quality : list Z;
  d_tests : list Z
}.

Record trend_summary : Type := {
  coverage_trend : float;
  quality_trend : float;
  tests_trend : float;
  coverage_volatility : num;
  quality_volatility : num
}.

Section Libm.

Variable libm_pow : float -> float -> float.

(** [sum] adds the squares from left to right, starting from the int 0,
    each addition rounded (CPython up to 3.11; later versions compensate
    the rounding errors of the additions). *)
Definition calculate_std_dev (values : list Z) : res num :=
  match values with
  | [] => Ok (Int 0)
  | _ =>
    mean <- truediv (Int (sum values)) (Int (len values)) ;;
    total <- fold_left
               (fun acc x =>
                  s <- acc ;;
                  d <- sub (Int x) mean ;;
                  sq <- pow libm_pow d (Int 2) ;;
                  add s sq)
               values (Ok (Int 0)) ;;
    variance <- truediv total (Int (len values)) ;;
    root <- pow libm_pow variance (Float f_half) ;;
    round root 2
  end.

(** One turn of the loop of [analyze_trends], at index [i]. *)
Definition trend_step (metrics_history : list snapshot)
    (acc : res deltas) (i : nat) : res deltas :=
  trends <- acc ;;
  prev <- index metrics_history (i - 1) ;;
  curr <- index metrics_history i ;;
  let coverage_change :=
    Totals.overall_coverage (totals curr) - Totals.overall_coverage (totals prev) in
  let quality_change :=
    Totals.overall_quality (totals curr) - Totals.overall_quality (totals prev) in
  let tests_change :=
    Totals.total_tests (totals curr) - Totals.total_tests (totals prev) in
  Ok {| d_coverage := d_coverage trends ++ [coverage_change];
        d_quality := d_quality trends ++ [quality_change];
        d_tests := d_tests trends ++ [tests_change] |}.

(** [None] is Python's [None]. *)
Definition analyze_trends (metrics_history : list snapshot)
  : res (option trend_summary) :=
  if (List.length metrics_history <? 2)%nat then Ok None
  else
    trends <- fold_left (trend_step metrics_history)
                (seq 1 (List.length metrics_history - 1))
                (Ok {| d_coverage := []; d_quality := []; d_tests := [] |}) ;;
    ct <- int_truediv (sum (d_coverage trends)) (len (d_coverage trends)) ;;
    qt <- int_truediv (sum (d_quality trends)) (len (d_quality trends)) ;;
    tt <- int_truediv (sum (d_tests trends)) (len (d_tests trends)) ;;
    cv <- calculate_std_dev (d_coverage trends) ;;
    qv <- calculate_std_dev (d_quality trends) ;;
    Ok (Some {| coverage_trend := ct;
                quality_trend := qt;
                tests_trend := tt;
                coverage_volatility := cv;
                quality_volatility := qv |}).

End Libm.

(** The "Test Effectiveness" figure of [generate_metrics_report]. *)
Definition test_effectiveness (d : program_data) : res num :=
  if 0 <? total_tests d
  then q <- truediv (Int (passed d)) (Int (total_tests d)) ;;
       p <- mul q (Int 100) ;;
       round p 1
  else Ok (Int 0).

(** The bullet that opens every recommendation, as the source file has it
    (UTF-8). *)
Definition bullet : string :=
  string_of_list_ascii
    (map ascii_of_nat [195; 162; 226; 130; 172; 194; 162; 32]%nat).

Definition rec_high_complexity (program : string) : string :=
  (bullet ++ program
   ++ ": High complexity - consider breaking into smaller modules")%string.

Definition rec_low_coverage (program : string) : string :=
  (bullet ++ program ++ ": Coverage below 80% - add more test cases")%string.

Definition rec_failing_tests (program : string) : string :=
  (bullet ++ program ++ ": Some tests failing - review test assertions")%string.

Definition rec_default : string :=
  (bullet ++ "All programs meet quality standards")%string.

(** One turn of the recommendation loop of [generate_metrics_report]. *)
Definition recommend_step (programs_data : dict program_data)
    (acc : res (list string)) (entry : string * analysis_entry)
  : res (list string) :=
  let '(program, metrics) := entry in
  recommendations <- acc ;;
  let recommendations :=
    match complexity metrics with
    | HIGH => recommendations ++ [rec_high_complexity program]
    | _ => recommendations
    end in
  d <- getitem programs_data program ;;
  let recommendations :=
    if coverage d <? 80
    then recommendations ++ [rec_low_coverage program]
    else recommendations in
  d' <- getitem programs_data program ;;
  let recommendations :=
    if passed d' <? total_tests d'
    then recommendations ++ [rec_failing_tests program]
    else recommendations in
  Ok recommendations.

(** The recommendations block of [generate_metrics_report]. *)
Definition recommendations (programs_data : dict program_data)
    (analysis : dict analysis_entry) : res (list string) :=
  recs <- fold_left (recommend_step programs_data) analysis (Ok []) ;;
  Ok (match recs with
      | [] => recs ++ [rec_default]
      | _ => recs
      end).

(** [extract_metric] of [main]: [re.search(pattern + r':\s*(\d+)', text)]. *)
Definition extract_metric (text : text) (pattern : string) : res Z :=
  match search (lit pattern ++ lit ":" ++ [spaces Star; digits_group]) text with
  | Some g => int_of_str g
  | None => Ok 0
  end.

(** The record [main] builds from the text of one result file; it has no
    ['failed'] key, which this script never reads. *)
Definition parse_program (content : text) : res program_data :=
  t <- extract_metric content "Total Test Cases" ;;
  p <- extract_metric content "Tests Passed" ;;
  c <- extract_metric content "Code Coverage" ;;
  q <- extract_metric content "Test Quality Score" ;;
  Ok {| total_tests := t;
        passed := p;
        failed := 0;
        coverage := c;
        quality_score := q |}.

(** One turn of the loop of [main] over the subjects.  [read_file] says
    what becomes of the result file of a subject: [None] when it does not
    exist, else what [open] and [f.read()] give, the text or the exception
    they raise (an OSError, a UnicodeDecodeError). *)
Definition collect_step (read_file : string -> option (res text))
    (acc : res (dict program_data)) (program : string)
  : res (dict program_data) :=
  programs_data <- acc ;;
  match read_file program with
  | Some reading =>
    content <- reading ;;
    d <- parse_program content ;;
    Ok (setitem programs_data program d)
  | None => Ok programs_data
  end.

(** The [programs_data] that [main] builds. *)
Definition collect_programs (read_file : string -> option (res text))
  : res (dict program_data) :=
  fold_left (collect_step read_file) program_names (Ok []).

End Metrics.

(** ** generate_report.py *)

Module Report.
Import Py Data.

(** What the bare [except] of the two extractors makes of an exception. *)
Definition or_zero (r : res Z) : Z :=
  match r with
  | Ok n => n
  | Raise _ => 0
  end.

(** [extract_number]: [re.search(pattern + r'\s+(\d+)', text)]. *)
Definition extract_number (text : text) (pattern : string) : Z :=
  match search (lit pattern ++ [spaces Plus; digits_group]) text with
  | Some g => or_zero (int_of_str g)
  | None => 0
  end.

(** [extract_percentage]: [re.search(pattern + r'\s+(\d+)%', text)]. *)
Definition extract_percentage (text : text) (pattern : string) : Z :=
  match search (lit pattern ++ [spaces Plus; digits_group] ++ lit "%") text with
  | Some g => or_zero (int_of_str g)
  | None => 0
  end.

Definition parse_program (content : text) : program_data :=
  {| total_tests := extract_number content "Total Test Cases:";
     passed := extract_number content "Tests Passed:";
     failed := extract_number content "Tests Failed:";
     coverage := extract_percentage content "Code Coverage:";
     quality_score := extract_percentage content "Test Quality Score:" |}.

(** [parse_test_results]; [read_file] gives the text read from the result
    file of a program, when it exists. *)
Definition parse_test_results (read_file : string -> option text)
  : dict program_data :=
  flat_map (fun program =>
              match read_file program with
              | Some content => [(program, parse_program content)]
              | None => []
              end)
           program_names.

Definition calculate_totals (programs_data : dict program_data)
  : res Totals.t :=
  let values := map snd programs_data in
  let total_tests := sum (map total_tests values) in
  let total_passed := sum (map passed values) in
  let total_failed := sum (map failed values) in
  avg_coverage <- (match programs_data with
                   | [] => Ok (Int 0)
                   | _ => truediv (Int (sum (map coverage values)))
                                  (Int (len programs_data))
                   end) ;;
  avg_quality <- (match programs_data with
                  | [] => Ok (Int 0)
                  | _ => truediv (Int (sum (map quality_score values)))
                                 (Int (len programs_data))
                  end) ;;
  oc <- int avg_coverage ;;
  oq <- int avg_quality ;;
  Ok {| Totals.total_tests := total_tests;
        Totals.total_passed := total_passed;
        Totals.total_failed := total_failed;
        Totals.overall_coverage := oc;
        Totals.overall_quality := oq |}.

(** The values [json.load] can return. *)
#[local] Unset Elimination Schemes.
Inductive json : Type :=
  | JNull
  | JBool (b : bool)
  | JInt (n : Z)
  | JFloat (x : float)
  | JStr (s : string)
  | JList (l : list json)
  | JDict (d : list (string * json)).
#[local] Set Elimination Schemes.

Definition json_of_program (d : program_data) : json :=
  JDict [("total_tests", JInt (total_tests d));
         ("passed", JInt (passed d));
         ("failed", JInt (failed d));
         ("coverage", JInt (coverage d));
         ("quality_score", JInt (quality_score d))]%string.

Definition json_of_totals (t : Totals.t) : json :=
  JDict [("total_tests", JInt (Totals.total_tests t));
         ("total_passed", JInt (Totals.total_passed t));
         ("total_failed", JInt (Totals.total_failed t));
         ("overall_coverage", JInt (Totals.overall_coverage t));
         ("overall_quality", JInt (Totals.overall_quality t))]%string.

(** The [metrics] dict of [save_metrics_history]. *)
Definition json_of_snapshot (s : snapshot) : json :=
  JDict [("timestamp", JStr (timestamp s));
         ("programs",
          JDict (map (fun '(k, d) => (k, json_of_program d)) (programs s)));
         ("totals", json_of_totals (totals s))]%string.

(** [l[-k:]]. *)
Definition last_items {A : Type} (k : nat) (l : list A) : list A :=
  skipn (List.length l - k) l.

Section Json.

(** [json.load] on the text of a file ([Raise] when it does not parse) and
    [json.dump]. *)
Variable json_load : string -> res json.
Variable json_dump : json -> string.

(** The history [save_metrics_history] starts from; [stored] is the text
    of [metrics_history.json], when the file exists. *)
Definition load_history (stored : option string) : list json :=
  match stored with
  | None => []
  | Some content =>
    match json_load content with
    | Ok (JList history) => history
    | Ok history => [history]
    | Raise _ => []
    end
  end.

(** [history.append(metrics)] followed by [history = history[-100:]]. *)
Definition append_history (history : list json) (metrics : json) : list json :=
  last_items 100 (history ++ [metrics]).

(** [save_metrics_history]: the history written back, and the new text of
    the file.  [now] is [datetime.now().isoformat()]. *)
Definition updated_history (stored : option string) (now : string)
    (programs_data : dict program_data) (totals : Totals.t) : list json :=
  let metrics :=
    json_of_snapshot
      {| timestamp := now; programs := programs_data; totals := totals |} in
  append_history (load_history stored) metrics.

Definition save_metrics_history (stored : option string) (now : string)
    (programs_data : dict program_data) (totals : Totals.t) : string :=
  json_dump (JList (updated_history stored now programs_data totals)).

End Json.

End Report.

(** ** analyze_metrics.py on the stored history

    [main] hands [analyze_trends] what [json.load] returned, not checked
    any further: the entries are arbitrary JSON values, and the numbers
    read from them are integers or floats. *)

Module MetricsJson.
Import Py Data Report.

(** [j[k]] for a string [k]: only a dict can be subscripted by a string. *)
Definition subscript (j : json) (k : string) : res json :=
  match j with
  | JDict d => getitem d k
  | _ => Raise TypeError
  end.

(** A JSON value as an operand of [-]; [bool] is a subclass of [int]. *)
Definition operand (j : json) : res num :=
  match j with
  | JInt n => Ok (Int n)
  | JFloat x => Ok (Float x)
  | JBool b => Ok (Int (Z.b2z b))
  | _ => Raise TypeError
  end.

(** [a - b]. *)
Definition minus (a b : json) : res num :=
  x <- operand a ;;
  y <- operand b ;;
  sub x y.

(** [sum(l)] on numbers: from the int 0, from left to right (CPython up to
    3.11; later versions compensate the rounding errors of float
    additions). *)
Definition sum (l : list num) : res num :=
  fold_left (fun acc x => s <- acc ;; add s x) l (Ok (Int 0)).

(** [sum(l) / len(l)]. *)
Definition mean (l : list num) : res num :=
  s <- sum l ;;
  truediv s (Int (len l)).

Record deltas : Type := {
  d_coverage : list num;
  d_quality : list num;
  d_tests : list num
}.

(** The dict returned by [analyze_trends]. *)
Record trends : Type := {
  coverage_trend : num;
  quality_trend : num;
  tests_trend : num;
  coverage_volatility : num;
  quality_volatility : num
}.

(** [curr[key] - prev[key]]. *)
Definition change (curr prev : json) (key : string) : res num :=
  c <- subscript curr key ;;
  p <- subscript prev key ;;
  minus c p.

(** One turn of the loop of [analyze_trends], at index [i]. *)
Definition trend_step (metrics_history : list json)
    (acc : res deltas) (i : nat) : res deltas :=
  trends <- acc ;;
  prev_entry <- index metrics_history (i - 1) ;;
  prev <- subscript prev_entry "totals" ;;
  curr_entry <- index metrics_history i ;;
  curr <- subscript curr_entry "totals" ;;
  coverage_change <- change curr prev "overall_coverage" ;;
  quality_change <- change curr prev "overall_quality" ;;
  tests_change <- change curr prev "total_tests" ;;
  Ok {| d_coverage := d_coverage trends ++ [coverage_change];
        d_quality := d_quality trends ++ [quality_change];
        d_tests := d_tests trends ++ [tests_change] |}.

Section Libm.

Variable libm_pow : float -> float -> float.

Definition calculate_std_dev (values : list num) : res num :=
  match values with
  | [] => Ok (Int 0)
  | _ =>
    mean <- mean values ;;
    total <- fold_left
               (fun acc x =>
                  s <- acc ;;
                  d <- sub x mean ;;
                  sq <- pow libm_pow d (Int 2) ;;
                  add s sq)
               values (Ok (Int 0)) ;;
    variance <- truediv total (Int (len values)) ;;
    root <- pow libm_pow variance (Float f_half) ;;
    round root 2
  end.

Definition analyze_trends (metrics_history : list json)
  : res (option trends) :=
  if (List.length metrics_history <? 2)%nat then Ok None
  else
    trends <- fold_left (trend_step metrics_history)
                (seq 1 (List.length metrics_history - 1))
                (Ok {| d_coverage := []; d_quality := []; d_tests := [] |}) ;;
    ct <- mean (d_coverage trends) ;;
    qt <- mean (d_quality trends) ;;
    tt <- mean (d_tests trends) ;;
    cv <- calculate_std_dev (d_coverage trends) ;;
    qv <- calculate_std_dev (d_quality trends) ;;
    Ok (Some {| coverage_trend := ct;
                quality_trend := qt;
                tests_trend := tt;
                coverage_volatility := cv;
                quality_volatility := qv |}).

Variable json_load : string -> res json.

(** The trends [main] passes to the report; [stored] is the text of
    [metrics_history.json], when the file exists.  The bare [except] turns
    every exception, of the parser or of the analysis, into no trends. *)
Definition load_trends (stored : option string) : option trends :=
  match stored with
  | None => None
  | Some content =>
    match json_load content with
    | Ok (JList history) =>
      if (1 <? List.length history)%nat
      then match analyze_trends history with
           | Ok trends => trends
           | Raise _ => None
           end
      else None
    | _ => None
    end
  end.

End Libm.

End MetricsJson.

(** * Specification-side definitions

    What the statements below are phrased with. *)

Module Spec.
Import Py Data.

(** What the thresholds on [total_tests] give. *)
Definition classified (d : program_data) (a : Metrics.analysis_entry) : Prop :=
  Metrics.test_cases a = total_tests d /\
  (total_tests d <= 5 ->
   Metrics.complexity a = Metrics.LOW /\ Metrics.complexity_score a = 1) /\
  (6 <= total_tests d <= 20 ->
   Metrics.complexity a = Metrics.MEDIUM /\ Metrics.complexity_score a = 2) /\
  (21 <= total_tests d ->
   Metrics.complexity a = Metrics.HIGH /\ Metrics.complexity_score a = 3).

(** A subject record with the given counters. *)
Definition subject (t p c : Z) : program_data :=
  {| total_tests := t; passed := p; failed := t - p;
     coverage := c; quality_score := c |}.

(** The three rules of the recommendations block. *)
Inductive rule : Type := Decompose | AddTests | ReviewFailures.

(** The rules that apply to one subject, in the order the report lists
    them: HIGH complexity, coverage below 80, fewer tests passed than
    run. *)
Definition applicable_rules
    (d : program_data) (a : Metrics.analysis_entry) : list rule :=
  (match Metrics.complexity a with
   | Metrics.HIGH => [Decompose]
   | _ => []
   end)
  ++ (if coverage d <? 80 then [AddTests] else [])
  ++ (if passed d <? total_tests d then [ReviewFailures] else []).

(** What each rule suggests, word for word. *)
Definition suggestion (r : rule) : string :=
  match r with
  | Decompose => "High complexity - consider breaking into smaller modules"
  | AddTests => "Coverage below 80% - add more test cases"
  | ReviewFailures => "Some tests failing - review test assertions"
  end.

(** The bytes that open every line of the recommendations block. *)
Definition line_start : string :=
  String (ascii_of_nat 195) (String (ascii_of_nat 162)
  (String (ascii_of_nat 226) (String (ascii_of_nat 130)
  (String (ascii_of_nat 172) (String (ascii_of_nat 194)
  (String (ascii_of_nat 162) " "))))))%string.

(** The line of a rule for a subject, and the line that stands for no
    rule at all. *)
Definition rule_line (program : string) (r : rule) : string :=
  (line_start ++ program ++ ": " ++ suggestion r)%string.

Definition default_line : string :=
  (line_start ++ "All programs meet quality standards")%string.

(** [part] occurs in [whole]. *)
Definition mentions (part whole : string) : Prop :=
  exists before after, whole = (before ++ part ++ after)%string.

(** The lines of all subjects, the analysis being listed in the order of
    the subjects. *)
Definition all_rules (programs_data : dict program_data)
    (analysis : dict Metrics.analysis_entry) : list string :=
  List.concat (map (fun '((program, d), (_, a)) =>
                      map (rule_line program) (applicable_rules d a))
              (combine programs_data analysis)).

(** The totals of a run of one subject with 10 tests. *)
Definition sample_totals : Totals.t :=
  {| Totals.total_tests := 10;
     Totals.total_passed := 8;
     Totals.total_failed := 2;
     Totals.overall_coverage := 85;
     Totals.overall_quality := 85 |}.

(** A history of [n] distinguishable entries, oldest first. *)
Definition numbered_history (n : nat) : list Report.json :=
  map (fun i => Report.JInt (Z.of_nat i)) (seq 0 n).

(** The subject of the low-coverage example: few tests, all passed,
    coverage 60. *)
Definition low_coverage_data : dict program_data :=
  [("NUMBERS"%string, subject 5 5 60)].

Definition low_coverage_analysis : dict Metrics.analysis_entry :=
  Eval vm_compute in
    match Metrics.analyze_code_complexity low_coverage_data with
    | Ok analysis => analysis
    | Raise _ => []
    end.

(** Every character of the text [s] is in the class [p]. *)
Definition all_in (p : N -> bool) (s : text) : Prop :=
  forallb p s = true.

(** The text [s] is not empty and its first character is in the class
    [p]. *)
Definition starts_in (p : N -> bool) (s : text) : bool :=
  match s with
  | c :: _ => p c
  | [] => false
  end.

(** From its first character on, the text [s] reads: the label, at least
    [lo] whitespace characters and nothing else, the numeral [g] (all of
    its digits), and [suffix]. *)
Definition reads_field (label : string) (lo : nat) (suffix : string)
    (s g : text) : Prop :=
  exists ws rest,
    s = text_of_string label ++ ws ++ g ++ text_of_string suffix ++ rest /\
    all_in isspace ws /\ (lo <= List.length ws)%nat /\
    all_in isdecimal g /\ g <> [] /\
    starts_in isdecimal (text_of_string suffix ++ rest) = false.

(** [g] is the numeral of the leftmost place of [text] that reads as the
    field. *)
Definition first_field (label : string) (lo : nat) (suffix : string)
    (text g : text) : Prop :=
  exists pre s,
    text = pre ++ s /\
    reads_field label lo suffix s g /\
    forall pre' s' g',
      text = pre' ++ s' ->
      (List.length pre' < List.length pre)%nat ->
      ~ reads_field label lo suffix s' g'.

(** No place of [text] reads as the field. *)
Definition no_field (label : string) (lo : nat) (suffix : string)
    (text : text) : Prop :=
  forall pre s g,
    text = pre ++ s -> ~ reads_field label lo suffix s g.

(** The longest prefix of the text [s] in the class [p], and what follows
    it. *)
Fixpoint run (p : N -> bool) (s : text) : text * text :=
  match s with
  | c :: s' =>
    if p c then let (a, t) := run p s' in (c :: a, t)
    else ([], s)
  | [] => ([], [])
  end.

(** The numerals [str] prints are made of the ten ASCII digits. *)
Definition isdigit (c : ascii) : bool :=
  let n := N_of_ascii c in ((48 <=? n) && (n <=? 57))%N.

Definition digit_value (c : ascii) : Z := Z.of_N (N_of_ascii c) - 48.

(** The value of a numeral of ASCII digits. *)
Definition int_of_digits (g : string) : Z :=
  fold_left (fun acc c => 10 * acc + digit_value c) (list_ascii_of_string g) 0.

(** Every character of the string [s] is in the class [p]. *)
Definition all_chars (p : ascii -> bool) (s : string) : Prop :=
  forallb p (list_ascii_of_string s) = true.

(** The string [s] is not empty and its first character is in the class
    [p]. *)
Definition starts_with (p : ascii -> bool) (s : string) : bool :=
  match s with
  | String c _ => p c
  | EmptyString => false
  end.

(** The longest prefix of the string [s] in the class [p], and what
    follows it. *)
Fixpoint span (p : ascii -> bool) (s : string) : string * string :=
  match s with
  | String c s' =>
    if p c then let (a, t) := span p s' in (String c a, t)
    else (EmptyString, s)
  | EmptyString => (EmptyString, EmptyString)
  end.

(** [x] is a finite double with [0 <= x < 2 ^ k]. *)
Definition below (k : Z) (x : float) : Prop :=
  match x with
  | S754_zero false => True
  | S754_finite false m e =>
    Zpos (digits2_pos m) + e <= k /\ e <= Z.max (k - 53) (-1074)
  | _ => False
  end.

(** [x] is a finite double with [2 ^ (k - 1) <= x]. *)
Definition above (k : Z) (x : float) : Prop :=
  match x with
  | S754_finite false m e => k <= Zpos (digits2_pos m) + e
  | _ => False
  end.

(** [x] is a non-negative double, finite or infinite: what the
    operations make of non-negative operands, however large. *)
Definition nonneg_double (x : float) : Prop :=
  below 1024 x \/ x = S754_infinity false.

(** The rational number a finite double stands for. *)
Definition float_value (x : float) : Q :=
  match x with
  | S754_finite s m e =>
    let v := match e with
             | Zneg p => Qmake (Zpos m) (2 ^ p)
             | _ => inject_Z (Zpos m * 2 ^ e)
             end in
    if s then Qopp v else v
  | _ => 0%Q
  end.

(** The doubles 50.0 and 100.0. *)
Definition f_fifty : float := S754_finite false 7036874417766400 (-47).
Definition f_hundred : float := S754_finite false 7036874417766400 (-46).

(** The quality index of the specification, in exact arithmetic:
    [min(100, floor(passed / totalTests * 50 + coverage * 0.5))]. *)
Definition exact_quality_index (d : program_data) : Z :=
  Z.min 100
    (Qfloor (inject_Z (passed d) / inject_Z (total_tests d) * inject_Z 50
             + inject_Z (coverage d) * (1 # 2))%Q).

(** The result of a computation that returned. *)
Definition returned {A : Type} (r : res A) : option A :=
  match r with
  | Ok a => Some a
  | Raise _ => None
  end.

(** The integer [round] passes to the conversion back to a double. *)
Definition hundredths (x : float) : Z :=
  match x with
  | S754_finite false m (Zneg p) => round_half_even_div (Zpos m * 100) (2 ^ Zpos p)
  | S754_finite false m e => Zpos m * 2 ^ e * 100
  | _ => 0
  end.

(** [n] is an integer nearest to [100 * v]. *)
Definition nearest_hundredth (v : Q) (n : Z) : Prop :=
  (Qabs (v * inject_Z 100 - inject_Z n) <= 1 # 2)%Q.

(** The signed differences between consecutive values. *)
Fixpoint consecutive_deltas (l : list Z) : list Z :=
  match l with
  | a :: (b :: _) as t => (b - a) :: consecutive_deltas t
  | _ => []
  end.

Definition coverage_series (h : list snapshot) : list Z :=
  map (fun s => Totals.overall_coverage (totals s)) h.
Definition quality_series (h : list snapshot) : list Z :=
  map (fun s => Totals.overall_quality (totals s)) h.
Definition tests_series (h : list snapshot) : list Z :=
  map (fun s => Totals.total_tests (totals s)) h.

Section Trends.

Variable libm_pow : float -> float -> float.

(** The squares of the deviations from the mean. *)
Definition squared_deviations (mean : float) (values : list Z)
  : res (list float) :=
  mapM (fun x => fx <- float_of_int x ;;
                 float_pow libm_pow (fsub fx mean) f_two)
       values.

(** The population standard deviation of a series, rounded to two
    decimals: the sum of the squared deviations is divided by the count. *)
Definition population_std_dev (values : list Z) : res float :=
  mean <- int_truediv (sum values) (len values) ;;
  squares <- squared_deviations mean values ;;
  count <- float_of_int (len values) ;;
  variance <- float_truediv (fold_left fadd squares (S754_zero false)) count ;;
  root <- float_pow libm_pow variance f_half ;;
  float_round root 2.

(** What the specification says of a history of two snapshots or more. *)
Definition trend_of_deltas (dc dq dt : list Z) : res Metrics.trend_summary :=
  ct <- int_truediv (sum dc) (len dc) ;;
  qt <- int_truediv (sum dq) (len dq) ;;
  tt <- int_truediv (sum dt) (len dt) ;;
  cv <- population_std_dev dc ;;
  qv <- population_std_dev dq ;;
  Ok {| Metrics.coverage_trend := ct;
        Metrics.quality_trend := qt;
        Metrics.tests_trend := tt;
        Metrics.coverage_volatility := Float cv;
        Metrics.quality_volatility := Float qv |}.

End Trends.

(** The delta at index [i] of a series. *)
Definition delta_at (l : list Z) (i : nat) : Z :=
  nth i l 0 - nth (i - 1) l 0.

(** What is assumed of the C library's [pow]: the square of a
    non-negative double below [2 ^ k] is a non-negative double below
    [2 ^ (2 k + 1)], as long as that is well within the doubles, and the
    square root of a non-negative finite double is a non-negative double
    below [2 ^ 513]. *)
Definition pow_within_range (libm_pow : float -> float -> float) : Prop :=
  (forall k a,
     0 <= k <= 500 -> below k a -> below (2 * k + 1) (libm_pow a f_two)) /\
  (forall a, below 1024 a -> below 513 (libm_pow a f_half)).

(** A correctly rounded [pow] for the two exponents the scripts use. *)
Definition rounded_pow (a w : float) : float :=
  if SFeqb w f_two then fmul a a else SFsqrt prec emax a.

(** The totals of a snapshot are well within the range of doubles: the
    coverage and the quality below [2 ^ 400] and the number of tests below
    [2 ^ 1000], in absolute value. *)
Definition totals_in_range (s : snapshot) : Prop :=
  Z.abs (Totals.overall_coverage (totals s)) < 2 ^ 400 /\
  Z.abs (Totals.overall_quality (totals s)) < 2 ^ 400 /\
  Z.abs (Totals.total_tests (totals s)) < 2 ^ 1000.

(** A snapshot with the given totals. *)
Definition snapshot_of (tests cov quality : Z) : snapshot :=
  {| timestamp := ""; programs := [];
     totals := {| Totals.total_tests := tests;
                  Totals.total_passed := tests;
                  Totals.total_failed := 0;
                  Totals.overall_coverage := cov;
                  Totals.overall_quality := quality |} |}.

(** Three runs with coverage 70, 75 and 80. *)
Definition sample_history : list snapshot :=
  [snapshot_of 10 70 80; snapshot_of 12 75 80; snapshot_of 14 80 80].

Definition f_five : float := S754_finite false 5629499534213120 (-50).

(** The record [mrs] of a mantissa with its round and sticky bits locates
    the rational [N / D]: the mantissa is its integer part, the two bits
    tell where the rest lies (nowhere, below, at or above the half). *)
Definition located (N D : Z) (mrs : shr_record) : Prop :=
  0 < D /\ 0 <= shr_m mrs /\
  let T := 2 * N - (2 * shr_m mrs + Z.b2z (shr_r mrs)) * D in
  if shr_s mrs then 0 < T < D else T = 0.

(** The double that holds the integer [c], for [|c| < 2 ^ 53]. *)
Definition exact_double (c : Z) : float :=
  match c with
  | Z0 => S754_zero false
  | _ => S754_finite (c <? 0)
           (Z.to_pos (Z.abs c * 2 ^ (53 - Zdigits2 c))) (Zdigits2 c - 53)
  end.

(** The subjects whose result file exists. *)
Definition existing {A : Type} (read_file : string -> option A) : list string :=
  filter (fun program => match read_file program with
                         | Some _ => true
                         | None => false
                         end)
         program_names.

(** The deltas of integers as the lists of numbers they are. *)
Definition deltas_numbers (d : Metrics.deltas) : MetricsJson.deltas :=
  {| MetricsJson.d_coverage := map Int (Metrics.d_coverage d);
     MetricsJson.d_quality := map Int (Metrics.d_quality d);
     MetricsJson.d_tests := map Int (Metrics.d_tests d) |}.

(** A trend summary as the dict of numbers it is. *)
Definition summary_numbers (t : Metrics.trend_summary) : MetricsJson.trends :=
  {| MetricsJson.coverage_trend := Float (Metrics.coverage_trend t);
     MetricsJson.quality_trend := Float (Metrics.quality_trend t);
     MetricsJson.tests_trend := Float (Metrics.tests_trend t);
     MetricsJson.coverage_volatility := Metrics.coverage_volatility t;
     MetricsJson.quality_volatility := Metrics.quality_volatility t |}.

(** The bound on what [int] accepts: a numeral of at most 4300 digits. *)
Definition numeral_bound : Z := 10 ^ Z.of_nat max_str_digits.

End Spec.

(** * Properties *)

Import Py Data Spec.

(** ** The error monad *)

Lemma bind_Ok_inv {A B : Type} (r : res A) (k : A -> res B) (b : B) :
  bind r k = Ok b -> exists a, r = Ok a /\ k a = Ok b.
Proof.
  destruct r as [a|e]; simpl; intros H.
  - exists a. split; [reflexivity | exact H].
  - discriminate H.
Qed.

Ltac bind_inv H :=
  let a := fresh "v" in
  let Ha := fresh "Hv" in
  apply bind_Ok_inv in H; destruct H as (a & Ha & H).

Lemma mapM_Forall2 {A B : Type} (f : A -> res B) (R : A -> B -> Prop) :
  (forall a b, f a = Ok b -> R a b) ->
  forall l l', mapM f l = Ok l' -> Forall2 R l l'.
Proof.
  intros HR l. induction l as [|a l IH]; simpl; intros l' H.
  - injection H as <-. constructor.
  - bind_inv H. bind_inv H. injection H as <-.
    constructor; [apply HR; assumption | apply IH; assumption].
Qed.

(** ** Complexity classification *)

Lemma analyze_program_classified (d : program_data) (a : Metrics.analysis_entry) :
  Metrics.analyze_program d = Ok a -> classified d a.
Proof.
  unfold Metrics.analyze_program, classified. intros H.
  destruct (total_tests d <=? 5) eqn:E5;
    [|destruct (total_tests d <=? 20) eqn:E20];
    bind_inv H; bind_inv H; bind_inv H; bind_inv H; injection H as <-; simpl;
    repeat split; intros; lia.
Qed.

Lemma complexity_keys (programs_data : dict program_data)
    (analysis : dict Metrics.analysis_entry) :
  Metrics.analyze_code_complexity programs_data = Ok analysis ->
  Forall2 (fun x y => fst x = fst y) programs_data analysis.
Proof.
  unfold Metrics.analyze_code_complexity.
  apply mapM_Forall2. intros [program d] [program' a] H.
  bind_inv H. injection H as <- <-. reflexivity.
Qed.

(** C3: in the analysis of every subject the complexity level and score are
    fixed by [total_tests] alone: at most 5 gives LOW and 1, from 6 to 20
    gives MEDIUM and 2, 21 or more gives HIGH and 3. *)
Theorem complexity_thresholds
    (programs_data : dict program_data)
    (analysis : dict Metrics.analysis_entry) :
  Metrics.analyze_code_complexity programs_data = Ok analysis ->
  Forall2 (fun pd pa => fst pd = fst pa /\ classified (snd pd) (snd pa))
          programs_data analysis.
Proof.
  unfold Metrics.analyze_code_complexity.
  apply mapM_Forall2. intros [program d] [program' a] H.
  bind_inv H. injection H as <- <-. simpl.
  split; [reflexivity | apply analyze_program_classified; assumption].
Qed.

Lemma complexity_thresholds_witness :
  Forall2 (fun pd pa => fst pd = fst pa /\ classified (snd pd) (snd pa))
    [("NUMBERS"%string, subject 10 8 85)]
    [("NUMBERS"%string,
      {| Metrics.complexity := Metrics.MEDIUM;
         Metrics.complexity_score := 2;
         Metrics.test_cases := 10;
         Metrics.coverage_per_test :=
           Float (S754_finite false 4785074604081152 (-49));
         Metrics.execution_paths := "10-15";
         Metrics.test_quality_index := 82 |})].
Proof.
  apply (complexity_thresholds [("NUMBERS"%string, subject 10 8 85)]).
  vm_compute. reflexivity.
Defined.

(** The four boundary values of the classification. *)
Lemma complexity_boundaries :
  option_map (fun a => (Metrics.complexity a, Metrics.complexity_score a))
    (match Metrics.analyze_program (subject 5 5 80) with
     | Ok a => Some a | Raise _ => None end) = Some (Metrics.LOW, 1) /\
  option_map (fun a => (Metrics.complexity a, Metrics.complexity_score a))
    (match Metrics.analyze_program (subject 6 6 80) with
     | Ok a => Some a | Raise _ => None end) = Some (Metrics.MEDIUM, 2) /\
  option_map (fun a => (Metrics.complexity a, Metrics.complexity_score a))
    (match Metrics.analyze_program (subject 20 20 80) with
     | Ok a => Some a | Raise _ => None end) = Some (Metrics.MEDIUM, 2) /\
  option_map (fun a => (Metrics.complexity a, Metrics.complexity_score a))
    (match Metrics.analyze_program (subject 21 21 80) with
     | Ok a => Some a | Raise _ => None end) = Some (Metrics.HIGH, 3).
Proof. vm_compute. repeat split. Qed.

(** ** The capped history *)

Lemma last_items_app_one {A : Type} (k : nat) (l : list A) (x : A) :
  Report.last_items (S k) (l ++ [x]) = skipn (List.length l - k) l ++ [x].
Proof.
  unfold Report.last_items. rewrite length_app. simpl.
  replace (List.length l + 1 - S k)%nat with (List.length l - k)%nat by lia.
  rewrite skipn_app.
  replace (List.length l - k - List.length l)%nat with 0%nat by lia.
  reflexivity.
Qed.

(** C5: [save_metrics_history] on a stored history: what it writes back is
    the last 99 entries of the prior history, in their order and unchanged,
    followed by the new snapshot, which is the last entry; it has
    [min (prior length + 1) 100] entries, and from a prior history of 100
    entries exactly the oldest one is dropped.  Without a stored file the
    new snapshot is written alone. *)
Theorem history_append_capped
    (json_load : string -> res Report.json) (json_dump : Report.json -> string)
    (content now : string) (history : list Report.json)
    (programs_data : dict program_data) (totals : Totals.t) :
  json_load content = Ok (Report.JList history) ->
  let metrics :=
    Report.json_of_snapshot
      {| timestamp := now; programs := programs_data; totals := totals |} in
  let written :=
    Report.updated_history json_load (Some content) now programs_data totals in
  Report.load_history json_load (Some content) = history
  /\ written = skipn (List.length history - 99) history ++ [metrics]
  /\ List.length written = Nat.min (List.length history + 1) 100
  /\ last written Report.JNull = metrics
  /\ (List.length history = 100%nat -> written = tl history ++ [metrics])
  /\ Report.save_metrics_history json_load json_dump (Some content) now
       programs_data totals
     = json_dump (Report.JList written)
  /\ Report.updated_history json_load None now programs_data totals
     = [metrics].
Proof.
  intros Hload metrics written.
  assert (Hh : Report.load_history json_load (Some content) = history).
  { unfold Report.load_history. rewrite Hload. reflexivity. }
  assert (Hw : written = skipn (List.length history - 99) history ++ [metrics]).
  { unfold written, Report.updated_history, Report.append_history.
    rewrite Hh. apply last_items_app_one. }
  split; [exact Hh|]. split; [exact Hw|]. split; [|split; [|split; [|split]]].
  - rewrite Hw, length_app, length_skipn. simpl. lia.
  - rewrite Hw. apply last_last.
  - intros H. rewrite Hw, H. simpl. destruct history; reflexivity.
  - reflexivity.
  - reflexivity.
Qed.

Lemma history_append_capped_witness :
  List.length
    (Report.updated_history
       (fun _ => Ok (Report.JList (numbered_history 100)))
       (Some "[0, 1]"%string) "2024-01-01T00:00:00"%string
       [("NUMBERS"%string, subject 10 8 85)] sample_totals) = 100%nat /\
  Report.updated_history
    (fun _ => Ok (Report.JList (numbered_history 100)))
    (Some "[0, 1]"%string) "2024-01-01T00:00:00"%string
    [("NUMBERS"%string, subject 10 8 85)] sample_totals
  = tl (numbered_history 100)
    ++ [Report.json_of_snapshot
          {| timestamp := "2024-01-01T00:00:00"%string;
             programs := [("NUMBERS"%string, subject 10 8 85)];
             totals := sample_totals |}].
Proof.
  destruct (history_append_capped
              (fun _ => Ok (Report.JList (numbered_history 100)))
              (fun _ => ""%string)
              "[0, 1]"%string "2024-01-01T00:00:00"%string
              (numbered_history 100)
              [("NUMBERS"%string, subject 10 8 85)] sample_totals eq_refl)
    as (_ & _ & Hlen & _ & Hdrop & _).
  split; [exact Hlen | exact (Hdrop eq_refl)].
Defined.

(** ** Recovery of the stored history *)

(** C6: when the stored text does not parse, the history written back is
    the new snapshot alone; when it parses to a value that is not a list,
    that value becomes the first entry and the new snapshot the second. *)
Theorem history_recovery
    (json_load : string -> res Report.json) (content now : string)
    (programs_data : dict program_data) (totals : Totals.t) :
  let metrics :=
    Report.json_of_snapshot
      {| timestamp := now; programs := programs_data; totals := totals |} in
  (forall e, json_load content = Raise e ->
     Report.load_history json_load (Some content) = [] /\
     Report.updated_history json_load (Some content) now programs_data totals
       = [metrics]) /\
  (forall v, json_load content = Ok v -> (forall l, v <> Report.JList l) ->
     Report.load_history json_load (Some content) = [v] /\
     Report.updated_history json_load (Some content) now programs_data totals
       = [v; metrics]).
Proof.
  intros metrics. unfold Report.updated_history, Report.load_history.
  split.
  - intros e He. rewrite He. split; reflexivity.
  - intros v Hv Hnl. rewrite Hv.
    destruct v; try (split; reflexivity).
    exfalso. apply (Hnl l). reflexivity.
Qed.

Lemma history_recovery_witness :
  Report.updated_history (fun _ => Raise ValueError) (Some "{oops"%string)
    "2024-01-01T00:00:00"%string [("NUMBERS"%string, subject 10 8 85)]
    sample_totals
  = [Report.json_of_snapshot
       {| timestamp := "2024-01-01T00:00:00"%string;
          programs := [("NUMBERS"%string, subject 10 8 85)];
          totals := sample_totals |}]
  /\
  Report.updated_history (fun _ => Ok (Report.JInt 7)) (Some "7"%string)
    "2024-01-01T00:00:00"%string [("NUMBERS"%string, subject 10 8 85)]
    sample_totals
  = [Report.JInt 7;
     Report.json_of_snapshot
       {| timestamp := "2024-01-01T00:00:00"%string;
          programs := [("NUMBERS"%string, subject 10 8 85)];
          totals := sample_totals |}].
Proof.
  split.
  - apply (history_recovery (fun _ => Raise ValueError) "{oops"%string
             "2024-01-01T00:00:00"%string
             [("NUMBERS"%string, subject 10 8 85)] sample_totals)
      with (e := ValueError).
    reflexivity.
  - apply (history_recovery (fun _ => Ok (Report.JInt 7)) "7"%string
             "2024-01-01T00:00:00"%string
             [("NUMBERS"%string, subject 10 8 85)] sample_totals).
    + reflexivity.
    + intros l H. discriminate H.
Defined.

(** ** Recommendations *)

Lemma getitem_In {V : Type} (d : dict V) (k : string) (v : V) :
  NoDup (map fst d) -> In (k, v) d -> getitem d k = Ok v.
Proof.
  induction d as [|[k' v'] d IH]; simpl; intros Hnd Hin; [contradiction|].
  inversion Hnd as [|? ? Hnotin Hnd']; subst.
  destruct Hin as [Heq | Hin].
  - injection Heq as -> ->. rewrite String.eqb_refl. reflexivity.
  - destruct (String.eqb k k') eqn:E.
    + apply String.eqb_eq in E. subst k'.
      exfalso. apply Hnotin. apply (in_map fst) in Hin. exact Hin.
    + apply IH; assumption.
Qed.

Lemma suggestion_lines :
  forall program,
    Metrics.rec_high_complexity program = rule_line program Decompose /\
    Metrics.rec_low_coverage program = rule_line program AddTests /\
    Metrics.rec_failing_tests program = rule_line program ReviewFailures.
Proof. intros program. repeat split. Qed.

Lemma recommend_step_rules (programs_data : dict program_data)
    (acc : list string) (program : string)
    (d : program_data) (a : Metrics.analysis_entry) :
  getitem programs_data program = Ok d ->
  Metrics.recommend_step programs_data (Ok acc) (program, a)
    = Ok (acc ++ map (rule_line program) (applicable_rules d a)).
Proof.
  intros Hget. unfold Metrics.recommend_step, applicable_rules. simpl.
  rewrite Hget. simpl.
  destruct (suggestion_lines program) as (-> & -> & ->).
  destruct (Metrics.complexity a), (coverage d <? 80),
    (passed d <? total_tests d); simpl;
    rewrite <- ?app_assoc, ?app_nil_r; reflexivity.
Qed.

Lemma recommend_fold (programs_data : dict program_data) :
  forall (pd : dict program_data) (an : dict Metrics.analysis_entry)
         (acc : list string),
  Forall2 (fun x y => fst x = fst y) pd an ->
  (forall k d, In (k, d) pd -> getitem programs_data k = Ok d) ->
  fold_left (Metrics.recommend_step programs_data) an (Ok acc)
    = Ok (acc ++ all_rules pd an).
Proof.
  intros pd an acc H. revert acc.
  induction H as [|[k d] [k' a] pd an Hk _ IH]; intros acc Hget.
  - simpl. rewrite app_nil_r. reflexivity.
  - simpl in Hk. subst k'. cbn [fold_left].
    rewrite (recommend_step_rules programs_data acc k d a)
      by (apply Hget; left; reflexivity).
    rewrite IH by (intros; apply Hget; right; assumption).
    unfold all_rules. simpl. rewrite app_assoc. reflexivity.
Qed.

(** What the report prints for the lines of the rules. *)
Lemma recommendations_lines (programs_data : dict program_data)
    (analysis : dict Metrics.analysis_entry) :
  NoDup (map fst programs_data) ->
  Forall2 (fun x y => fst x = fst y) programs_data analysis ->
  Metrics.recommendations programs_data analysis
  = Ok (match all_rules programs_data analysis with
        | [] => [default_line]
        | lines => lines
        end).
Proof.
  intros Hnd Hkeys. unfold Metrics.recommendations.
  rewrite (recommend_fold programs_data programs_data analysis [] Hkeys)
    by (intros k d Hin; apply getitem_In; assumption).
  simpl. destruct (all_rules programs_data analysis); reflexivity.
Qed.

Lemma all_rules_low_coverage :
  forall (pd : dict program_data) (an : dict Metrics.analysis_entry),
  Forall2 (fun x y => fst x = fst y) pd an ->
  forall program d, In (program, d) pd -> coverage d < 80 ->
  In (rule_line program AddTests) (all_rules pd an).
Proof.
  intros pd an H. induction H as [|[k d] [k' a] pd an Hk _ IH];
    intros program d0 Hin Hc; [contradiction|].
  unfold all_rules. simpl. apply in_or_app.
  destruct Hin as [Heq | Hin].
  - injection Heq as -> ->. left. apply in_map. unfold applicable_rules.
    apply in_or_app. right. apply in_or_app. left.
    apply Z.ltb_lt in Hc. rewrite Hc. left. reflexivity.
  - right. apply (IH program d0); assumption.
Qed.

Lemma length_append (a b : string) :
  String.length (a ++ b) = (String.length a + String.length b)%nat.
Proof. induction a as [|c a IH]; simpl; [|rewrite IH]; reflexivity. Qed.

Lemma append_assoc (a b c : string) : ((a ++ b) ++ c = a ++ b ++ c)%string.
Proof. induction a as [|x a IH]; simpl; [|rewrite IH]; reflexivity. Qed.

(** No line of a rule can be taken for the default line: it is longer,
    whatever the name of the subject. *)
Lemma rule_line_not_default (program : string) (r : rule) :
  rule_line program r <> default_line.
Proof.
  intros H. apply (f_equal String.length) in H.
  unfold rule_line, default_line in H. rewrite !length_append in H.
  destruct r; simpl in H; lia.
Qed.

Lemma rule_line_mentions (program : string) (r : rule) :
  mentions program (rule_line program r) /\
  mentions (suggestion r) (rule_line program r).
Proof.
  split.
  - exists line_start, (": " ++ suggestion r)%string. reflexivity.
  - exists (line_start ++ program ++ ": ")%string, ""%string.
    unfold rule_line. rewrite !append_assoc.
    assert (E : forall s : string, (s ++ "")%string = s).
    { induction s as [|c s IH]; simpl; [|rewrite IH]; reflexivity. }
    rewrite E. reflexivity.
Qed.

(** C9: the recommendations block lists, subject after subject, the line
    of every rule that applies to it: for HIGH complexity the suggestion
    to break the program into smaller modules, for a coverage below 80 the
    suggestion to add test cases, for fewer tests passed than run the
    suggestion to review the test assertions, each after the name of the
    subject; when no rule applies to any subject it is the single line
    that all programs meet the quality standards.  A subject with a
    coverage below 80 always gets a line that names it and says "Coverage
    below 80%", which is not the default line. *)
Theorem recommendations_union
    (programs_data : dict program_data)
    (analysis : dict Metrics.analysis_entry) :
  NoDup (map fst programs_data) ->
  Metrics.analyze_code_complexity programs_data = Ok analysis ->
  Metrics.recommendations programs_data analysis
    = Ok (match all_rules programs_data analysis with
          | [] => [default_line]
          | lines => lines
          end)
  /\ (forall program d,
        In (program, d) programs_data -> coverage d < 80 ->
        exists recs line,
          Metrics.recommendations programs_data analysis = Ok recs /\
          In line recs /\
          line = (line_start ++ program
                  ++ ": Coverage below 80% - add more test cases")%string /\
          mentions program line /\
          mentions "Coverage below 80%" line /\
          line <> default_line).
Proof.
  intros Hnd Han.
  assert (Hkeys : Forall2 (fun x y => fst x = fst y) programs_data analysis).
  { apply complexity_keys. exact Han. }
  pose proof (recommendations_lines programs_data analysis Hnd Hkeys) as Hrec.
  split; [exact Hrec|].
  intros program d Hin Hc.
  pose proof (all_rules_low_coverage programs_data analysis Hkeys
                program d Hin Hc) as Hlow.
  rewrite Hrec. eexists. exists (rule_line program AddTests).
  split; [reflexivity|]. split.
  { destruct (all_rules programs_data analysis); [contradiction | exact Hlow]. }
  split; [reflexivity|].
  split; [apply rule_line_mentions|].
  split; [|apply rule_line_not_default].
  exists (line_start ++ program ++ ": ")%string,
         " - add more test cases"%string.
  unfold rule_line. rewrite !append_assoc. reflexivity.
Qed.

Lemma recommendations_union_witness :
  Metrics.recommendations low_coverage_data low_coverage_analysis
    = Ok [(line_start ++ "NUMBERS"
           ++ ": Coverage below 80% - add more test cases")%string]
  /\ exists recs line,
       Metrics.recommendations low_coverage_data low_coverage_analysis
         = Ok recs /\
       In line recs /\
       line = (line_start ++ "NUMBERS"
               ++ ": Coverage below 80% - add more test cases")%string /\
       mentions "NUMBERS" line /\
       mentions "Coverage below 80%" line /\
       line <> default_line.
Proof.
  destruct (recommendations_union low_coverage_data low_coverage_analysis)
    as [Hall Hlow].
  - repeat constructor. simpl. intros [].
  - vm_compute. reflexivity.
  - split; [exact Hall|].
    apply (Hlow "NUMBERS"%string (subject 5 5 60)).
    + left. reflexivity.
    + reflexivity.
Defined.

(** The low-coverage subject gets exactly the low-coverage recommendation. *)
Lemma low_coverage_example :
  Metrics.recommendations low_coverage_data low_coverage_analysis
    = Ok [Metrics.rec_low_coverage "NUMBERS"].
Proof. vm_compute. reflexivity. Qed.

(** ** Field extraction *)

Section Matcher.

Variables (p : N -> bool) (b : bool) (rest : list item).

Lemma match_here_star (c : N) (s : text) :
  match_here ({| cls := p; qnt := Star; grp := b |} :: rest) (c :: s)
  = if p c
    then match match_here ({| cls := p; qnt := Star; grp := b |} :: rest) s with
         | Some g => Some (if b then c :: g else g)
         | None => match_here rest (c :: s)
         end
    else match_here rest (c :: s).
Proof. reflexivity. Qed.

Lemma match_here_star_nil :
  match_here ({| cls := p; qnt := Star; grp := b |} :: rest) []
  = match_here rest [].
Proof. reflexivity. Qed.

Lemma match_here_plus (c : N) (s : text) :
  match_here ({| cls := p; qnt := Plus; grp := b |} :: rest) (c :: s)
  = if p c
    then option_map (fun g => if b then c :: g else g)
           (match_here ({| cls := p; qnt := Star; grp := b |} :: rest) s)
    else None.
Proof. reflexivity. Qed.

Lemma match_here_one (c : N) (s : text) :
  match_here ({| cls := p; qnt := One; grp := b |} :: rest) (c :: s)
  = if p c
    then option_map (fun g => if b then c :: g else g) (match_here rest s)
    else None.
Proof. reflexivity. Qed.

End Matcher.

Lemma run_spec (p : N -> bool) (s : text) :
  s = fst (run p s) ++ snd (run p s) /\
  all_in p (fst (run p s)) /\
  starts_in p (snd (run p s)) = false.
Proof.
  unfold all_in. induction s as [|c s IH].
  - repeat split.
  - simpl run. destruct (p c) eqn:E.
    + destruct (run p s) as [a t]. simpl in IH |- *.
      destruct IH as (H1 & H2 & H3).
      rewrite <- H1, E, H2. repeat split. exact H3.
    + simpl. repeat split. exact E.
Qed.

Lemma run_unique (p : N -> bool) (a t : text) :
  all_in p a -> starts_in p t = false -> run p (a ++ t) = (a, t).
Proof.
  unfold all_in. intros Ha Ht. induction a as [|c a IH]; simpl in *.
  - destruct t as [|c t]; [reflexivity|]. simpl in Ht |- *. rewrite Ht. reflexivity.
  - apply andb_true_iff in Ha. destruct Ha as [Hc Ha].
    rewrite Hc, (IH Ha). reflexivity.
Qed.

(** A decimal digit lies in one of the runs of ten. *)
Lemma isdecimal_run (c : N) :
  isdecimal c = true ->
  exists z, In z decimal_zeros /\ (z <= c <= z + 9)%N /\
            todecimal c = Z.of_N (c - z).
Proof.
  unfold isdecimal, todecimal, decimal_zero.
  destruct (find _ decimal_zeros) as [z|] eqn:E; [|discriminate].
  intros _. apply find_some in E. destruct E as [Hin Hz].
  apply andb_true_iff in Hz. destruct Hz as [H1 H2].
  apply N.leb_le in H1, H2. exists z. repeat split; assumption.
Qed.

(** No whitespace character is a decimal digit. *)
Lemma isspace_not_isdecimal (c : N) : isspace c = true -> isdecimal c = false.
Proof.
  intros Hs. destruct (isdecimal c) eqn:Hd; [|reflexivity]. exfalso.
  destruct (isdecimal_run c Hd) as (z & Hin & Hz & _).
  unfold isspace in Hs.
  rewrite !orb_true_iff, !andb_true_iff, !N.leb_le, !N.eqb_eq in Hs.
  unfold decimal_zeros in Hin. cbn [In] in Hin.
  repeat (destruct Hin as [<-|Hin]; [lia|]). exact Hin.
Qed.

Lemma isdecimal_not_isspace (c : N) : isdecimal c = true -> isspace c = false.
Proof.
  intros H. destruct (isspace c) eqn:E; [|reflexivity].
  apply isspace_not_isdecimal in E. congruence.
Qed.

Section Field.

Variable r : list item.

(** The rest of the pattern cannot start on a digit once it has failed
    after the whole run of digits. *)
Hypothesis r_back : forall c s,
  isdecimal c = true ->
  match_here r (snd (run isdecimal (c :: s))) = None ->
  match_here r (c :: s) = None.

Lemma match_digits_star (s : text) :
  match_here ({| cls := isdecimal; qnt := Star; grp := true |} :: r) s
  = option_map (app (fst (run isdecimal s)))
      (match_here r (snd (run isdecimal s))).
Proof.
  induction s as [|c s IH].
  - rewrite match_here_star_nil. simpl run. cbn [fst snd].
    destruct (match_here r []); reflexivity.
  - rewrite match_here_star.
    pose proof (r_back c s) as Hb. simpl run in Hb |- *.
    destruct (isdecimal c) eqn:E.
    + rewrite IH. destruct (run isdecimal s) as [a t]. cbn [fst snd] in Hb |- *.
      destruct (match_here r t) as [x|]; cbn [option_map]; [reflexivity|].
      apply Hb; reflexivity.
    + cbn [fst snd]. destruct (match_here r (c :: s)); reflexivity.
Qed.

Lemma match_digits_group (s : text) :
  match_here (digits_group :: r) s
  = match fst (run isdecimal s) with
    | [] => None
    | g => option_map (app g) (match_here r (snd (run isdecimal s)))
    end.
Proof.
  unfold digits_group. destruct s as [|c s].
  - reflexivity.
  - rewrite match_here_plus, match_digits_star. simpl run.
    destruct (isdecimal c) eqn:E; [|reflexivity].
    destruct (run isdecimal s) as [a t]. cbn [fst snd].
    destruct (match_here r t); reflexivity.
Qed.

Lemma match_spaces_star (s : text) :
  match_here (spaces Star :: digits_group :: r) s
  = match_here (digits_group :: r) (snd (run isspace s)).
Proof.
  unfold spaces. induction s as [|c s IH].
  - reflexivity.
  - rewrite match_here_star. simpl run.
    destruct (isspace c) eqn:E.
    + rewrite IH. destruct (run isspace s) as [a t]. cbn [fst snd].
      destruct (match_here (digits_group :: r) t); [reflexivity|].
      unfold digits_group. rewrite match_here_plus.
      rewrite (isspace_not_isdecimal c E). reflexivity.
    + reflexivity.
Qed.

Lemma match_spaces_plus (s : text) :
  match_here (spaces Plus :: digits_group :: r) s
  = match fst (run isspace s) with
    | [] => None
    | _ => match_here (digits_group :: r) (snd (run isspace s))
    end.
Proof.
  destruct s as [|c s].
  - reflexivity.
  - unfold spaces at 1. rewrite match_here_plus. fold (spaces Star).
    rewrite match_spaces_star.
    simpl run. destruct (isspace c) eqn:E; [|reflexivity].
    destruct (run isspace s) as [a t]. cbn [fst snd].
    destruct (match_here (digits_group :: r) t); reflexivity.
Qed.

End Field.

Lemma text_of_string_app (a b : string) :
  text_of_string (a ++ b) = text_of_string a ++ text_of_string b.
Proof.
  unfold text_of_string.
  induction a as [|c a IH]; simpl; [|rewrite IH]; reflexivity.
Qed.

Lemma lit_app (a b : string) : lit (a ++ b) = lit a ++ lit b.
Proof. unfold lit. rewrite text_of_string_app. apply map_app. Qed.

Lemma lit_cons (c : ascii) (l : string) :
  lit (String c l)
  = {| cls := N.eqb (N_of_ascii c); qnt := One; grp := false |} :: lit l.
Proof. reflexivity. Qed.

Lemma text_of_string_cons (c : ascii) (l : string) :
  text_of_string (String c l) = N_of_ascii c :: text_of_string l.
Proof. reflexivity. Qed.

Lemma match_lit_prefix (l : string) (items : list item) (s : text) :
  match_here (lit l ++ items) (text_of_string l ++ s) = match_here items s.
Proof.
  induction l as [|c l IH]; [reflexivity|].
  rewrite lit_cons, text_of_string_cons. cbn [List.app].
  rewrite match_here_one, N.eqb_refl, IH.
  destruct (match_here items s); reflexivity.
Qed.

Lemma match_lit_inv (l : string) (items : list item) (s g : text) :
  match_here (lit l ++ items) s = Some g ->
  exists s', s = text_of_string l ++ s' /\ match_here items s' = Some g.
Proof.
  revert s. induction l as [|c l IH]; intros s H.
  - exists s. split; [reflexivity | exact H].
  - rewrite lit_cons in H. cbn [List.app] in H.
    destruct s as [|c' s]; [discriminate H|].
    rewrite match_here_one in H.
    destruct (N.eqb (N_of_ascii c) c') eqn:E; [|discriminate H].
    apply N.eqb_eq in E. subst c'.
    destruct (match_here (lit l ++ items) s) as [g'|] eqn:E'; [|discriminate H].
    simpl in H. injection H as <-.
    destruct (IH s E') as (s' & -> & Hs'). exists s'.
    split; [reflexivity | exact Hs'].
Qed.

Lemma lit_back (suffix : string) :
  starts_in isdecimal (text_of_string suffix) = false ->
  forall c s,
    isdecimal c = true ->
    match_here (lit suffix) (snd (run isdecimal (c :: s))) = None ->
    match_here (lit suffix) (c :: s) = None.
Proof.
  intros Hs c s Hc H. destruct suffix as [|x suffix].
  - discriminate H.
  - rewrite lit_cons, match_here_one.
    destruct (N.eqb (N_of_ascii x) c) eqn:E; [|reflexivity].
    apply N.eqb_eq in E. subst c.
    rewrite text_of_string_cons in Hs. simpl in Hs. congruence.
Qed.

Lemma match_suffix (suffix : string) (t g : text) :
  match_here (lit suffix) t = Some g <->
  g = [] /\ exists rest, t = text_of_string suffix ++ rest.
Proof.
  split.
  - intros H. rewrite <- (app_nil_r (lit suffix)) in H.
    apply match_lit_inv in H. destruct H as (rest & -> & H).
    injection H as <-. split; [reflexivity | exists rest; reflexivity].
  - intros (-> & rest & ->).
    rewrite <- (app_nil_r (lit suffix)), match_lit_prefix. reflexivity.
Qed.

(** At one place: the matcher succeeds with group [g] exactly when the text
    reads as the field there. *)
Lemma match_field_iff (label : string) (q : quant) (lo : nat)
    (suffix : string) (s g : text) :
  (q = Star /\ lo = 0%nat) \/ (q = Plus /\ lo = 1%nat) ->
  starts_in isdecimal (text_of_string suffix) = false ->
  match_here (lit label ++ [spaces q; digits_group] ++ lit suffix) s = Some g
  <-> reads_field label lo suffix s g.
Proof.
  intros Hq Hsuf. pose proof (lit_back suffix Hsuf) as Hback.
  assert (Hsp : forall s1,
    match_here ([spaces q; digits_group] ++ lit suffix) s1
    = if (lo <=? List.length (fst (run isspace s1)))%nat
      then match_here (digits_group :: lit suffix) (snd (run isspace s1))
      else None).
  { intros s1. cbn [List.app].
    destruct Hq as [[-> ->] | [-> ->]].
    - rewrite match_spaces_star. reflexivity.
    - rewrite match_spaces_plus. destruct (fst (run isspace s1)); reflexivity. }
  split.
  - intros H. apply match_lit_inv in H. destruct H as (s1 & -> & H).
    rewrite Hsp in H.
    destruct (lo <=? List.length (fst (run isspace s1)))%nat eqn:Elo;
      [|discriminate H].
    apply Nat.leb_le in Elo.
    rewrite (match_digits_group _ Hback) in H.
    destruct (run_spec isspace s1) as (Hs1 & Hws & _).
    destruct (run_spec isdecimal (snd (run isspace s1))) as (Hs2 & Hg & Hnd).
    destruct (fst (run isdecimal (snd (run isspace s1)))) as [|c g0] eqn:Eg;
      [discriminate H|].
    destruct (match_here (lit suffix) (snd (run isdecimal (snd (run isspace s1)))))
      as [x|] eqn:Ex; [|discriminate H].
    apply match_suffix in Ex. destruct Ex as (-> & rest & Ex).
    simpl in H. injection H as <-. rewrite app_nil_r.
    exists (fst (run isspace s1)), rest.
    rewrite Ex in Hs2, Hnd.
    repeat split; try assumption; try discriminate.
    rewrite <- Hs2, <- Hs1. reflexivity.
  - intros (ws & rest & -> & Hws & Hlo & Hg & Hne & Hnd).
    rewrite match_lit_prefix, Hsp.
    assert (Hns : starts_in isspace (g ++ text_of_string suffix ++ rest) = false).
    { destruct g as [|c g]; [contradiction Hne; reflexivity|].
      unfold all_in in Hg. simpl in Hg |- *.
      apply andb_true_iff in Hg. apply isdecimal_not_isspace. apply Hg. }
    rewrite (run_unique isspace ws _ Hws Hns). cbn [fst snd].
    apply Nat.leb_le in Hlo. rewrite Hlo.
    rewrite (match_digits_group _ Hback).
    rewrite (run_unique isdecimal g _ Hg Hnd). cbn [fst snd].
    destruct g as [|c g]; [contradiction Hne; reflexivity|].
    rewrite <- (app_nil_r (lit suffix)), match_lit_prefix. simpl.
    rewrite app_nil_r. reflexivity.
Qed.

Lemma search_first (items : list item) (pre s g : text) :
  match_here items s = Some g ->
  (forall pre' s',
     pre ++ s = pre' ++ s' ->
     (List.length pre' < List.length pre)%nat ->
     match_here items s' = None) ->
  search items (pre ++ s) = Some g.
Proof.
  intros Hm. induction pre as [|c pre IH]; intros Hfirst.
  - simpl. destruct s; simpl; rewrite Hm; reflexivity.
  - cbn [List.app search].
    rewrite (Hfirst [] (c :: pre ++ s) eq_refl) by (simpl; lia).
    apply IH. intros pre' s' Heq Hlen.
    apply (Hfirst (c :: pre') s'); [simpl; rewrite Heq; reflexivity | simpl; lia].
Qed.

Lemma search_none (items : list item) (text : text) :
  (forall pre s, text = pre ++ s -> match_here items s = None) ->
  search items text = None.
Proof.
  induction text as [|c text IH]; intros H.
  - simpl. rewrite (H [] [] eq_refl). reflexivity.
  - cbn [search]. rewrite (H [] (c :: text) eq_refl).
    apply IH. intros pre s Heq. apply (H (c :: pre) s).
    simpl. rewrite Heq. reflexivity.
Qed.

(** The leftmost place that reads as the field decides the search. *)
Lemma search_field (label : string) (q : quant) (lo : nat)
    (suffix : string) (text : text) :
  (q = Star /\ lo = 0%nat) \/ (q = Plus /\ lo = 1%nat) ->
  starts_in isdecimal (text_of_string suffix) = false ->
  (forall g, first_field label lo suffix text g ->
     search (lit label ++ [spaces q; digits_group] ++ lit suffix) text
       = Some g) /\
  (no_field label lo suffix text ->
     search (lit label ++ [spaces q; digits_group] ++ lit suffix) text
       = None).
Proof.
  intros Hq Hsuf. split.
  - intros g (pre & s & -> & Hr & Hfirst).
    apply search_first.
    + apply (match_field_iff label q lo suffix s g Hq Hsuf). exact Hr.
    + intros pre' s' Heq Hlen.
      destruct (match_here _ s') as [g'|] eqn:E; [|reflexivity].
      apply (match_field_iff label q lo suffix s' g' Hq Hsuf) in E.
      exfalso. exact (Hfirst pre' s' g' Heq Hlen E).
  - intros Hno. apply search_none. intros pre s Heq.
    destruct (match_here _ s) as [g'|] eqn:E; [|reflexivity].
    apply (match_field_iff label q lo suffix s g' Hq Hsuf) in E.
    exfalso. exact (Hno pre s g' Heq E).
Qed.

(** C7, as the code has it: between a label and its numeral only whitespace
    is passed over ([extract_metric]: the label, a colon, any whitespace;
    [extract_number]: the label, at least one whitespace character; and
    [extract_percentage]: the same with a percent sign right after the
    numeral).  The text is any sequence of Unicode code points, whitespace
    is what [\s] accepts and a numeral is a run of what [\d] accepts, in
    any script.  The leftmost place of the text that reads so gives the
    result, the value of a numeral of at most 4300 digits, and the result
    is 0 when no place does. *)
Theorem field_extraction (label : string) (content g : text) :
  (List.length g <= max_str_digits)%nat ->
  (first_field (label ++ ":") 0 "" content g ->
   Metrics.extract_metric content label = Ok (int_of_decimals g)) /\
  (no_field (label ++ ":") 0 "" content ->
   Metrics.extract_metric content label = Ok 0%Z) /\
  (first_field label 1 "" content g ->
   Report.extract_number content label = int_of_decimals g) /\
  (no_field label 1 "" content ->
   Report.extract_number content label = 0%Z) /\
  (first_field label 1 "%" content g ->
   Report.extract_percentage content label = int_of_decimals g) /\
  (no_field label 1 "%" content ->
   Report.extract_percentage content label = 0%Z).
Proof.
  intros Hlen.
  assert (Hint : int_of_str g = Ok (int_of_decimals g)).
  { unfold int_of_str.
    replace (max_str_digits <? List.length g)%nat with false
      by (symmetry; apply Nat.ltb_ge; exact Hlen).
    reflexivity. }
  assert (HS : (Star = Star /\ 0 = 0)%nat \/ (Star = Plus /\ 0 = 1)%nat)
    by (left; split; reflexivity).
  assert (HP : (Plus = Star /\ 1 = 0)%nat \/ (Plus = Plus /\ 1 = 1)%nat)
    by (right; split; reflexivity).
  destruct (search_field (label ++ ":") Star 0 "" content HS eq_refl) as [M1 M0].
  destruct (search_field label Plus 1 "" content HP eq_refl) as [N1 N0].
  destruct (search_field label Plus 1 "%" content HP eq_refl) as [P1 P0].
  unfold Metrics.extract_metric, Report.extract_number,
    Report.extract_percentage.
  rewrite lit_app in M1, M0.
  change (lit "") with (@nil item) in M1, M0, N1, N0.
  rewrite app_nil_r, <- app_assoc in M1, M0. rewrite app_nil_r in N1, N0.
  repeat split; intros H.
  - rewrite (M1 g H). exact Hint.
  - rewrite (M0 H). reflexivity.
  - rewrite (N1 g H), Hint. reflexivity.
  - rewrite (N0 H). reflexivity.
  - rewrite (P1 g H), Hint. reflexivity.
  - rewrite (P0 H). reflexivity.
Qed.

Lemma reads_field_here (label : string) (ws g : text) (suffix : string)
    (rest : text) (lo : nat) :
  forallb isspace ws = true ->
  (lo <=? List.length ws)%nat = true ->
  forallb isdecimal g = true ->
  negb (Nat.eqb (List.length g) 0) = true ->
  starts_in isdecimal (text_of_string suffix ++ rest) = false ->
  first_field label lo suffix
    (text_of_string label ++ ws ++ g ++ text_of_string suffix ++ rest) g.
Proof.
  intros Hws Hlo Hg Hne Hnd.
  exists [], (text_of_string label ++ ws ++ g ++ text_of_string suffix ++ rest).
  split; [reflexivity|]. split.
  - exists ws, rest. repeat split; try assumption.
    + apply Nat.leb_le. exact Hlo.
    + intros ->. discriminate Hne.
  - intros pre' s' g' _ Hlen. simpl in Hlen. lia.
Qed.

(** Two ASCII fields, and a coverage written with an em space and the
    Arabic-Indic digits three and four. *)
Lemma field_extraction_witness :
  Metrics.extract_metric
    (text_of_string ("Tests Passed" ++ ":") ++ text_of_string "  "
     ++ text_of_string "12" ++ text_of_string ""
     ++ text_of_string " Tests Passed: 13")
    "Tests Passed" = Ok 12%Z /\
  Report.extract_number
    (text_of_string "Tests Passed:" ++ text_of_string "  "
     ++ text_of_string "12" ++ text_of_string ""
     ++ text_of_string " Tests Passed: 13")
    "Tests Passed:" = 12%Z /\
  Report.extract_percentage
    (text_of_string "Code Coverage:" ++ [8195%N] ++ [1635%N; 1636%N]
     ++ text_of_string "%" ++ text_of_string " Code Coverage: 90%")
    "Code Coverage:" = 34%Z.
Proof.
  split; [|split].
  - apply (field_extraction "Tests Passed"
             (text_of_string ("Tests Passed" ++ ":") ++ text_of_string "  "
              ++ text_of_string "12" ++ text_of_string ""
              ++ text_of_string " Tests Passed: 13")
             (text_of_string "12")); [apply Nat.leb_le; reflexivity|].
    apply (reads_field_here ("Tests Passed" ++ ":") (text_of_string "  ")
             (text_of_string "12") ""
             (text_of_string " Tests Passed: 13") 0); reflexivity.
  - apply (field_extraction "Tests Passed:"
             (text_of_string "Tests Passed:" ++ text_of_string "  "
              ++ text_of_string "12" ++ text_of_string ""
              ++ text_of_string " Tests Passed: 13")
             (text_of_string "12")); [apply Nat.leb_le; reflexivity|].
    apply (reads_field_here "Tests Passed:" (text_of_string "  ")
             (text_of_string "12") ""
             (text_of_string " Tests Passed: 13") 1); reflexivity.
  - apply (field_extraction "Code Coverage:"
             (text_of_string "Code Coverage:" ++ [8195%N] ++ [1635%N; 1636%N]
              ++ text_of_string "%" ++ text_of_string " Code Coverage: 90%")
             [1635%N; 1636%N]); [apply Nat.leb_le; reflexivity|].
    apply (reads_field_here "Code Coverage:" [8195%N] [1635%N; 1636%N] "%"
             (text_of_string " Code Coverage: 90%") 1); reflexivity.
Defined.

(** Other characters between the label and the numeral are not passed
    over: a label followed by [" = 85%"] gives 0, not 85. *)
Lemma extraction_stops_at_other_characters :
  Metrics.extract_metric
    (text_of_string ("Code Coverage" ++ ": = " ++ "85" ++ "%"))
    "Code Coverage" <> Ok (int_of_decimals (text_of_string "85")) /\
  Report.extract_percentage
    (text_of_string ("Code Coverage:" ++ " = " ++ "85" ++ "%"))
    "Code Coverage:" <> int_of_decimals (text_of_string "85") /\
  Report.extract_number (text_of_string ("Tests Passed:" ++ " ~" ++ "7"))
    "Tests Passed:" <> int_of_decimals (text_of_string "7").
Proof. vm_compute. repeat split; discriminate. Qed.

(** A place that does not read as the field is skipped, and a later one
    that does is used. *)
Lemma extraction_skips_to_first_match :
  Metrics.extract_metric
    (text_of_string "Code Coverage: n/a; Code Coverage:85%")
    "Code Coverage" = Ok 85%Z /\
  Report.extract_percentage
    (text_of_string "Code Coverage: 85 % Code Coverage:  90%")
    "Code Coverage:" = 90%Z /\
  Report.extract_number (text_of_string "Tests Passed:7 Tests Passed: 8")
    "Tests Passed:" = 8%Z.
Proof. vm_compute. repeat split. Qed.

(** ** Magnitudes of doubles *)

Lemma digits2_pos_size (p : positive) : digits2_pos p = Pos.size p.
Proof. induction p as [p IH|p IH|]; simpl; [rewrite IH..|]; reflexivity. Qed.

Lemma Zdigits2_log2 (m : Z) : 0 < m -> Zdigits2 m = Z.log2 m + 1.
Proof.
  destruct m as [|p|p]; try lia. intros _. simpl Zdigits2.
  destruct p as [p|p|]; simpl; rewrite ?digits2_pos_size; lia.
Qed.

Lemma Zdigits2_nonneg (m : Z) : 0 <= Zdigits2 m.
Proof. destruct m; simpl; lia. Qed.

Lemma Zdigits2_le_iff (m k : Z) :
  0 <= m -> 0 <= k -> (Zdigits2 m <= k <-> m < 2 ^ k).
Proof.
  intros Hm Hk. destruct (Z.eq_dec m 0) as [->|Hne].
  - simpl. split; intros; [apply Z.pow_pos_nonneg|]; lia.
  - rewrite Zdigits2_log2 by lia.
    rewrite (Z.log2_lt_pow2 m k) by lia. lia.
Qed.

Lemma Zdigits2_lower (m : Z) : 0 < m -> 2 ^ (Zdigits2 m - 1) <= m.
Proof.
  intros Hm. rewrite Zdigits2_log2 by lia.
  replace (Z.log2 m + 1 - 1) with (Z.log2 m) by lia.
  apply Z.log2_spec. exact Hm.
Qed.

Lemma Zdigits2_upper (m : Z) : 0 <= m -> m < 2 ^ Zdigits2 m.
Proof.
  intros Hm. apply Zdigits2_le_iff; [exact Hm | apply Zdigits2_nonneg | lia].
Qed.

Lemma div_pow2_lt (m d j : Z) :
  0 <= m < 2 ^ d -> 0 <= d -> 0 <= j -> m / 2 ^ j < 2 ^ Z.max (d - j) 0.
Proof.
  intros Hm Hd Hj.
  assert (H2j : 0 < 2 ^ j) by (apply Z.pow_pos_nonneg; lia).
  apply Z.div_lt_upper_bound; [exact H2j|].
  rewrite <- Z.pow_add_r by lia.
  apply Z.lt_le_trans with (2 ^ d); [lia|].
  apply Z.pow_le_mono_r; lia.
Qed.

(** ** Shifting and rounding *)

Lemma shr_1_m (mrs : shr_record) :
  0 <= shr_m mrs -> shr_m (shr_1 mrs) = shr_m mrs / 2.
Proof.
  destruct mrs as [m r s]. simpl. intros Hm.
  destruct m as [|p|p]; [reflexivity| |lia].
  destruct p as [p|p|]; simpl.
  - rewrite Pos2Z.inj_xI. 
    replace (2 * Z.pos p + 1) with (1 + Z.pos p * 2) by lia.
    rewrite Z.div_add by lia. reflexivity.
  - rewrite Pos2Z.inj_xO. 
    replace (2 * Z.pos p) with (0 + Z.pos p * 2) by lia.
    rewrite Z.div_add by lia. reflexivity.
  - reflexivity.
Qed.

Lemma pow2_xO (p : positive) : 2 ^ Zpos p~0 = 2 ^ Zpos p * 2 ^ Zpos p.
Proof.
  replace (Zpos p~0) with (Z.pos p + Z.pos p) by lia.
  apply Z.pow_add_r; lia.
Qed.

Lemma pow2_xI (p : positive) : 2 ^ Zpos p~1 = 2 * (2 ^ Zpos p * 2 ^ Zpos p).
Proof.
  replace (Zpos p~1) with (1 + (Z.pos p + Z.pos p)) by lia.
  rewrite !Z.pow_add_r by lia. reflexivity.
Qed.

Lemma iter_shr_1_m (p : positive) :
  forall mrs, 0 <= shr_m mrs ->
  shr_m (iter_pos shr_1 p mrs) = shr_m mrs / 2 ^ Zpos p.
Proof.
  assert (Hhalf : forall m, 0 <= m -> 0 <= m / 2)
    by (intros; apply Z.div_pos; lia).
  assert (Hpos : forall q, 0 < 2 ^ Zpos q)
    by (intros; apply Z.pow_pos_nonneg; lia).
  assert (Hpow : forall m q, 0 <= m -> 0 <= m / 2 ^ Zpos q)
    by (intros; apply Z.div_pos; [lia | apply Hpos]).
  induction p as [p IH|p IH|]; intros mrs Hm; simpl iter_pos.
  - pose proof (Hpos p). 
    assert (H1 : 0 <= shr_m (shr_1 mrs)) by (rewrite shr_1_m; auto).
    rewrite (IH (iter_pos shr_1 p (shr_1 mrs)))
      by (rewrite IH by exact H1; auto).
    rewrite IH by exact H1. rewrite shr_1_m by exact Hm.
    rewrite !Z.div_div by lia. rewrite pow2_xI. reflexivity.
  - pose proof (Hpos p).
    rewrite (IH (iter_pos shr_1 p mrs)) by (rewrite IH by exact Hm; auto).
    rewrite IH by exact Hm.
    rewrite Z.div_div by lia. rewrite pow2_xO. reflexivity.
  - rewrite shr_1_m by auto. reflexivity.
Qed.

Lemma shr_record_of_loc_m (m : Z) (l : location) :
  shr_m (shr_record_of_loc m l) = m.
Proof. destruct l as [|[]]; reflexivity. Qed.

Lemma shr_fexp_spec (m e : Z) (l : location) :
  0 <= m ->
  snd (shr_fexp prec emax m e l) = Z.max e (fexp prec emax (Zdigits2 m + e)) /\
  shr_m (fst (shr_fexp prec emax m e l))
    = m / 2 ^ (snd (shr_fexp prec emax m e l) - e).
Proof.
  intros Hm. unfold shr_fexp, shr.
  destruct (fexp prec emax (Zdigits2 m + e) - e) as [|p|p] eqn:E; cbn [fst snd].
  - rewrite shr_record_of_loc_m, Z.sub_diag, Z.div_1_r. split; lia.
  - rewrite iter_shr_1_m by (rewrite shr_record_of_loc_m; exact Hm).
    rewrite shr_record_of_loc_m.
    replace (e + Z.pos p - e) with (Z.pos p) by lia. split; lia.
  - rewrite shr_record_of_loc_m, Z.sub_diag, Z.div_1_r. split; lia.
Qed.

Lemma round_nearest_even_range (m : Z) (l : location) :
  m <= round_nearest_even m l <= m + 1.
Proof.
  unfold round_nearest_even.
  destruct l as [|[]]; try destruct (Z.even m); lia.
Qed.

(** Rounding a non-negative value below [2 ^ k] gives a non-negative
    finite double below [2 ^ (k + 1)]. *)
Lemma round_below (m e k : Z) (l : location) :
  0 <= m -> Zdigits2 m + e <= k -> e <= Z.max (k - 52) (-1074) -> k <= 1023 ->
  below (Z.max (k + 1) (-1073)) (binary_round_aux prec emax false m e l).
Proof.
  intros Hm Hk He Hk'.
  unfold binary_round_aux.
  destruct (shr_fexp_spec m e l Hm) as [He1 Hm1].
  destruct (shr_fexp prec emax m e l) as [mrs1 e1]. cbn [fst snd] in He1, Hm1.
  set (m1 := shr_m mrs1) in *.
  set (m2 := round_nearest_even m1 (loc_of_shr_record mrs1)).
  pose proof (round_nearest_even_range m1 (loc_of_shr_record mrs1)) as Hr.
  fold m2 in Hr.
  pose proof (Zdigits2_nonneg m) as Hd0.
  pose proof (Zdigits2_upper m Hm) as Hup.
  assert (Hfe : fexp prec emax (Zdigits2 m + e)
                = Z.max (Zdigits2 m + e - 53) (-1074)) by reflexivity.
  assert (Hj : 0 <= e1 - e) by lia.
  assert (Hm1lo : 0 <= m1).
  { rewrite Hm1. apply Z.div_pos; [lia | apply Z.pow_pos_nonneg; lia]. }
  assert (Hm1hi : m1 < 2 ^ Z.max (Zdigits2 m - (e1 - e)) 0).
  { rewrite Hm1. apply div_pow2_lt; lia. }
  assert (Hm2lo : 0 <= m2) by lia.
  assert (Hm2d : Zdigits2 m2 <= Z.max (Zdigits2 m - (e1 - e)) 0 + 1).
  { apply Zdigits2_le_iff; try lia.
    rewrite Z.pow_add_r, Z.pow_1_r by lia. lia. }
  destruct (shr_fexp_spec m2 e1 loc_Exact Hm2lo) as [He2 Hm3].
  destruct (shr_fexp prec emax m2 e1 loc_Exact) as [mrs2 e2].
  cbn [fst snd] in He2, Hm3.
  assert (Hfe2 : fexp prec emax (Zdigits2 m2 + e1)
                 = Z.max (Zdigits2 m2 + e1 - 53) (-1074)) by reflexivity.
  assert (Hj2 : 0 <= e2 - e1) by lia.
  assert (Hm3lo : 0 <= shr_m mrs2).
  { rewrite Hm3. apply Z.div_pos; [lia | apply Z.pow_pos_nonneg; lia]. }
  pose proof (Zdigits2_nonneg m2) as Hd2.
  pose proof (Zdigits2_upper m2 Hm2lo) as Hup2.
  assert (Hm3hi : shr_m mrs2 < 2 ^ Z.max (Zdigits2 m2 - (e2 - e1)) 0).
  { rewrite Hm3. apply div_pow2_lt; lia. }
  destruct (shr_m mrs2) as [|p|p] eqn:E3; [exact I| |lia].
  assert (Hp : Zdigits2 (Zpos p) <= Z.max (Zdigits2 m2 - (e2 - e1)) 0).
  { apply Zdigits2_le_iff; lia. }
  simpl Zdigits2 in Hp.
  replace (emax - prec) with 971 by reflexivity.
  destruct (e2 <=? 971) eqn:E971.
  - cbn [below]. lia.
  - apply Z.leb_gt in E971. exfalso. lia.
Qed.

Lemma below_weaken (a b : Z) (x : float) : a <= b -> below a x -> below b x.
Proof.
  intros Hab. destruct x as [[]|[]| |[] m e]; simpl; try tauto. lia.
Qed.

Lemma iter_xO (d m : positive) : Zpos (Pos.iter xO m d) = Zpos m * 2 ^ Zpos d.
Proof.
  induction d as [|d IH] using Pos.peano_ind.
  - simpl. lia.
  - rewrite Pos.iter_succ, Pos2Z.inj_succ, Z.pow_succ_r by lia.
    rewrite Pos2Z.inj_xO, IH. ring.
Qed.

Lemma Zdigits2_mul_pow2 (m j : Z) :
  0 < m -> 0 <= j -> Zdigits2 (m * 2 ^ j) = Zdigits2 m + j.
Proof.
  intros Hm Hj.
  assert (0 < 2 ^ j) by (apply Z.pow_pos_nonneg; lia).
  rewrite !Zdigits2_log2 by nia.
  rewrite Z.log2_mul_pow2 by lia. lia.
Qed.

Lemma shl_align_spec (m : positive) (e e' : Z) :
  snd (shl_align m e e') = Z.min e e' /\
  Zpos (fst (shl_align m e e')) = Zpos m * 2 ^ (e - snd (shl_align m e e')).
Proof.
  unfold shl_align. destruct (e' - e) as [|p|p] eqn:E; cbn [fst snd].
  - rewrite Z.sub_diag. split; lia.
  - rewrite Z.sub_diag. split; lia.
  - rewrite iter_xO. split; [lia|]. f_equal. f_equal. lia.
Qed.

Lemma binary_round_below (m : positive) (e k : Z) :
  Zpos (digits2_pos m) + e <= k -> k <= 1023 ->
  below (Z.max (k + 1) (-1073)) (binary_round prec emax false m e).
Proof.
  intros Hk Hk'. unfold binary_round.
  assert (Hfe : fexp prec emax (Zpos (digits2_pos m) + e)
                = Z.max (Zpos (digits2_pos m) + e - 53) (-1074)) by reflexivity.
  destruct (shl_align_spec m e (fexp prec emax (Zpos (digits2_pos m) + e)))
    as [Hs Hf].
  destruct (shl_align m e (fexp prec emax (Zpos (digits2_pos m) + e)))
    as [mz ez]. cbn [fst snd] in Hs, Hf.
  apply round_below; try lia.
  rewrite Hf, Zdigits2_mul_pow2 by lia. simpl Zdigits2. lia.
Qed.

(** ** The operations on non-negative doubles *)

Lemma Zdigits2_mul (a b : positive) :
  Zpos (digits2_pos (a * b))
  <= Zpos (digits2_pos a) + Zpos (digits2_pos b).
Proof.
  change (Zdigits2 (Zpos (a * b)) <= Zdigits2 (Zpos a) + Zdigits2 (Zpos b)).
  pose proof (Zdigits2_upper (Zpos a) ltac:(lia)) as Ha.
  pose proof (Zdigits2_upper (Zpos b) ltac:(lia)) as Hb.
  pose proof (Zdigits2_nonneg (Zpos a)). pose proof (Zdigits2_nonneg (Zpos b)).
  apply Zdigits2_le_iff; try lia.
  rewrite Z.pow_add_r by lia. rewrite Pos2Z.inj_mul.
  apply Z.mul_lt_mono_nonneg; lia.
Qed.

Lemma fmul_below (a b : Z) (x y : float) :
  below a x -> below b y -> -1073 <= a -> -1073 <= b -> a + b <= 1023 ->
  below (Z.max (a + b + 1) (-1073)) (fmul x y).
Proof.
  intros Hx Hy Ha Hb Hab.
  destruct x as [[]|[]| |[] mx ex]; try contradiction;
    destruct y as [[]|[]| |[] my ey]; try contradiction; try exact I.
  destruct Hx as [Hx1 Hx2], Hy as [Hy1 Hy2].
  unfold fmul, SFmul. cbn [xorb].
  pose proof (Zdigits2_mul mx my).
  apply round_below; simpl Zdigits2; lia.
Qed.

Lemma fadd_below (a b : Z) (x y : float) :
  below a x -> below b y -> a <= 1022 -> b <= 1022 ->
  below (Z.max (Z.max a b + 2) (-1073)) (fadd x y).
Proof.
  intros Hx Hy Ha Hb.
  destruct x as [[]|[]| |[] mx ex]; try contradiction;
    destruct y as [[]|[]| |[] my ey]; try contradiction;
    try exact I;
    try (eapply below_weaken; [|eassumption]; lia).
  destruct Hx as [Hx1 Hx2], Hy as [Hy1 Hy2].
  unfold fadd, SFadd. cbn [cond_Zopp].
  destruct (shl_align_spec mx ex (Z.min ex ey)) as [Hsx Hfx].
  destruct (shl_align_spec my ey (Z.min ex ey)) as [Hsy Hfy].
  rewrite Hsx in Hfx. rewrite Hsy in Hfy.
  rewrite Hfx, Hfy.
  replace (Z.min ex (Z.min ex ey)) with (Z.min ex ey) by lia.
  replace (Z.min ey (Z.min ex ey)) with (Z.min ex ey) by lia.
  set (ez := Z.min ex ey).
  assert (Hpx : 0 < 2 ^ (ex - ez)) by (apply Z.pow_pos_nonneg; lia).
  assert (Hpy : 0 < 2 ^ (ey - ez)) by (apply Z.pow_pos_nonneg; lia).
  assert (Hdx : Zdigits2 (Zpos mx * 2 ^ (ex - ez)) + ez <= Z.max a b).
  { rewrite Zdigits2_mul_pow2 by lia. simpl Zdigits2. lia. }
  assert (Hdy : Zdigits2 (Zpos my * 2 ^ (ey - ez)) + ez <= Z.max a b).
  { rewrite Zdigits2_mul_pow2 by lia. simpl Zdigits2. lia. }
  assert (Hk0 : 0 <= Z.max a b - ez).
  { pose proof (Zdigits2_nonneg (Zpos mx * 2 ^ (ex - ez))). lia. }
  assert (Hsum : Zpos mx * 2 ^ (ex - ez) + Zpos my * 2 ^ (ey - ez)
                 < 2 ^ (Z.max a b - ez + 1)).
  { rewrite Z.pow_add_r, Z.pow_1_r by lia.
    assert (Zpos mx * 2 ^ (ex - ez) < 2 ^ (Z.max a b - ez))
      by (apply Zdigits2_le_iff; lia).
    assert (Zpos my * 2 ^ (ey - ez) < 2 ^ (Z.max a b - ez))
      by (apply Zdigits2_le_iff; lia).
    lia. }
  destruct (Zpos mx * 2 ^ (ex - ez) + Zpos my * 2 ^ (ey - ez))
    as [|s|s] eqn:Es; try lia.
  cbn [binary_normalize].
  assert (Hds : Zdigits2 (Zpos s) <= Z.max a b - ez + 1)
    by (apply Zdigits2_le_iff; lia).
  simpl Zdigits2 in Hds.
  replace (Z.max a b + 2) with ((Z.max a b + 1) + 1) by lia.
  apply binary_round_below; lia.
Qed.

Lemma float_of_int_below (n k : Z) :
  0 <= n < 2 ^ k -> 0 <= k <= 1023 ->
  exists f, float_of_int n = Ok f /\ below (k + 1) f.
Proof.
  intros Hn Hk. unfold float_of_int.
  destruct n as [|m|m]; try lia.
  - exists (S754_zero false). split; [reflexivity | exact I].
  - cbn [binary_normalize].
    assert (Hd : Zdigits2 (Zpos m) <= k) by (apply Zdigits2_le_iff; lia).
    simpl Zdigits2 in Hd.
    pose proof (binary_round_below m 0 k ltac:(lia) ltac:(lia)) as H.
    apply (below_weaken _ (k + 1)) in H; [|lia].
    destruct (binary_round prec emax false m 0) as [[]|[]| |[] m' e'];
      try contradiction; eexists; split; try reflexivity; exact H.
Qed.

Lemma binary_round_aux_abs (s : bool) (m e : Z) (l : location) :
  SFabs (binary_round_aux prec emax s m e l)
  = binary_round_aux prec emax false m e l.
Proof.
  unfold binary_round_aux.
  destruct (shr_fexp prec emax m e l) as [mrs1 e1].
  destruct (shr_fexp prec emax _ e1 loc_Exact) as [mrs2 e2].
  destruct (shr_m mrs2); try reflexivity.
  destruct (e2 <=? emax - prec); reflexivity.
Qed.

Lemma binary_round_abs (s : bool) (m : positive) (e : Z) :
  SFabs (binary_round prec emax s m e) = binary_round prec emax false m e.
Proof.
  unfold binary_round.
  destruct (shl_align m e _) as [mz ez]. apply binary_round_aux_abs.
Qed.

(** Division of two finite doubles, the divisor being positive. *)
Lemma div_core_below (m1 m2 : positive) (e1 e2 k : Z) (s : bool) :
  Zpos (digits2_pos m1) + e1 - (Zpos (digits2_pos m2) + e2) + 1 <= k ->
  -1074 <= k <= 1023 ->
  below (Z.max (k + 1) (-1073))
    (SFabs (SFdiv prec emax (S754_finite s m1 e1) (S754_finite false m2 e2))).
Proof.
  intros Hd Hk. unfold SFdiv.
  destruct (SFdiv_core_binary prec emax (Zpos m1) e1 (Zpos m2) e2)
    as [[q e'] l] eqn:Ecore.
  rewrite binary_round_aux_abs.
  unfold SFdiv_core_binary in Ecore.
  set (d1 := Zpos (digits2_pos m1)) in *.
  set (d2 := Zpos (digits2_pos m2)) in *.
  change (Zdigits2 (Zpos m1)) with d1 in Ecore.
  change (Zdigits2 (Zpos m2)) with d2 in Ecore.
  assert (Hfe : fexp prec emax (d1 + e1 - (d2 + e2))
                = Z.max (d1 + e1 - (d2 + e2) - 53) (-1074)) by reflexivity.
  rewrite Hfe in Ecore.
  set (e0 := Z.min (Z.max (d1 + e1 - (d2 + e2) - 53) (-1074)) (e1 - e2)) in *.
  set (m' := match e1 - e2 - e0 with
             | 0 => Zpos m1
             | Zpos _ => Z.shiftl (Zpos m1) (e1 - e2 - e0)
             | Zneg _ => 0
             end) in *.
  assert (Hs : 0 <= e1 - e2 - e0) by (unfold e0; lia).
  assert (Hm' : m' = Zpos m1 * 2 ^ (e1 - e2 - e0)).
  { unfold m'. destruct (e1 - e2 - e0) as [|p|p] eqn:Es; try lia.
    rewrite Z.shiftl_mul_pow2 by lia. reflexivity. }
  pose proof (Z_div_mod m' (Zpos m2) ltac:(lia)) as Hdm.
  destruct (Z.div_eucl m' (Zpos m2)) as [q0 r] eqn:Eqr.
  injection Ecore as <- <- <-.
  destruct Hdm as [Hq Hr].
  assert (H2 : 0 < 2 ^ (e1 - e2 - e0)) by (apply Z.pow_pos_nonneg; lia).
  assert (Hq0 : 0 <= q0) by nia.
  pose proof (Zdigits2_upper (Zpos m1) ltac:(lia)) as Hu1.
  pose proof (Zdigits2_lower (Zpos m2) ltac:(lia)) as Hl2.
  change (Zdigits2 (Zpos m1)) with d1 in Hu1.
  change (Zdigits2 (Zpos m2)) with d2 in Hl2.
  assert (Hd1pos : 1 <= d1) by (unfold d1; lia).
  assert (Hd2pos : 1 <= d2) by (unfold d2; lia).
  set (sh := e1 - e2 - e0) in *.
  assert (Hqlt : q0 < 2 ^ Z.max (d1 + sh - d2 + 1) 0).
  { destruct (Z_lt_le_dec (d1 + sh - d2 + 1) 0) as [Hneg|Hnn].
    - rewrite Z.max_r by lia. simpl.
      assert (m' < Zpos m2); [|nia].
      rewrite Hm'. apply Z.lt_le_trans with (2 ^ d1 * 2 ^ sh); [nia|].
      apply Z.le_trans with (2 ^ (d2 - 1)); [|exact Hl2].
      rewrite <- Z.pow_add_r by lia. apply Z.pow_le_mono_r; lia.
    - rewrite Z.max_l by lia.
      assert (m' < 2 ^ (d1 + sh - d2 + 1) * 2 ^ (d2 - 1)).
      { rewrite <- Z.pow_add_r by lia.
        replace (d1 + sh - d2 + 1 + (d2 - 1)) with (d1 + sh) by lia.
        rewrite Z.pow_add_r by lia. rewrite Hm'. nia. }
      assert (0 < 2 ^ (d1 + sh - d2 + 1)) by (apply Z.pow_pos_nonneg; lia).
      nia. }
  assert (Hdq : Zdigits2 q0 <= Z.max (d1 + sh - d2 + 1) 0)
    by (apply Zdigits2_le_iff; lia).
  apply round_below; try lia.
Qed.

Lemma int_truediv_magnitude (p t k : Z) :
  0 < t -> Zdigits2 p - Zdigits2 t + 1 <= k -> 0 <= k <= 1023 ->
  exists q, int_truediv p t = Ok q /\ below (k + 1) (SFabs q).
Proof.
  intros Ht Hd Hk. unfold int_truediv.
  replace (t =? 0) with false by (symmetry; apply Z.eqb_neq; lia).
  replace (t <? 0) with false by (symmetry; apply Z.ltb_ge; lia).
  destruct t as [|mt|mt]; try lia.
  assert (Hcore : forall (s : bool) (mp : positive),
    Zdigits2 (Zpos mp) - Zdigits2 (Zpos mt) + 1 <= k ->
    exists q,
      match SFdiv prec emax (S754_finite s mp 0) (S754_finite false mt 0) with
      | S754_infinity _ => Raise OverflowError
      | f => Ok f
      end = Ok q /\ below (k + 1) (SFabs q)).
  { intros s mp Hd'. simpl Zdigits2 in Hd'.
    pose proof (div_core_below mp mt 0 0 k s ltac:(lia) ltac:(lia)) as H.
    apply (below_weaken _ (k + 1)) in H; [|lia].
    destruct (SFdiv prec emax (S754_finite s mp 0) (S754_finite false mt 0))
      as [[]|[]| |[] m1 e1]; try contradiction;
      eexists; split; try reflexivity; exact H. }
  destruct p as [|mp|mp].
  - exists (S754_zero false). split; [reflexivity | exact I].
  - apply (Hcore false mp). exact Hd.
  - apply (Hcore true mp). exact Hd.
Qed.

Lemma SFdiv_nonneg (m1 m2 : positive) (e1 e2 : Z) :
  SFabs (SFdiv prec emax (S754_finite false m1 e1) (S754_finite false m2 e2))
  = SFdiv prec emax (S754_finite false m1 e1) (S754_finite false m2 e2).
Proof.
  unfold SFdiv.
  destruct (SFdiv_core_binary prec emax (Zpos m1) e1 (Zpos m2) e2)
    as [[q e'] l].
  cbn [xorb]. apply binary_round_aux_abs.
Qed.

Lemma int_truediv_below (p t k : Z) :
  0 <= p -> 0 < t -> Zdigits2 p - Zdigits2 t + 1 <= k -> 0 <= k <= 1023 ->
  exists q, int_truediv p t = Ok q /\ below (k + 1) q.
Proof.
  intros Hp Ht Hd Hk.
  destruct (int_truediv_magnitude p t k Ht Hd Hk) as (q & Hq & Bq).
  exists q. split; [exact Hq|].
  unfold int_truediv in Hq.
  replace (t =? 0) with false in Hq by (symmetry; apply Z.eqb_neq; lia).
  replace (t <? 0) with false in Hq by (symmetry; apply Z.ltb_ge; lia).
  destruct p as [|mp|mp]; try lia.
  - injection Hq as <-. exact I.
  - destruct t as [|mt|mt]; try lia.
    cbn [Z.ltb Z.compare Z.abs Z.to_pos] in Hq.
    pose proof (SFdiv_nonneg mp mt 0 0) as Hnn.
    destruct (SFdiv prec emax (S754_finite false mp 0) (S754_finite false mt 0));
      try discriminate Hq; injection Hq as <-; rewrite <- Hnn; exact Bq.
Qed.

Lemma int_of_float_below (k : Z) (x : float) :
  below k x -> exists n, int_of_float x = Ok n /\ 0 <= n.
Proof.
  destruct x as [[]|[]| |[] m e]; try contradiction; intros _.
  - exists 0. split; [reflexivity | lia].
  - cbn [int_of_float]. eexists. split; [reflexivity|].
    destruct e as [|p|p].
    + rewrite Z.shiftl_0_r. lia.
    + apply Z.shiftl_nonneg. lia.
    + apply Z.shiftr_nonneg. lia.
Qed.

(** ** Non-negative doubles of any size *)

(** Rounding a non-negative value, however large: a non-negative double,
    or infinity. *)
Lemma round_nonneg (m e : Z) (l : location) :
  0 <= m -> nonneg_double (binary_round_aux prec emax false m e l).
Proof.
  intros Hm. unfold binary_round_aux.
  destruct (shr_fexp_spec m e l Hm) as [He1 Hm1].
  destruct (shr_fexp prec emax m e l) as [mrs1 e1]. cbn [fst snd] in He1, Hm1.
  set (m1 := shr_m mrs1) in *.
  set (m2 := round_nearest_even m1 (loc_of_shr_record mrs1)).
  pose proof (round_nearest_even_range m1 (loc_of_shr_record mrs1)) as Hr.
  fold m2 in Hr.
  assert (Hm1lo : 0 <= m1).
  { rewrite Hm1. apply Z.div_pos; [lia | apply Z.pow_pos_nonneg; lia]. }
  assert (Hm2lo : 0 <= m2) by lia.
  destruct (shr_fexp_spec m2 e1 loc_Exact Hm2lo) as [He2 Hm3].
  destruct (shr_fexp prec emax m2 e1 loc_Exact) as [mrs2 e2].
  cbn [fst snd] in He2, Hm3.
  assert (Hfe2 : fexp prec emax (Zdigits2 m2 + e1)
                 = Z.max (Zdigits2 m2 + e1 - 53) (-1074)) by reflexivity.
  pose proof (Zdigits2_nonneg m2) as Hd2.
  pose proof (Zdigits2_upper m2 Hm2lo) as Hup2.
  assert (Hm3hi : shr_m mrs2 < 2 ^ Z.max (Zdigits2 m2 - (e2 - e1)) 0).
  { rewrite Hm3. apply div_pow2_lt; lia. }
  assert (Hm3lo : 0 <= shr_m mrs2).
  { rewrite Hm3. apply Z.div_pos; [lia | apply Z.pow_pos_nonneg; lia]. }
  destruct (shr_m mrs2) as [|p|p] eqn:E3; [left; exact I| |lia].
  replace (emax - prec) with 971 by reflexivity.
  destruct (e2 <=? 971) eqn:E971; [|right; reflexivity].
  apply Z.leb_le in E971. left. cbn [below].
  assert (Hp : Zdigits2 (Zpos p) <= Z.max (Zdigits2 m2 - (e2 - e1)) 0)
    by (apply Zdigits2_le_iff; lia).
  simpl Zdigits2 in Hp. lia.
Qed.

Lemma binary_round_nonneg (m : positive) (e : Z) :
  nonneg_double (binary_round prec emax false m e).
Proof.
  unfold binary_round.
  destruct (shl_align m e (fexp prec emax (Zpos (digits2_pos m) + e)))
    as [mz ez].
  apply round_nonneg. lia.
Qed.

Lemma nonneg_double_cases (x : float) :
  nonneg_double x <->
  match x with
  | S754_zero false | S754_infinity false => True
  | S754_finite false m e => Zpos (digits2_pos m) + e <= 1024 /\ e <= 971
  | _ => False
  end.
Proof.
  unfold nonneg_double.
  destruct x as [[]|[]| |[] m e]; cbn [below]; split;
    try tauto; try (intros [[]|H]; discriminate H);
    try (intros [H|H]; [|discriminate H]; lia);
    try (intros H; left; lia).
Qed.

(** The product of two non-negative finite doubles. *)
Lemma fmul_nonneg (a b : Z) (x y : float) :
  below a x -> below b y -> nonneg_double (fmul x y).
Proof.
  intros Hx Hy.
  destruct x as [[]|[]| |[] mx ex]; try contradiction;
    destruct y as [[]|[]| |[] my ey]; try contradiction;
    try (left; exact I).
  unfold fmul, SFmul. cbn [xorb]. apply round_nonneg. lia.
Qed.

(** The sum of two non-negative doubles. *)
Lemma fadd_nonneg (x y : float) :
  nonneg_double x -> nonneg_double y -> nonneg_double (fadd x y).
Proof.
  intros Hx Hy. apply nonneg_double_cases in Hx, Hy.
  destruct x as [[]|[]| |[] mx ex]; try contradiction;
    destruct y as [[]|[]| |[] my ey]; try contradiction;
    try (apply nonneg_double_cases; cbn [fadd SFadd Bool.eqb]; assumption).
  unfold fadd, SFadd. cbn [cond_Zopp].
  destruct (shl_align mx ex (Z.min ex ey)) as [ax ea].
  destruct (shl_align my ey (Z.min ex ey)) as [ay eb].
  cbn [fst snd]. cbn [Z.add binary_normalize].
  apply binary_round_nonneg.
Qed.

(** The quotient of two positive finite values, whatever their size. *)
Lemma SFdiv_finite_nonneg (mx m : positive) (ex e : Z) :
  nonneg_double
    (SFdiv prec emax (S754_finite false mx ex) (S754_finite false m e)).
Proof.
  unfold SFdiv.
  destruct (SFdiv_core_binary prec emax (Zpos mx) ex (Zpos m) e)
    as [[q e'] l] eqn:Ecore.
  cbn [xorb]. apply round_nonneg.
  unfold SFdiv_core_binary in Ecore.
  match type of Ecore with
  | context [Z.div_eucl ?n (Zpos m)] => set (m' := n) in *
  end.
  assert (Hm' : 0 <= m').
  { unfold m'.
    match goal with
    | |- 0 <= match ?s with _ => _ end => destruct s
    end; [lia | apply Z.shiftl_nonneg; lia | lia]. }
  pose proof (Z_div_mod m' (Zpos m) ltac:(lia)) as Hdm.
  destruct (Z.div_eucl m' (Zpos m)) as [q0 r0].
  injection Ecore as <- _ _. destruct Hdm as [Heq Hr0].
  destruct (Z.neg_nonneg_cases q0) as [Hneg|Hpos]; [|exact Hpos].
  exfalso.
  assert (Zpos m * q0 <= Zpos m * (-1))
    by (apply Z.mul_le_mono_nonneg_l; lia).
  lia.
Qed.

(** The quotient of a non-negative double by a positive finite one. *)
Lemma SFdiv_nonneg_double (x : float) (m : positive) (e : Z) :
  nonneg_double x ->
  nonneg_double (SFdiv prec emax x (S754_finite false m e)).
Proof.
  intros Hx. apply nonneg_double_cases in Hx.
  destruct x as [[]|[]| |[] mx ex]; try contradiction;
    try (apply nonneg_double_cases; exact I).
  apply SFdiv_finite_nonneg.
Qed.

(** [a / b] on a natural number and a positive integer. *)
Lemma int_truediv_nonneg (a b : Z) :
  0 <= a -> 0 < b ->
  match int_truediv a b with
  | Ok q => below 1024 q
  | Raise e => e = OverflowError
  end.
Proof.
  intros Ha Hb. unfold int_truediv.
  replace (b =? 0) with false by (symmetry; apply Z.eqb_neq; lia).
  replace (b <? 0) with false by (symmetry; apply Z.ltb_ge; lia).
  destruct a as [|pa|pa]; [exact I| |lia].
  destruct b as [|pb|pb]; try lia.
  cbn [Z.ltb Z.compare Z.abs Z.to_pos].
  pose proof (SFdiv_finite_nonneg pa pb 0 0) as H.
  destruct (SFdiv prec emax (S754_finite false pa 0) (S754_finite false pb 0))
    as [[]|[]| |[] m e]; destruct H as [H|H];
    try contradiction; try discriminate H; try reflexivity; exact H.
Qed.

(** [float(n)] on a natural number. *)
Lemma float_of_int_nonneg (n : Z) :
  0 <= n ->
  match float_of_int n with
  | Ok f => below 1024 f
  | Raise e => e = OverflowError
  end.
Proof.
  intros Hn. unfold float_of_int.
  destruct n as [|p|p]; [exact I| |lia].
  cbn [binary_normalize].
  pose proof (binary_round_nonneg p 0) as H.
  destruct (binary_round prec emax false p 0) as [[]|[]| |[] m e];
    destruct H as [H|H];
    try contradiction; try discriminate H; try reflexivity; exact H.
Qed.

(** [int(x)] on a non-negative double. *)
Lemma int_of_float_nonneg (x : float) :
  nonneg_double x ->
  match int_of_float x with
  | Ok n => 0 <= n
  | Raise e => e = OverflowError
  end.
Proof.
  intros [H | ->]; [|reflexivity].
  destruct (int_of_float_below 1024 x H) as (n & -> & Hn). exact Hn.
Qed.

Lemma fold_fadd_nonneg (squares : list float) :
  Forall nonneg_double squares ->
  forall s, nonneg_double s -> nonneg_double (fold_left fadd squares s).
Proof.
  intros H. induction H as [|x squares Hx _ IH]; intros s Hs; [exact Hs|].
  cbn [fold_left]. apply IH. apply fadd_nonneg; assumption.
Qed.

(** ** The quality index *)

Lemma Zdigits2_mono (a b : Z) : 0 <= a <= b -> Zdigits2 a <= Zdigits2 b.
Proof.
  intros H. apply Zdigits2_le_iff; try lia.
  - apply Zdigits2_nonneg.
  - pose proof (Zdigits2_upper b ltac:(lia)). lia.
Qed.

Lemma Zdigits2_pos (a : Z) : 0 < a -> 1 <= Zdigits2 a.
Proof. destruct a; simpl; lia. Qed.

Lemma int_of_float_floor (k : Z) (x : float) :
  below k x -> int_of_float x = Ok (Qfloor (float_value x)).
Proof.
  destruct x as [[]|[]| |[] m e]; try contradiction; intros _.
  - reflexivity.
  - cbn [int_of_float float_value]. f_equal.
    destruct e as [|p|p].
    + rewrite Z.shiftl_0_r, Z.pow_0_r, Z.mul_1_r. symmetry. apply Qfloor_Z.
    + rewrite Z.shiftl_mul_pow2 by lia. symmetry. apply Qfloor_Z.
    + rewrite Z.shiftr_div_pow2 by lia. unfold Qfloor.
      rewrite Pos2Z.inj_pow. reflexivity.
Qed.

Lemma float_value_nonneg (k : Z) (x : float) :
  below k x -> 0 <= Qfloor (float_value x).
Proof.
  intros H. destruct (int_of_float_below k x H) as (n & Hn & Hn0).
  rewrite (int_of_float_floor k x H) in Hn. injection Hn as ->. exact Hn0.
Qed.

Lemma float_of_int_fifty : float_of_int 50 = Ok f_fifty.
Proof. reflexivity. Qed.

Lemma below_fifty : below 6 f_fifty.
Proof. simpl. lia. Qed.

Lemma below_half : below 0 f_half.
Proof. simpl. lia. Qed.

(** The double the index is truncated from. *)
Lemma quality_index_value (d : program_data) (k : Z) :
  0 <= total_tests d -> 0 <= passed d -> 
  (0 < total_tests d ->
   Zdigits2 (passed d) - Zdigits2 (total_tests d) + 1 <= k) ->
  0 <= k <= 1000 ->
  0 <= coverage d < 2 ^ 1000 ->
  exists x fc,
    below 1010 x /\
    float_of_int (coverage d) = Ok fc /\
    Metrics.calculate_quality_index d
      = Ok (Z.min 100 (Qfloor (float_value x))) /\
    (0 < total_tests d ->
     exists q, int_truediv (passed d) (total_tests d) = Ok q /\
               x = fadd (fmul q f_fifty) (fmul fc f_half)) /\
    (total_tests d = 0 -> x = fadd (S754_zero false) (fmul fc f_half)).
Proof.
  intros Ht Hp Hd Hk Hc.
  destruct (float_of_int_below (coverage d) 1000 Hc ltac:(lia))
    as (fc & Hfc & Bfc).
  pose proof (fmul_below 1001 0 fc f_half Bfc below_half
                ltac:(lia) ltac:(lia) ltac:(lia)) as Bcs.
  apply (below_weaken _ 1002) in Bcs; [|lia].
  unfold Metrics.calculate_quality_index.
  destruct (0 <? total_tests d) eqn:Et.
  - apply Z.ltb_lt in Et.
    destruct (int_truediv_below (passed d) (total_tests d) k Hp Et
                (Hd Et) ltac:(lia)) as (q & Hq & Bq).
    pose proof (fmul_below (k + 1) 6 q f_fifty Bq below_fifty
                  ltac:(lia) ltac:(lia) ltac:(lia)) as Bpr.
    apply (below_weaken _ 1008) in Bpr; [|lia].
    pose proof (fadd_below 1008 1002 _ _ Bpr Bcs ltac:(lia) ltac:(lia)) as Bx.
    apply (below_weaken _ 1010) in Bx; [|lia].
    exists (fadd (fmul q f_fifty) (fmul fc f_half)), fc.
    split; [exact Bx|]. split; [exact Hfc|]. split.
    + unfold truediv, mul, add, arith, int. rewrite Hq. cbn [bind to_float].
      rewrite float_of_int_fifty, Hfc. cbn [bind to_float].
      rewrite (int_of_float_floor 1010 _ Bx). reflexivity.
    + split; [|lia]. intros _. exists q. split; [exact Hq | reflexivity].
  - apply Z.ltb_ge in Et.
    assert (Bz : below 0 (S754_zero false)) by exact I.
    pose proof (fadd_below 0 1002 _ _ Bz Bcs ltac:(lia) ltac:(lia)) as Bx.
    apply (below_weaken _ 1010) in Bx; [|lia].
    exists (fadd (S754_zero false) (fmul fc f_half)), fc.
    split; [exact Bx|]. split; [exact Hfc|]. split.
    + unfold mul, add, arith, int. cbn [bind to_float].
      rewrite Hfc. cbn [bind to_float].
      change (float_of_int 0) with (@Ok float (S754_zero false)).
      cbn [bind to_float].
      rewrite (int_of_float_floor 1010 _ Bx). reflexivity.
    + split; [lia | reflexivity].
Qed.

(** The index of any subject with non-negative counters. *)
Lemma quality_index_outcome (d : program_data) :
  0 <= total_tests d -> 0 <= passed d -> 0 <= coverage d ->
  match Metrics.calculate_quality_index d with
  | Ok n => 0 <= n <= 100
  | Raise e => e = OverflowError
  end.
Proof.
  intros Ht Hp Hc. unfold Metrics.calculate_quality_index.
  assert (Hrate :
    match (if 0 <? total_tests d
           then q <- truediv (Int (passed d)) (Int (total_tests d)) ;;
                mul q (Int 50)
           else Ok (Int 0)) with
    | Ok (Float x) => nonneg_double x
    | Ok (Int n) => n = 0
    | Raise e => e = OverflowError
    end).
  { destruct (0 <? total_tests d) eqn:Et; [|reflexivity].
    apply Z.ltb_lt in Et. unfold truediv.
    pose proof (int_truediv_nonneg (passed d) (total_tests d) Hp Et) as Hq.
    destruct (int_truediv (passed d) (total_tests d)) as [q|e];
      [|exact Hq].
    cbn [bind]. unfold mul, arith. cbn [to_float bind].
    rewrite float_of_int_fifty. cbn [bind].
    apply (fmul_nonneg 1024 6 q f_fifty Hq below_fifty). }
  destruct (if 0 <? total_tests d
            then q <- truediv (Int (passed d)) (Int (total_tests d)) ;;
                 mul q (Int 50)
            else Ok (Int 0)) as [pass_rate|e]; [|exact Hrate].
  cbn [bind]. unfold mul at 1. unfold arith. cbn [to_float].
  pose proof (float_of_int_nonneg (coverage d) Hc) as Hfc.
  destruct (float_of_int (coverage d)) as [fc|e]; [|exact Hfc].
  cbn [bind].
  pose proof (fmul_nonneg 1024 0 fc f_half Hfc below_half) as Hcs.
  assert (Hsum : exists x,
            add pass_rate (Float (fmul fc f_half)) = Ok (Float x) /\
            nonneg_double x).
  { destruct pass_rate as [n|x].
    - subst n. eexists. split; [reflexivity|].
      apply fadd_nonneg; [left; exact I | exact Hcs].
    - eexists. split; [reflexivity|].
      apply fadd_nonneg; assumption. }
  destruct Hsum as (x & -> & Hx). cbn [bind int].
  pose proof (int_of_float_nonneg x Hx) as Hn.
  destruct (int_of_float x) as [n|e]; [|exact Hn].
  cbn [bind]. lia.
Qed.

(** C10: for all non-negative counters, whatever the relation of [passed]
    to [total_tests] and of [coverage] to 100, every quality index that is
    computed lies in [0, 100].  The only other outcome is the
    OverflowError of a quotient or a coverage beyond the range of doubles,
    and the index is computed whenever [passed] and [coverage] are below
    [2 ^ 1000]. *)
Theorem quality_index_bounded (d : program_data) :
  0 <= total_tests d -> 0 <= passed d -> 0 <= coverage d ->
  (forall n, Metrics.calculate_quality_index d = Ok n -> 0 <= n <= 100) /\
  (forall e, Metrics.calculate_quality_index d = Raise e ->
             e = OverflowError) /\
  (passed d < 2 ^ 1000 -> coverage d < 2 ^ 1000 ->
   exists n, Metrics.calculate_quality_index d = Ok n /\ 0 <= n <= 100).
Proof.
  intros Ht Hp Hc.
  pose proof (quality_index_outcome d Ht Hp Hc) as Hout.
  split; [|split].
  - intros n Hn. rewrite Hn in Hout. exact Hout.
  - intros e He. rewrite He in Hout. exact Hout.
  - intros Hp' Hc'.
    destruct (quality_index_value d 1000 Ht ltac:(lia))
      as (x & fc & Bx & _ & Hq & _); try lia.
    + intros Hpos.
      assert (Zdigits2 (passed d) <= 1000) by (apply Zdigits2_le_iff; lia).
      pose proof (Zdigits2_pos (total_tests d) Hpos). lia.
    + eexists. split; [exact Hq|].
      pose proof (float_value_nonneg 1010 x Bx). lia.
Qed.

Lemma quality_index_bounded_witness :
  exists n,
    Metrics.calculate_quality_index (subject 3 7 250) = Ok n /\ 0 <= n <= 100.
Proof.
  apply (quality_index_bounded (subject 3 7 250)); simpl;
    first [lia | reflexivity].
Defined.

(** Counters far beyond what a run can produce: with [2 ^ 1010] tests
    passed out of one the index is 100, with [2 ^ 1024] passed out of
    [2 ^ 1024] it is 50, and without tests [passed] is not even read. *)
Lemma quality_index_large :
  Metrics.calculate_quality_index (subject 1 (2 ^ 1010) 0) = Ok 100 /\
  Metrics.calculate_quality_index (subject (2 ^ 1024) (2 ^ 1024) 0) = Ok 50 /\
  Metrics.calculate_quality_index (subject 0 (2 ^ 5000) 60) = Ok 30.
Proof. vm_compute. repeat split. Qed.

(** A [coverage] beyond the range of doubles: no index is computed, the
    conversion raises OverflowError. *)
Lemma quality_index_overflow :
  0 <= total_tests (subject 1 0 (2 ^ 1024)) /\
  0 <= passed (subject 1 0 (2 ^ 1024)) /\
  0 <= coverage (subject 1 0 (2 ^ 1024)) /\
  Metrics.calculate_quality_index (subject 1 0 (2 ^ 1024))
    = Raise OverflowError.
Proof.
  split; [simpl; lia|]. split; [simpl; lia|].
  split; [vm_compute; discriminate|]. vm_compute. reflexivity.
Qed.

(** C1, as the code has it: for [0 < total_tests], [passed] in
    [0, total_tests] and [coverage] in [0, 100], the quality index is
    [min(100, floor(x))] where [x] is [passed / total_tests * 50 +
    coverage * 0.5] evaluated in doubles, each operation rounded to
    nearest; it lies in [0, 100]. *)
Theorem quality_index_formula (d : program_data) :
  0 < total_tests d ->
  0 <= passed d <= total_tests d ->
  0 <= coverage d <= 100 ->
  exists q fc n,
    int_truediv (passed d) (total_tests d) = Ok q /\
    float_of_int (coverage d) = Ok fc /\
    n = Z.min 100
          (Qfloor (float_value (fadd (fmul q f_fifty) (fmul fc f_half)))) /\
    Metrics.calculate_quality_index d = Ok n /\
    0 <= n <= 100.
Proof.
  intros Ht Hp Hc.
  assert (H100 : 100 < 2 ^ 1000) by reflexivity.
  destruct (quality_index_value d 1 ltac:(lia) ltac:(lia))
    as (x & fc & Bx & Hfc & Hq & Hx & _); try lia.
  - intros _. pose proof (Zdigits2_mono (passed d) (total_tests d) Hp). lia.
  - destruct (Hx Ht) as (q & Hdiv & ->).
    exists q, fc. eexists. repeat split; try eassumption; try reflexivity.
    + pose proof (float_value_nonneg 1010 _ Bx). lia.
    + lia.
Qed.

Lemma quality_index_formula_witness :
  exists q fc n,
    int_truediv 8 10 = Ok q /\
    float_of_int 85 = Ok fc /\
    n = Z.min 100
          (Qfloor (float_value (fadd (fmul q f_fifty) (fmul fc f_half)))) /\
    Metrics.calculate_quality_index (subject 10 8 85) = Ok n /\
    0 <= n <= 100.
Proof.
  apply (quality_index_formula (subject 10 8 85)); simpl; lia.
Defined.

(** The example of the specification: 10 tests, 8 passed, coverage 85. *)
Lemma quality_index_example :
  Metrics.calculate_quality_index (subject 10 8 85) = Ok 82 /\
  exact_quality_index (subject 10 8 85) = 82.
Proof. vm_compute. split; reflexivity. Qed.

(** In doubles 29 / 50 * 50 falls just below 29, so the index of 29
    passed tests out of 50 is 28, one less than in exact arithmetic. *)
Lemma quality_index_rounds_down :
  0 < total_tests (subject 50 29 0) /\
  0 <= passed (subject 50 29 0) <= total_tests (subject 50 29 0) /\
  0 <= coverage (subject 50 29 0) <= 100 /\
  Metrics.calculate_quality_index (subject 50 29 0) = Ok 28 /\
  exact_quality_index (subject 50 29 0) = 29.
Proof. vm_compute. repeat split; discriminate. Qed.

(** ** Subjects without tests *)

Lemma Z_range_forallb (f : Z -> bool) (n : nat) :
  forallb f (map Z.of_nat (seq 0 n)) = true ->
  forall c, 0 <= c < Z.of_nat n -> f c = true.
Proof.
  intros H c Hc. rewrite forallb_forall in H. apply H.
  apply in_map_iff. exists (Z.to_nat c). split; [lia|].
  apply in_seq. lia.
Qed.

(** ** Lower bounds *)

Lemma Zdigits2_ge (m k : Z) : 0 <= k -> 2 ^ k <= m -> k + 1 <= Zdigits2 m.
Proof.
  intros Hk Hm.
  assert (0 < 2 ^ k) by (apply Z.pow_pos_nonneg; lia).
  destruct (Z_lt_le_dec (Zdigits2 m) (k + 1)) as [Hlt|]; [|assumption].
  assert (Zdigits2 m <= k) by lia.
  apply Zdigits2_le_iff in H0; lia.
Qed.

Lemma div_pow2_ge (m d j : Z) :
  2 ^ (d - 1) <= m -> 0 <= j < d -> 2 ^ (d - 1 - j) <= m / 2 ^ j.
Proof.
  intros Hm Hj.
  assert (0 < 2 ^ j) by (apply Z.pow_pos_nonneg; lia).
  apply Z.div_le_lower_bound; [assumption|].
  rewrite <- Z.pow_add_r by lia.
  replace (j + (d - 1 - j)) with (d - 1) by lia. exact Hm.
Qed.

Lemma shr_fexp_digits (m e : Z) (l : location) :
  0 < m -> -1074 <= Zdigits2 m + e - 53 ->
  0 < shr_m (fst (shr_fexp prec emax m e l)) /\
  Zdigits2 m + e
  <= Zdigits2 (shr_m (fst (shr_fexp prec emax m e l)))
     + snd (shr_fexp prec emax m e l).
Proof.
  intros Hm Hno.
  destruct (shr_fexp_spec m e l ltac:(lia)) as [He1 Hm1].
  destruct (shr_fexp prec emax m e l) as [mrs1 e1]. cbn [fst snd] in *.
  assert (Hfe : fexp prec emax (Zdigits2 m + e)
                = Z.max (Zdigits2 m + e - 53) (-1074)) by reflexivity.
  pose proof (Zdigits2_pos m Hm) as Hd.
  pose proof (Zdigits2_lower m Hm) as Hlo.
  assert (Hj : 0 <= e1 - e < Zdigits2 m) by lia.
  pose proof (div_pow2_ge m (Zdigits2 m) (e1 - e) Hlo Hj) as Hge.
  rewrite <- Hm1 in Hge.
  assert (0 < 2 ^ (Zdigits2 m - 1 - (e1 - e)))
    by (apply Z.pow_pos_nonneg; lia).
  split; [lia|].
  pose proof (Zdigits2_ge (shr_m mrs1) (Zdigits2 m - 1 - (e1 - e))
                ltac:(lia) Hge). lia.
Qed.

Lemma round_above (m e k : Z) (l : location) :
  0 < m -> k <= Zdigits2 m + e -> -1021 <= k ->
  match binary_round_aux prec emax false m e l with
  | S754_finite false m' e' => k <= Zpos (digits2_pos m') + e'
  | S754_infinity false => True
  | _ => False
  end.
Proof.
  intros Hm Hk Hk'. unfold binary_round_aux.
  destruct (shr_fexp_digits m e l Hm ltac:(lia)) as [Hm1 Hd1].
  destruct (shr_fexp prec emax m e l) as [mrs1 e1]. cbn [fst snd] in *.
  set (m1 := shr_m mrs1) in *.
  set (m2 := round_nearest_even m1 (loc_of_shr_record mrs1)).
  pose proof (round_nearest_even_range m1 (loc_of_shr_record mrs1)) as Hr.
  fold m2 in Hr.
  assert (Hm2 : 0 < m2) by lia.
  assert (Hd2 : Zdigits2 m1 <= Zdigits2 m2) by (apply Zdigits2_mono; lia).
  destruct (shr_fexp_digits m2 e1 loc_Exact Hm2 ltac:(lia)) as [Hm3 Hd3].
  destruct (shr_fexp prec emax m2 e1 loc_Exact) as [mrs2 e2].
  cbn [fst snd] in *.
  destruct (shr_m mrs2) as [|p|p]; try lia.
  simpl Zdigits2 in Hd3.
  destruct (e2 <=? emax - prec); [lia | exact I].
Qed.

Lemma float_of_int_above (n k : Z) :
  1 <= k -> 2 ^ (k - 1) <= n < 2 ^ 1000 ->
  exists f, float_of_int n = Ok f /\ below 1001 f /\ above k f.
Proof.
  intros Hk Hn.
  assert (0 < 2 ^ (k - 1)) by (apply Z.pow_pos_nonneg; lia).
  destruct (float_of_int_below n 1000 ltac:(lia) ltac:(lia)) as (f & Hf & Bf).
  exists f. split; [exact Hf|]. split; [exact Bf|].
  unfold float_of_int in Hf.
  destruct n as [|m|m]; try lia. cbn [binary_normalize] in Hf.
  pose proof (Zdigits2_ge (Zpos m) (k - 1) ltac:(lia) ltac:(lia)) as Hd.
  simpl Zdigits2 in Hd.
  unfold binary_round in Hf.
  destruct (shl_align_spec m 0 (fexp prec emax (Zpos (digits2_pos m) + 0)))
    as [Hs Hfz].
  destruct (shl_align m 0 (fexp prec emax (Zpos (digits2_pos m) + 0)))
    as [mz ez]. cbn [fst snd] in Hs, Hfz.
  assert (Hdz : Zdigits2 (Zpos mz) + ez = Zpos (digits2_pos m)).
  { rewrite Hfz, Zdigits2_mul_pow2 by lia. simpl Zdigits2. lia. }
  pose proof (round_above (Zpos mz) ez k loc_Exact ltac:(lia) ltac:(lia)
                ltac:(lia)) as Ha.
  destruct (binary_round_aux prec emax false (Zpos mz) ez loc_Exact)
    as [[]|[]| |[] m' e']; try contradiction; try discriminate Hf;
    injection Hf as <-; exact Ha.
Qed.

Lemma fmul_above (a b : Z) (x y : float) :
  above a x -> above b y -> -1020 <= a + b ->
  match fmul x y with
  | S754_finite false m e => a + b - 1 <= Zpos (digits2_pos m) + e
  | S754_infinity false => True
  | _ => False
  end.
Proof.
  intros Hx Hy Hab.
  destruct x as [[]|[]| |[] mx ex]; try contradiction.
  destruct y as [[]|[]| |[] my ey]; try contradiction.
  cbn [above] in Hx, Hy. unfold fmul, SFmul. cbn [xorb].
  apply round_above; try lia.
  pose proof (Zdigits2_lower (Zpos mx) ltac:(lia)) as Hlx.
  pose proof (Zdigits2_lower (Zpos my) ltac:(lia)) as Hly.
  simpl Zdigits2 in Hlx, Hly.
  set (dx := Zpos (digits2_pos mx)) in *. set (dy := Zpos (digits2_pos my)) in *.
  assert (Hdx : 1 <= dx) by (unfold dx; lia).
  assert (Hdy : 1 <= dy) by (unfold dy; lia).
  assert (Hp : 2 ^ (dx + dy - 2) <= Zpos (mx * my)).
  { replace (dx + dy - 2) with ((dx - 1) + (dy - 1)) by lia.
    rewrite Z.pow_add_r by lia. rewrite Pos2Z.inj_mul.
    assert (0 < 2 ^ (dx - 1)) by (apply Z.pow_pos_nonneg; lia).
    assert (0 < 2 ^ (dy - 1)) by (apply Z.pow_pos_nonneg; lia).
    nia. }
  pose proof (Zdigits2_ge (Zpos (mx * my)) (dx + dy - 2) ltac:(lia) Hp).
  lia.
Qed.

Lemma floor_above (k : Z) (x : float) :
  above k x -> 1 <= k -> 2 ^ (k - 1) <= Qfloor (float_value x).
Proof.
  destruct x as [[]|[]| |[] m e]; try contradiction.
  cbn [above float_value]. intros Ha Hk.
  pose proof (Zdigits2_lower (Zpos m) ltac:(lia)) as Hl.
  simpl Zdigits2 in Hl. set (d := Zpos (digits2_pos m)) in *.
  assert (Hd : 1 <= d) by (unfold d; lia).
  assert (Hnn : forall e', 0 <= e' -> k <= d + e' ->
            2 ^ (k - 1) <= Qfloor (inject_Z (Zpos m * 2 ^ e'))).
  { intros e' He' Hk'. rewrite Qfloor_Z.
    apply Z.le_trans with (2 ^ (d - 1) * 2 ^ e').
    - rewrite <- Z.pow_add_r by lia. apply Z.pow_le_mono_r; lia.
    - assert (0 < 2 ^ e') by (apply Z.pow_pos_nonneg; lia). nia. }
  destruct e as [|p|p].
  - apply Hnn; lia.
  - apply Hnn; lia.
  - unfold Qfloor. rewrite Pos2Z.inj_pow.
    pose proof (div_pow2_ge (Zpos m) d (Zpos p) Hl ltac:(lia)) as Hge.
    apply Z.le_trans with (2 ^ (d - 1 - Zpos p)); [|exact Hge].
    apply Z.pow_le_mono_r; lia.
Qed.

Lemma above_half : above 0 f_half.
Proof. simpl. lia. Qed.

Lemma quality_index_no_tests (d : program_data) :
  total_tests d = 0 -> 0 <= coverage d < 2 ^ 1000 ->
  Metrics.calculate_quality_index d = Ok (Z.min 100 (coverage d / 2)).
Proof.
  intros Ht Hc.
  destruct (Z_lt_le_dec (coverage d) 256) as [Hsmall|Hlarge].
  - set (f := fun c =>
      match Metrics.calculate_quality_index (subject 0 0 c) with
      | Ok n => n =? Z.min 100 (c / 2)
      | Raise _ => false
      end).
    assert (Hall : forallb f (map Z.of_nat (seq 0 256)) = true)
      by (vm_compute; reflexivity).
    pose proof (Z_range_forallb f 256 Hall (coverage d) ltac:(lia)) as Hf.
    unfold f in Hf.
    assert (Heq : Metrics.calculate_quality_index d
                  = Metrics.calculate_quality_index
                      (subject 0 0 (coverage d))).
    { unfold Metrics.calculate_quality_index. rewrite Ht. reflexivity. }
    rewrite Heq.
    destruct (Metrics.calculate_quality_index (subject 0 0 (coverage d)));
      [|discriminate Hf].
    apply Z.eqb_eq in Hf. rewrite Hf. reflexivity.
  - destruct (float_of_int_above (coverage d) 9 ltac:(lia)
                ltac:(change (2 ^ (9 - 1)) with 256; lia))
      as (fc & Hfc & Bfc & Afc).
    pose proof (fmul_below 1001 0 fc f_half Bfc below_half
                  ltac:(lia) ltac:(lia) ltac:(lia)) as Bcs.
    pose proof (fmul_above 9 0 fc f_half Afc above_half ltac:(lia)) as Acs.
    unfold Metrics.calculate_quality_index. rewrite Ht.
    change (0 <? 0) with false. cbv iota.
    unfold mul, add, arith, int. cbn [bind to_float]. rewrite Hfc.
    cbn [bind to_float].
    change (float_of_int 0) with (@Ok float (S754_zero false)).
    cbn [bind to_float].
    destruct (fmul fc f_half) as [[]|[]| |[] m e] eqn:Ecs; try contradiction.
    assert (Hx : fadd (S754_zero false) (S754_finite false m e)
                 = S754_finite false m e) by reflexivity.
    rewrite Hx.
    rewrite (int_of_float_floor _ _ Bcs). cbn [bind].
    pose proof (floor_above 8 (S754_finite false m e) Acs ltac:(lia)) as Hfl.
    change (2 ^ (8 - 1)) with 128 in Hfl.
    pose proof (Z.div_le_lower_bound (coverage d) 2 128 ltac:(lia)
                  ltac:(lia)).
    f_equal. lia.
Qed.

(** C2, as the code has it: for a subject with [total_tests = 0], any
    [passed] and a [coverage] from 0 to below [2 ^ 1000], nothing is
    divided by zero: coverage per test and test effectiveness are 0, and
    the quality index is the coverage term alone,
    [min(100, floor(coverage / 2))], which is 0 only for a coverage of 0
    or 1. *)
Theorem zero_tests (d : program_data) :
  total_tests d = 0 -> 0 <= coverage d < 2 ^ 1000 ->
  Metrics.test_effectiveness d = Ok (Int 0) /\
  Metrics.calculate_quality_index d = Ok (Z.min 100 (coverage d / 2)) /\
  (Z.min 100 (coverage d / 2) = 0 <-> coverage d <= 1) /\
  exists a,
    Metrics.analyze_program d = Ok a /\
    Metrics.coverage_per_test a = Int 0 /\
    Metrics.test_quality_index a = Z.min 100 (coverage d / 2).
Proof.
  intros Ht Hc.
  pose proof (quality_index_no_tests d Ht Hc) as Hq.
  split; [|split; [exact Hq|split]].
  - unfold Metrics.test_effectiveness. rewrite Ht. reflexivity.
  - pose proof (Z.div_mod (coverage d) 2 ltac:(lia)).
    pose proof (Z.mod_pos_bound (coverage d) 2 ltac:(lia)). lia.
  - unfold Metrics.analyze_program. rewrite Hq, Ht. simpl.
    eexists. split; [reflexivity|]. split; reflexivity.
Qed.

Lemma zero_tests_witness :
  Metrics.test_effectiveness (subject 0 0 60) = Ok (Int 0) /\
  Metrics.calculate_quality_index (subject 0 0 60) = Ok (Z.min 100 (60 / 2)).
Proof.
  pose proof (zero_tests (subject 0 0 60) eq_refl
                ltac:(simpl; split; [lia | reflexivity])) as H.
  split; [apply H | apply H].
Defined.

(** Without tests the quality index is still half the coverage: 30 for a
    coverage of 60, not 0. *)
Lemma zero_tests_quality_not_zero :
  total_tests (subject 0 0 60) = 0 /\
  Metrics.calculate_quality_index (subject 0 0 60) = Ok 30 /\
  Metrics.calculate_quality_index (subject 0 0 60) <> Ok 0.
Proof. vm_compute. repeat split; discriminate. Qed.

(** ** Decimal numerals *)

Lemma length_string_of_uint (d : Decimal.uint) :
  String.length (NilEmpty.string_of_uint d) = Decimal.nb_digits d.
Proof. induction d; simpl; congruence. Qed.

Lemma of_uint_acc_lower (d : Decimal.uint) :
  forall acc : positive,
  Zpos acc * 10 ^ Z.of_nat (Decimal.nb_digits d) <= Zpos (Pos.of_uint_acc d acc).
Proof.
  induction d; intros acc; cbn [Decimal.nb_digits Pos.of_uint_acc];
    [simpl; lia | ..];
    rewrite Nat2Z.inj_succ, Z.pow_succ_r by lia;
    (eapply Z.le_trans; [|apply IHd]);
    rewrite Z.mul_assoc;
    (apply Z.mul_le_mono_nonneg_r; [apply Z.pow_nonneg; lia | lia]).
Qed.

Lemma of_uint_acc_upper (d : Decimal.uint) :
  forall acc : positive,
  Zpos (Pos.of_uint_acc d acc)
  < (Zpos acc + 1) * 10 ^ Z.of_nat (Decimal.nb_digits d).
Proof.
  induction d; intros acc; cbn [Decimal.nb_digits Pos.of_uint_acc];
    [simpl; lia | ..];
    rewrite Nat2Z.inj_succ, Z.pow_succ_r by lia;
    (eapply Z.lt_le_trans; [apply IHd|]);
    rewrite Z.mul_assoc;
    (apply Z.mul_le_mono_nonneg_r; [apply Z.pow_nonneg; lia | lia]).
Qed.

(** The numeral of a positive number has no leading zero: it has [k]
    digits exactly when the number is from [10 ^ (k - 1)] to below
    [10 ^ k]. *)
Lemma to_uint_digits (p : positive) :
  10 ^ (Z.of_nat (Decimal.nb_digits (Pos.to_uint p)) - 1) <= Zpos p
  < 10 ^ Z.of_nat (Decimal.nb_digits (Pos.to_uint p)).
Proof.
  pose proof (Unsigned.of_to p) as Hof.
  pose proof (Unsigned.to_of (Pos.to_uint p)) as Hnorm.
  rewrite Hof in Hnorm. cbn [N.to_uint] in Hnorm.
  pose proof (Unsigned.to_uint_nonzero p) as Hnz.
  destruct (Pos.to_uint p) as [|d|d|d|d|d|d|d|d|d|d] eqn:E;
    cbn [Pos.of_uint] in Hof; try discriminate Hof.
  1: { exfalso. unfold Decimal.unorm in Hnorm. cbn [Decimal.nzhead] in Hnorm.
    pose proof (DecimalFacts.nb_digits_nzhead d) as Hle.
    destruct (Decimal.nzhead d) eqn:En;
      [injection Hnorm as Hd; apply Hnz; rewrite <- Hd; reflexivity
      |rewrite <- Hnorm in Hle; cbn [Decimal.nb_digits] in Hle; lia ..]. }
  all: injection Hof as <-; cbn [Decimal.nb_digits];
      rewrite Nat2Z.inj_succ, Z.pow_succ_r by lia;
      replace (Z.succ (Z.of_nat (Decimal.nb_digits d)) - 1)
        with (Z.of_nat (Decimal.nb_digits d)) by lia;
      match goal with
      | |- _ <= Zpos (Pos.of_uint_acc _ ?a) < _ =>
        pose proof (of_uint_acc_lower d a); pose proof (of_uint_acc_upper d a)
      end;
      assert (0 <= 10 ^ Z.of_nat (Decimal.nb_digits d))
        by (apply Z.pow_nonneg; lia);
      lia.
Qed.

Lemma length_numeral (n : Z) (k : nat) :
  0 <= n -> (1 <= k)%nat ->
  ((String.length (NilZero.string_of_int (Z.to_int n)) <= k)%nat
   <-> n < 10 ^ Z.of_nat k).
Proof.
  intros Hn Hk. destruct n as [|p|p]; [| |lia].
  - simpl. split; intros _; [apply Z.pow_pos_nonneg|]; lia.
  - cbn [Z.to_int NilZero.string_of_int].
    assert (Hs : NilZero.string_of_uint (Pos.to_uint p)
                 = NilEmpty.string_of_uint (Pos.to_uint p)).
    { pose proof (Unsigned.to_uint_nonnil p) as Hnn.
      unfold NilZero.string_of_uint.
      destruct (Pos.to_uint p); try reflexivity. contradiction. }
    rewrite Hs, length_string_of_uint.
    pose proof (to_uint_digits p) as [Hlo Hhi].
    set (j := Decimal.nb_digits (Pos.to_uint p)) in *.
    split.
    + intros Hj. apply Z.lt_le_trans with (10 ^ Z.of_nat j); [exact Hhi|].
      apply Z.pow_le_mono_r; lia.
    + intros Hlt. destruct (Nat.le_gt_cases j k) as [H|H]; [exact H|].
      exfalso.
      assert (10 ^ Z.of_nat k <= 10 ^ (Z.of_nat j - 1))
        by (apply Z.pow_le_mono_r; lia).
      lia.
Qed.

(** [str] prints every integer of absolute value below [10 ^ 4300] and
    refuses the others. *)
Lemma str_returns (n : Z) :
  Z.abs n < numeral_bound -> str n = Ok (NilZero.string_of_int (Z.to_int n)).
Proof.
  intros Hn. unfold str. cbv zeta.
  replace (max_str_digits <? _)%nat with false; [reflexivity|].
  symmetry. apply Nat.ltb_ge.
  apply (length_numeral (Z.abs n) max_str_digits);
    [lia | unfold max_str_digits; lia | exact Hn].
Qed.

Lemma str_raises (n : Z) :
  numeral_bound <= Z.abs n -> str n = Raise ValueError.
Proof.
  intros Hn. unfold str. cbv zeta.
  replace (max_str_digits <? _)%nat with true; [reflexivity|].
  symmetry. apply Nat.ltb_lt.
  destruct (Nat.le_gt_cases
              (String.length (NilZero.string_of_int (Z.to_int (Z.abs n))))
              max_str_digits) as [H|H]; [|exact H].
  apply (length_numeral (Z.abs n) max_str_digits) in H;
    [|lia | unfold max_str_digits; lia].
  unfold numeral_bound in Hn. lia.
Qed.

Lemma two_1000_numeral_bound : 2 * 2 ^ 1000 < numeral_bound.
Proof.
  unfold numeral_bound, max_str_digits.
  apply Z.lt_le_trans with (10 ^ 1001).
  - change (2 * 2 ^ 1000) with (2 ^ 1001).
    apply Z.pow_lt_mono_l; lia.
  - apply Z.pow_le_mono_r; lia.
Qed.

(** The upper estimate of [estimate_paths]. *)
Lemma estimate_paths_returns (test_count : Z) :
  0 <= test_count -> 2 * test_count < numeral_bound ->
  let upper := if test_count <? 10 then test_count * 2
               else test_count + test_count / 2 in
  test_count <= upper <= 2 * test_count /\
  Metrics.estimate_paths test_count
  = Ok (NilZero.string_of_int (Z.to_int test_count) ++ "-"
        ++ NilZero.string_of_int (Z.to_int upper))%string.
Proof.
  intros Ht Hb upper.
  assert (Hu : test_count <= upper <= 2 * test_count).
  { unfold upper. destruct (test_count <? 10); [lia|].
    pose proof (Z.div_pos test_count 2 Ht ltac:(lia)).
    pose proof (Z.mul_div_le test_count 2 ltac:(lia)). lia. }
  split; [exact Hu|].
  assert (H1 : str test_count = Ok (NilZero.string_of_int (Z.to_int test_count)))
    by (apply str_returns; lia).
  assert (H2 : str upper = Ok (NilZero.string_of_int (Z.to_int upper)))
    by (apply str_returns; lia).
  unfold Metrics.estimate_paths. fold upper.
  destruct (test_count <? 10) eqn:E; unfold upper in *; rewrite ?E in *;
    rewrite H1, H2; reflexivity.
Qed.

(** ** Coverage per test *)

Lemma round_half_even_div_nearest (n d : Z) :
  0 < d -> 2 * Z.abs (n - round_half_even_div n d * d) <= d.
Proof.
  intros Hd. unfold round_half_even_div.
  pose proof (Z.div_mod n d ltac:(lia)) as Hdm.
  pose proof (Z.mod_pos_bound n d Hd) as Hr.
  destruct (Z.compare_spec (2 * (n mod d)) d) as [E|E|E];
    try destruct (Z.even (n / d)); nia.
Qed.

Lemma round_half_even_div_range (n d : Z) :
  0 <= n -> 0 < d -> 0 <= round_half_even_div n d <= n / d + 1.
Proof.
  intros Hn Hd. unfold round_half_even_div.
  pose proof (Z.div_pos n d Hn Hd).
  destruct (2 * (n mod d) ?= d); try destruct (Z.even (n / d)); lia.
Qed.

Lemma float_round_hundredths (k : Z) (x : float) :
  below k x ->
  float_round x 2
  = if hundredths x =? 0 then Ok (S754_zero false)
    else int_truediv (hundredths x) 100.
Proof.
  destruct x as [[]|[]| |[] m e]; try contradiction; intros _.
  - reflexivity.
  - unfold float_round, hundredths.
    change (10 ^ 2) with 100.
    destruct e; reflexivity.
Qed.

Lemma hundredths_range (k : Z) (x : float) :
  below k x -> 0 <= k ->
  0 <= hundredths x < 2 ^ (k + 8).
Proof.
  destruct x as [[]|[]| |[] m e]; try contradiction.
  - intros _ Hk. simpl. split; [lia | apply Z.pow_pos_nonneg; lia].
  - intros [Hm He] Hk.
    pose proof (Zdigits2_upper (Zpos m) ltac:(lia)) as Hu.
    simpl Zdigits2 in Hu.
    set (dm := Zpos (digits2_pos m)) in *.
    assert (H128 : 2 ^ 7 = 128) by reflexivity.
    assert (Hnn : forall e', 0 <= e' -> dm + e' <= k ->
              0 <= Zpos m * 2 ^ e' * 100 < 2 ^ (k + 8)).
    { intros e' He' Hk'.
      assert (0 < 2 ^ e') by (apply Z.pow_pos_nonneg; lia).
      split; [nia|].
      apply Z.lt_le_trans with (2 ^ dm * 2 ^ e' * 2 ^ 7); [nia|].
      rewrite <- !Z.pow_add_r by lia. apply Z.pow_le_mono_r; lia. }
    destruct e as [|p|p]; cbn [hundredths].
    + apply Hnn; lia.
    + apply Hnn; lia.
    + assert (H2p : 0 < 2 ^ Zpos p) by (apply Z.pow_pos_nonneg; lia).
      pose proof (round_half_even_div_range (Zpos m * 100) (2 ^ Zpos p)
                    ltac:(lia) H2p) as Hr.
      split; [lia|].
      assert (Hlt : Zpos m * 100 / 2 ^ Zpos p
                    < 2 ^ Z.max (dm + 7 - Zpos p) 0).
      { apply div_pow2_lt; try lia.
        split; [lia|]. rewrite Z.pow_add_r by lia. lia. }
      apply Z.le_lt_trans with (Zpos m * 100 / 2 ^ Zpos p + 1); [lia|].
      apply Z.lt_le_trans with (2 * 2 ^ Z.max (dm + 7 - Zpos p) 0).
      * assert (0 < 2 ^ Z.max (dm + 7 - Zpos p) 0)
          by (apply Z.pow_pos_nonneg; lia). lia.
      * rewrite <- Z.pow_succ_r by lia. apply Z.pow_le_mono_r; lia.
Qed.

Lemma float_round_below (k : Z) (x : float) :
  below k x -> 0 <= k <= 1010 ->
  exists r, float_round x 2 = Ok r /\ below (k + 3) r.
Proof.
  intros Hx Hk. rewrite (float_round_hundredths k x Hx).
  pose proof (hundredths_range k x Hx ltac:(lia)) as Hh.
  destruct (hundredths x =? 0) eqn:E.
  - exists (S754_zero false). split; [reflexivity | exact I].
  - apply Z.eqb_neq in E.
    assert (Hd : Zdigits2 (hundredths x) <= k + 8)
      by (apply Zdigits2_le_iff; lia).
    replace (k + 3) with (k + 2 + 1) by lia.
    apply (int_truediv_below (hundredths x) 100 (k + 2)); try lia.
    change (Zdigits2 100) with 7. lia.
Qed.

Lemma hundredths_nearest (k : Z) (x : float) :
  below k x -> nearest_hundredth (float_value x) (hundredths x).
Proof.
  destruct x as [[]|[]| |[] m e]; try contradiction; intros _.
  - unfold nearest_hundredth. simpl. discriminate.
  - unfold nearest_hundredth, float_value, hundredths.
    assert (Hint : forall a : Z,
      (Qabs (inject_Z a * inject_Z 100 - inject_Z (a * 100)) <= 1 # 2)%Q).
    { intros a.
      unfold Qle, Qabs, Qminus, Qplus, Qmult, Qopp, inject_Z. cbn [Qnum Qden].
      rewrite !Pos.mul_1_r. lia. }
    destruct e as [|p|p]; try apply Hint.
    unfold Qle, Qabs, Qminus, Qplus, Qmult, Qopp, inject_Z. cbn [Qnum Qden].
    rewrite !Pos.mul_1_r, Pos2Z.inj_pow.
    assert (H2p : 0 < 2 ^ Zpos p) by (apply Z.pow_pos_nonneg; lia).
    pose proof (round_half_even_div_nearest (Zpos m * 100) (2 ^ Zpos p) H2p).
    change (Z.pos 2) with 2. lia.
Qed.

(** C8, as the code has it: for [0 < total_tests] (and the three counters
    below [2 ^ 1000]) the coverage per test is not the exact quotient but
    the quotient rounded to two decimals: the double nearest to [n / 100],
    where [n] is the integer nearest to 100 times the double quotient
    [coverage / total_tests]. *)
Theorem coverage_per_test_rounded (d : program_data) :
  0 < total_tests d < 2 ^ 1000 ->
  0 <= passed d < 2 ^ 1000 ->
  0 <= coverage d < 2 ^ 1000 ->
  exists a q r n,
    Metrics.analyze_program d = Ok a /\
    int_truediv (coverage d) (total_tests d) = Ok q /\
    nearest_hundredth (float_value q) n /\
    (if n =? 0 then r = S754_zero false else int_truediv n 100 = Ok r) /\
    Metrics.coverage_per_test a = Float r.
Proof.
  intros [Ht Ht'] Hp Hc.
  assert (Hdc : Zdigits2 (coverage d) - Zdigits2 (total_tests d) + 1 <= 1000).
  { assert (Zdigits2 (coverage d) <= 1000) by (apply Zdigits2_le_iff; lia).
    pose proof (Zdigits2_pos (total_tests d) Ht). lia. }
  destruct (int_truediv_below (coverage d) (total_tests d) 1000
              ltac:(lia) Ht Hdc ltac:(lia)) as (q & Hq & Bq).
  destruct (float_round_below 1001 q Bq ltac:(lia)) as (r & Hr & Br).
  destruct (quality_index_value d 1000 ltac:(lia) ltac:(lia))
    as (x & fc & _ & _ & Hqi & _); try lia.
  { intros _.
    assert (Zdigits2 (passed d) <= 1000) by (apply Zdigits2_le_iff; lia).
    pose proof (Zdigits2_pos (total_tests d) Ht). lia. }
  pose proof two_1000_numeral_bound as Hbound.
  pose proof (estimate_paths_returns (total_tests d) ltac:(lia) ltac:(lia))
    as Hpaths.
  cbv zeta in Hpaths. destruct Hpaths as [_ Hpaths].
  assert (Ha : exists a, Metrics.analyze_program d = Ok a /\
                         Metrics.coverage_per_test a = Float r).
  { unfold Metrics.analyze_program.
    replace (0 <? total_tests d) with true by (symmetry; apply Z.ltb_lt; lia).
    unfold truediv. rewrite Hq. cbn [bind round]. rewrite Hr. cbn [bind].
    rewrite Hpaths. cbn [bind].
    rewrite Hqi. cbn [bind].
    destruct (if total_tests d <=? 5 then (Metrics.LOW, 1)
              else if total_tests d <=? 20 then (Metrics.MEDIUM, 2)
              else (Metrics.HIGH, 3)) as [level score].
    eexists. split; reflexivity. }
  destruct Ha as (a & Ha & Hcpt).
  exists a, q, r, (hundredths q).
  split; [exact Ha|]. split; [exact Hq|].
  split; [exact (hundredths_nearest 1001 q Bq)|]. split; [|exact Hcpt].
  rewrite (float_round_hundredths 1001 q Bq) in Hr.
  destruct (hundredths q =? 0); [injection Hr as <-; reflexivity | exact Hr].
Qed.

Lemma coverage_per_test_rounded_witness :
  exists a q r n,
    Metrics.analyze_program (subject 10 8 85) = Ok a /\
    int_truediv 85 10 = Ok q /\
    nearest_hundredth (float_value q) n /\
    (if n =? 0 then r = S754_zero false else int_truediv n 100 = Ok r) /\
    Metrics.coverage_per_test a = Float r.
Proof.
  apply (coverage_per_test_rounded (subject 10 8 85)); simpl;
    (split; [lia | reflexivity]).
Defined.

(** A coverage of 100 over 3 tests: the quotient is the double nearest to
    100/3, the coverage per test the double nearest to 33.33. *)
Lemma coverage_per_test_not_exact :
  0 < total_tests (subject 3 3 100) /\
  int_truediv 100 3 = Ok (S754_finite false 4691249611844267 (-47)) /\
  option_map Metrics.coverage_per_test
    (returned (Metrics.analyze_program (subject 3 3 100)))
  = Some (Float (S754_finite false 4690780486883082 (-47))) /\
  int_truediv 3333 100 = Ok (S754_finite false 4690780486883082 (-47)).
Proof. vm_compute. repeat split; reflexivity. Qed.

(** ** Trends *)

Section StdDevFold.

Variable libm_pow : float -> float -> float.

Lemma float_of_int_two : float_of_int 2 = Ok f_two.
Proof. reflexivity. Qed.

Lemma std_dev_fold (mean : float) (values : list Z) :
  forall s : float,
  fold_left
    (fun acc x =>
       s <- acc ;;
       d <- sub (Int x) (Float mean) ;;
       sq <- pow libm_pow d (Int 2) ;;
       add s sq)
    values (Ok (Float s))
  = (squares <- squared_deviations libm_pow mean values ;;
     Ok (Float (fold_left fadd squares s))).
Proof.
  unfold squared_deviations.
  induction values as [|x values IH]; intros s; [reflexivity|].
  cbn [fold_left mapM bind].
  unfold sub at 2, arith. cbn [to_float].
  destruct (float_of_int x) as [fx|e]; cbn [bind].
  - unfold pow at 2. cbn [to_float bind]. rewrite float_of_int_two. cbn [bind].
    destruct (float_pow libm_pow (fsub fx mean) f_two) as [sq|e]; cbn [bind].
    + unfold add at 2, arith. cbn [to_float bind]. rewrite IH.
      destruct (mapM _ values); reflexivity.
    + clear IH. induction values as [|y values IH]; [reflexivity | exact IH].
  - clear IH. induction values as [|y values IH]; [reflexivity | exact IH].
Qed.

Lemma calculate_std_dev_population (values : list Z) :
  values <> [] ->
  Metrics.calculate_std_dev libm_pow values
  = (r <- population_std_dev libm_pow values ;; Ok (Float r)).
Proof.
  intros Hne. unfold Metrics.calculate_std_dev, population_std_dev.
  destruct values as [|x values]; [contradiction Hne; reflexivity|].
  set (vs := x :: values).
  unfold truediv at 1. 
  destruct (int_truediv (sum vs) (len vs)) as [mean|e]; [|reflexivity].
  cbn [bind].
  assert (Hfold :
    fold_left
      (fun acc x0 =>
         s <- acc ;;
         d <- sub (Int x0) (Float mean) ;;
         sq <- pow libm_pow d (Int 2) ;;
         add s sq)
      vs (Ok (Int 0))
    = (squares <- squared_deviations libm_pow mean vs ;;
       Ok (Float (fold_left fadd squares (S754_zero false))))).
  { rewrite <- std_dev_fold. unfold vs. cbn [fold_left bind].
    unfold sub at 2 4, arith. cbn [to_float].
    destruct (float_of_int x) as [fx|e]; [|reflexivity]. cbn [bind].
    unfold pow at 2 4. cbn [to_float bind]. rewrite float_of_int_two.
    cbn [bind].
    destruct (float_pow libm_pow (fsub fx mean) f_two) as [sq|e];
      reflexivity. }
  rewrite Hfold.
  destruct (squared_deviations libm_pow mean vs) as [squares|e]; [|reflexivity].
  cbn [bind]. unfold truediv. cbn [to_float bind].
  destruct (float_of_int (len vs)) as [count|e]; [|reflexivity]. cbn [bind].
  destruct (float_truediv _ count) as [variance|e]; [|reflexivity]. cbn [bind].
  unfold pow. cbn [to_float bind].
  destruct (float_pow libm_pow variance f_half) as [root|e]; [|reflexivity].
  cbn [bind]. unfold round. reflexivity.
Qed.

End StdDevFold.

(** The loop of [analyze_trends] collects the consecutive deltas. *)
Lemma consecutive_deltas_indexed (l : list Z) :
  map (delta_at l) (seq 1 (List.length l - 1)) = consecutive_deltas l.
Proof.
  induction l as [|a l IH]; [reflexivity|].
  destruct l as [|b t]; [reflexivity|].
  cbn [List.length]. replace (S (S (List.length t)) - 1)%nat
    with (S (List.length t)) by lia.
  change (consecutive_deltas (a :: b :: t))
    with ((b - a) :: consecutive_deltas (b :: t)).
  cbn [seq map]. f_equal.
  rewrite <- IH. cbn [List.length].
  replace (S (List.length t) - 1)%nat with (List.length t) by lia.
  rewrite <- seq_shift, map_map. apply map_ext_in.
  intros i Hi. apply in_seq in Hi. unfold delta_at.
  destruct i as [|i]; [lia|]. cbn [nth].
  replace (S (S i) - 1)%nat with (S i) by lia.
  replace (S i - 1)%nat with i by lia. reflexivity.
Qed.

Lemma index_nth {A : Type} (l : list A) (i : nat) (default : A) :
  (i < List.length l)%nat -> index l i = Ok (nth i l default).
Proof.
  intros Hi. unfold index.
  rewrite (nth_error_nth' l default Hi). reflexivity.
Qed.

Lemma nth_map_in {A : Type} (f : A -> Z) (l : list A) (i : nat) (d : A) :
  (i < List.length l)%nat -> nth i (map f l) 0 = f (nth i l d).
Proof.
  intros Hi. rewrite (nth_indep _ 0 (f d)) by (rewrite length_map; lia).
  apply map_nth.
Qed.

Lemma trend_loop (h : list snapshot) (n : nat) :
  (n < List.length h)%nat ->
  forall acc : Metrics.deltas,
  fold_left (Metrics.trend_step h) (seq 1 n) (Ok acc)
  = Ok {| Metrics.d_coverage :=
            Metrics.d_coverage acc
            ++ map (delta_at (coverage_series h)) (seq 1 n);
          Metrics.d_quality :=
            Metrics.d_quality acc
            ++ map (delta_at (quality_series h)) (seq 1 n);
          Metrics.d_tests :=
            Metrics.d_tests acc
            ++ map (delta_at (tests_series h)) (seq 1 n) |}.
Proof.
  induction n as [|n IH]; intros Hn acc.
  - simpl. rewrite !app_nil_r. destruct acc; reflexivity.
  - rewrite seq_S, fold_left_app, IH by lia. cbn [fold_left].
    unfold Metrics.trend_step. cbn [bind].
    destruct h as [|s0 h0]; [simpl in Hn; lia|].
    set (h := s0 :: h0) in *.
    rewrite (index_nth h (1 + n - 1) s0) by lia.
    rewrite (index_nth h (1 + n) s0) by lia. cbn [bind].
    cbn [Metrics.d_coverage Metrics.d_quality Metrics.d_tests].
    rewrite !map_app, !app_assoc. cbn [map].
    unfold delta_at, coverage_series, quality_series, tests_series.
    rewrite !(nth_map_in _ h (1 + n) s0) by lia.
    rewrite !(nth_map_in _ h (1 + n - 1) s0) by lia.
    reflexivity.
Qed.

(** [analyze_trends] is absent below two snapshots and otherwise the
    summary of the consecutive deltas. *)
Lemma analyze_trends_deltas (libm_pow : float -> float -> float)
    (h : list snapshot) :
  Metrics.analyze_trends libm_pow h
  = if (List.length h <? 2)%nat then Ok None
    else t <- trend_of_deltas libm_pow
                (consecutive_deltas (coverage_series h))
                (consecutive_deltas (quality_series h))
                (consecutive_deltas (tests_series h)) ;;
         Ok (Some t).
Proof.
  unfold Metrics.analyze_trends.
  destruct (List.length h <? 2)%nat eqn:E; [reflexivity|].
  apply Nat.ltb_ge in E.
  rewrite trend_loop by lia. cbn [bind app].
  cbn [Metrics.d_coverage Metrics.d_quality Metrics.d_tests].
  assert (Hd : forall f : snapshot -> Z,
            map (delta_at (map f h)) (seq 1 (List.length h - 1))
            = consecutive_deltas (map f h)).
  { intros f. rewrite <- consecutive_deltas_indexed, length_map.
    reflexivity. }
  unfold coverage_series, quality_series, tests_series. rewrite !Hd.
  cbn [app].
  unfold trend_of_deltas.
  assert (Hne : forall l : list Z, (2 <= List.length l)%nat ->
                consecutive_deltas l <> []).
  { intros [|a [|b t]] Hl; simpl in Hl; try lia. discriminate. }
  rewrite !calculate_std_dev_population
    by (apply Hne; rewrite length_map; lia).
  set (dc := consecutive_deltas _). set (dq := consecutive_deltas _).
  set (dt := consecutive_deltas _).
  destruct (int_truediv (sum dc) (len dc)); cbn [bind]; [|reflexivity].
  destruct (int_truediv (sum dq) (len dq)); cbn [bind]; [|reflexivity].
  destruct (int_truediv (sum dt) (len dt)); cbn [bind]; [|reflexivity].
  destruct (population_std_dev libm_pow dc); cbn [bind]; [|reflexivity].
  destruct (population_std_dev libm_pow dq); cbn [bind]; [|reflexivity].
  reflexivity.
Qed.

(** ** Magnitudes of signed doubles *)

Lemma Zdigits2_abs (m : Z) : Zdigits2 (Z.abs m) = Zdigits2 m.
Proof. destruct m; reflexivity. Qed.

Lemma binary_normalize_below (m e k : Z) :
  Zdigits2 m + e <= k -> k <= 1023 ->
  below (Z.max (k + 1) (-1073)) (SFabs (binary_normalize prec emax m e false)).
Proof.
  intros Hk Hk'. destruct m as [|p|p]; cbn [binary_normalize].
  - exact I.
  - rewrite binary_round_abs. apply binary_round_below; assumption.
  - rewrite binary_round_abs. apply binary_round_below; assumption.
Qed.

Lemma float_of_int_magnitude (n k : Z) :
  Z.abs n < 2 ^ k -> 0 <= k <= 1023 ->
  exists f, float_of_int n = Ok f /\ below (k + 1) (SFabs f).
Proof.
  intros Hn Hk. unfold float_of_int.
  assert (Hd : Zdigits2 n + 0 <= k).
  { rewrite <- Zdigits2_abs, Z.add_0_r. apply Zdigits2_le_iff; lia. }
  pose proof (binary_normalize_below n 0 k Hd ltac:(lia)) as H.
  apply (below_weaken _ (k + 1)) in H; [|lia].
  destruct (binary_normalize prec emax n 0 false) as [[]|[]| |[] m' e'];
    try contradiction; eexists; split; try reflexivity; exact H.
Qed.

Lemma fsub_magnitude (a b : Z) (x y : float) :
  below a (SFabs x) -> below b (SFabs y) -> a <= 1022 -> b <= 1022 ->
  below (Z.max (Z.max a b + 2) (-1073)) (SFabs (fsub x y)).
Proof.
  intros Hx Hy Ha Hb.
  destruct x as [sx|sx| |sx mx ex]; try contradiction;
    destruct y as [sy|sy| |sy my ey]; try contradiction.
  - destruct sx, sy; exact I.
  - cbn [fsub SFsub SFabs] in *. destruct Hy. split; lia.
  - cbn [fsub SFsub SFabs] in *. destruct Hx. split; lia.
  - cbn [SFabs] in Hx, Hy. destruct Hx as [Hx1 Hx2], Hy as [Hy1 Hy2].
    unfold fsub, SFsub.
    destruct (shl_align_spec mx ex (Z.min ex ey)) as [Hsx Hfx].
    destruct (shl_align_spec my ey (Z.min ex ey)) as [Hsy Hfy].
    rewrite Hsx in Hfx. rewrite Hsy in Hfy.
    replace (Z.min ex (Z.min ex ey)) with (Z.min ex ey) in Hfx by lia.
    replace (Z.min ey (Z.min ex ey)) with (Z.min ex ey) in Hfy by lia.
    set (ez := Z.min ex ey) in *.
    set (ax := Zpos (fst (shl_align mx ex ez))) in *.
    set (ay := Zpos (fst (shl_align my ey ez))) in *.
    assert (Hpx : 0 < 2 ^ (ex - ez)) by (apply Z.pow_pos_nonneg; lia).
    assert (Hpy : 0 < 2 ^ (ey - ez)) by (apply Z.pow_pos_nonneg; lia).
    assert (Hdx : Zdigits2 ax + ez <= Z.max a b).
    { rewrite Hfx, Zdigits2_mul_pow2 by lia. simpl Zdigits2. lia. }
    assert (Hdy : Zdigits2 ay + ez <= Z.max a b).
    { rewrite Hfy, Zdigits2_mul_pow2 by lia. simpl Zdigits2. lia. }
    assert (Hax : 0 < ax) by (unfold ax; lia).
    assert (Hay : 0 < ay) by (unfold ay; lia).
    assert (Hk0 : 0 <= Z.max a b - ez).
    { pose proof (Zdigits2_pos ax Hax). lia. }
    assert (Hxlt : ax < 2 ^ (Z.max a b - ez))
      by (apply Zdigits2_le_iff; lia).
    assert (Hylt : ay < 2 ^ (Z.max a b - ez))
      by (apply Zdigits2_le_iff; lia).
    replace (Z.max a b + 2) with ((Z.max a b + 1) + 1) by lia.
    apply binary_normalize_below; [|lia].
    rewrite <- Zdigits2_abs.
    assert (Hd : Zdigits2 (Z.abs (cond_Zopp sx ax - cond_Zopp sy ay))
                 <= Z.max a b - ez + 1).
    { apply Zdigits2_le_iff; try lia.
      rewrite Z.pow_add_r, Z.pow_1_r by lia.
      destruct sx, sy; cbn [cond_Zopp]; lia. }
    lia.
Qed.

(** ** The standard deviation returns *)

Lemma below_one (k : Z) : 1 <= k -> below k f_one.
Proof.
  intros Hk. apply (below_weaken 1 k); [exact Hk|].
  split; vm_compute; discriminate.
Qed.

Section StdDev.

Variable libm_pow : float -> float -> float.
Hypothesis libm_ok : pow_within_range libm_pow.

Lemma float_pow_two_below (k : Z) (d : float) :
  below k (SFabs d) -> 1 <= k <= 500 ->
  exists r, float_pow libm_pow d f_two = Ok r /\ below (2 * k + 1) r.
Proof.
  intros Hd Hk.
  destruct d as [s|s| |s m e]; try contradiction.
  - exists (S754_zero false). split; [reflexivity | exact I].
  - unfold float_pow.
    change (is_zero f_two) with false. change (is_nan f_two) with false.
    cbn [is_nan]. cbv iota.
    change (is_integer f_two) with true.
    change (is_odd_integer f_two) with false.
    rewrite !andb_false_r. cbv iota. cbn [negb].
    cbn [SFabs] in Hd |- *.
    destruct (SFeqb (S754_finite false m e) f_one).
    + exists f_one. split; [reflexivity | apply below_one; lia].
    + destruct libm_ok as [Hsquare _].
      pose proof (Hsquare k (S754_finite false m e) ltac:(lia) Hd) as H2.
      destruct (libm_pow (S754_finite false m e) f_two) as [[]|[]| |[] m' e'];
        try contradiction; eexists; split; try reflexivity; exact H2.
Qed.

(** The square root of a non-negative double, finite or not. *)
Lemma float_pow_half_nonneg (v : float) :
  nonneg_double v ->
  exists r, float_pow libm_pow v f_half = Ok r /\
            (below 513 r \/ r = S754_infinity false).
Proof.
  intros Hv. pose proof Hv as Hc. apply nonneg_double_cases in Hc.
  destruct v as [[]|[]| |[] m e]; try contradiction.
  - exists (S754_zero false). split; [reflexivity | left; exact I].
  - exists (S754_infinity false). split; [reflexivity | right; reflexivity].
  - destruct Hv as [Hv|Hv]; [|discriminate Hv].
    unfold float_pow.
    change (is_zero f_half) with false. change (is_nan f_half) with false.
    cbn [is_nan is_negative andb]. cbv iota.
    change (is_odd_integer f_half) with false. cbv iota.
    cbn [SFabs].
    destruct (SFeqb (S754_finite false m e) f_one).
    + exists f_one. split; [reflexivity | left; apply below_one; lia].
    + destruct libm_ok as [_ Hroot].
      pose proof (Hroot (S754_finite false m e) Hv) as H2.
      destruct (libm_pow (S754_finite false m e) f_half) as [[]|[]| |[] m' e'];
        try contradiction; eexists; (split; [reflexivity | left; exact H2]).
Qed.

Lemma squared_deviations_below (a b : Z) (mean : float) (values : list Z) :
  below a (SFabs mean) ->
  Forall (fun x => Z.abs x < 2 ^ b) values ->
  0 <= b -> b + 3 <= 500 -> a + 2 <= 500 ->
  exists squares,
    squared_deviations libm_pow mean values = Ok squares /\
    Forall nonneg_double squares.
Proof.
  intros Hmean Hall Hb Hb' Ha. unfold squared_deviations.
  induction Hall as [|x values Hx _ IH].
  - exists []. repeat split. constructor.
  - destruct IH as (squares & Hsq & Hn).
    destruct (float_of_int_magnitude x b Hx ltac:(lia)) as (fx & Hfx & Bfx).
    pose proof (fsub_magnitude (b + 1) a fx mean Bfx Hmean
                  ltac:(lia) ltac:(lia)) as Bd.
    apply (below_weaken _ (Z.max (b + 3) (Z.max (a + 2) 1))) in Bd; [|lia].
    destruct (float_pow_two_below _ _ Bd ltac:(lia)) as (r & Hr & Br).
    exists (r :: squares). cbn [mapM]. rewrite Hfx. cbn [bind].
    rewrite Hr. cbn [bind]. rewrite Hsq. cbn [bind].
    split; [reflexivity|]. constructor; [|exact Hn].
    left. eapply below_weaken; [|exact Br]. lia.
Qed.

End StdDev.

Lemma sum_bound (b : Z) (l : list Z) :
  Forall (fun x => - b <= x <= b) l -> Z.abs (sum l) <= b * len l.
Proof.
  intros Hall. unfold sum, len.
  assert (H : forall a, Z.abs (fold_left Z.add l a)
                        <= Z.abs a + b * Z.of_nat (List.length l)).
  { induction Hall as [|x l Hx _ IH]; intros a.
    - simpl. lia.
    - cbn [fold_left List.length]. rewrite Nat2Z.inj_succ.
      specialize (IH (a + x)). lia. }
  specialize (H 0). simpl Z.abs in H. lia.
Qed.

(** The mean of values below [2 ^ b] in absolute value, however many. *)
Lemma mean_magnitude (b : Z) (l : list Z) :
  Forall (fun x => Z.abs x < 2 ^ b) l ->
  l <> [] -> 0 <= b <= 1021 ->
  exists q, int_truediv (sum l) (len l) = Ok q /\ below (b + 2) (SFabs q).
Proof.
  intros Hall Hne Hb.
  assert (Hn : 1 <= len l).
  { unfold len. destruct l; [contradiction Hne; reflexivity | simpl; lia]. }
  assert (Hp : 0 < 2 ^ b) by (apply Z.pow_pos_nonneg; lia).
  assert (Hsum : Z.abs (sum l) <= (2 ^ b - 1) * len l).
  { apply sum_bound. eapply Forall_impl; [|exact Hall].
    intros x Hx. cbv beta in Hx. lia. }
  pose proof (Zdigits2_upper (len l) ltac:(lia)) as Hup.
  pose proof (Zdigits2_nonneg (len l)) as Hd0.
  assert (Hlt : Z.abs (sum l) < 2 ^ (b + Zdigits2 (len l))).
  { rewrite Z.pow_add_r by lia.
    apply Z.le_lt_trans with ((2 ^ b - 1) * len l); [exact Hsum|].
    apply Z.lt_le_trans with (2 ^ b * len l).
    - rewrite Z.mul_sub_distr_r. lia.
    - apply Z.mul_le_mono_nonneg_l; lia. }
  assert (Hd : Zdigits2 (sum l) <= b + Zdigits2 (len l)).
  { rewrite <- Zdigits2_abs. apply Zdigits2_le_iff; lia. }
  destruct (int_truediv_magnitude (sum l) (len l) (b + 1)) as (q & Hq & Bq);
    try lia.
  exists q. split; [exact Hq|].
  replace (b + 2) with (b + 1 + 1) by lia. exact Bq.
Qed.

(** The count of a non-empty list, as a double. *)
Lemma float_of_count (n : Z) :
  1 <= n < 2 ^ 1000 ->
  exists m e, float_of_int n = Ok (S754_finite false m e).
Proof.
  intros Hn.
  destruct (float_of_int_above n 1 ltac:(lia) ltac:(simpl; lia))
    as (f & Hf & _ & Ha).
  destruct f as [s|s| |[] m e]; try contradiction.
  exists m, e. exact Hf.
Qed.

Lemma population_std_dev_returns (libm_pow : float -> float -> float)
    (b : Z) (values : list Z) :
  pow_within_range libm_pow ->
  values <> [] -> len values < 2 ^ 1000 ->
  Forall (fun x => Z.abs x < 2 ^ b) values ->
  0 <= b <= 496 ->
  exists r, population_std_dev libm_pow values = Ok r.
Proof.
  intros Hlibm Hne Hlen Hall Hb. unfold population_std_dev.
  destruct (mean_magnitude b values Hall Hne ltac:(lia))
    as (mean & Hmean & Bmean).
  rewrite Hmean. cbn [bind].
  destruct (squared_deviations_below libm_pow Hlibm (b + 2) b mean values
              Bmean Hall ltac:(lia) ltac:(lia) ltac:(lia))
    as (squares & Hsq & Hn).
  rewrite Hsq. cbn [bind].
  assert (Hcount : 1 <= len values < 2 ^ 1000).
  { split; [|exact Hlen]. unfold len.
    destruct values; [contradiction Hne; reflexivity | simpl; lia]. }
  destruct (float_of_count (len values) Hcount) as (mc & ec & Hc).
  rewrite Hc. cbn [bind float_truediv].
  pose proof (fold_fadd_nonneg squares Hn (S754_zero false)
                ltac:(left; exact I)) as Htotal.
  pose proof (SFdiv_nonneg_double _ mc ec Htotal) as Hvar.
  destruct (float_pow_half_nonneg libm_pow Hlibm _ Hvar)
    as (root & Hroot & Broot).
  rewrite Hroot. cbn [bind].
  destruct Broot as [Broot | ->].
  - destruct (float_round_below 513 root Broot ltac:(lia)) as (r & Hr & _).
    exists r. exact Hr.
  - eexists. reflexivity.
Qed.

Lemma half_up (x : Z) : x <= 2 * ((x + 1) / 2) <= x + 1.
Proof.
  pose proof (Z.div_mod (x + 1) 2 ltac:(lia)).
  pose proof (Z.mod_pos_bound (x + 1) 2 ltac:(lia)). lia.
Qed.

(** The correctly rounded square root of a non-negative double below
    [2 ^ k] is below [2 ^ ((k + 1) / 2 + 1)]. *)
Lemma SFsqrt_below (k : Z) (x : float) :
  below k x -> 0 <= k <= 1024 ->
  below ((k + 1) / 2 + 1) (SFsqrt prec emax x).
Proof.
  intros Hx Hk.
  destruct x as [[]|[]| |[] m e]; try contradiction; [exact I|].
  destruct Hx as [Hx1 Hx2]. unfold SFsqrt.
  destruct (SFsqrt_core_binary prec emax (Zpos m) e) as [[q e'] l] eqn:Ecore.
  unfold SFsqrt_core_binary in Ecore.
  set (d := Zpos (digits2_pos m)) in *.
  change (Zdigits2 (Zpos m)) with d in Ecore.
  rewrite !Z.div2_div in Ecore.
  assert (Hfe : fexp prec emax ((d + e + 1) / 2)
                = Z.max ((d + e + 1) / 2 - 53) (-1074)) by reflexivity.
  rewrite Hfe in Ecore.
  set (e0 := Z.min (Z.max ((d + e + 1) / 2 - 53) (-1074)) (e / 2)) in *.
  pose proof (Z.mul_div_le e 2 ltac:(lia)) as Hdiv2.
  assert (Hs : 0 <= e - 2 * e0) by (unfold e0; lia).
  set (m' := match e - 2 * e0 with
             | 0 => Zpos m
             | Zpos _ => Z.shiftl (Zpos m) (e - 2 * e0)
             | Zneg _ => 0
             end) in *.
  assert (Hm' : m' = Zpos m * 2 ^ (e - 2 * e0)).
  { unfold m'. destruct (e - 2 * e0) as [|p|p] eqn:Es; try lia.
    rewrite Z.shiftl_mul_pow2 by lia. reflexivity. }
  pose proof (Z.sqrtrem_sqrt m') as Hsq.
  destruct (Z.sqrtrem m') as [q0 r]. cbn [fst] in Hsq.
  injection Ecore as <- <- <-.
  assert (H2 : 0 < 2 ^ (e - 2 * e0)) by (apply Z.pow_pos_nonneg; lia).
  assert (Hm'pos : 0 <= m') by nia.
  pose proof (Z.sqrt_spec m' Hm'pos) as Hspec. cbv zeta in Hspec.
  rewrite <- Hsq in Hspec.
  pose proof (Z.sqrt_nonneg m') as Hq0. rewrite <- Hsq in Hq0.
  pose proof (Zdigits2_upper (Zpos m) ltac:(lia)) as Hu.
  change (Zdigits2 (Zpos m)) with d in Hu.
  assert (Hdpos : 1 <= d) by (unfold d; lia).
  set (h := (d + (e - 2 * e0) + 1) / 2).
  assert (Hh : 0 <= h /\ d + (e - 2 * e0) <= 2 * h)
    by (pose proof (half_up (d + (e - 2 * e0))); fold h in H; lia).
  assert (Hqlt : q0 < 2 ^ h).
  { assert (m' < 2 ^ h * 2 ^ h).
    { rewrite <- Z.pow_add_r by lia. rewrite Hm'.
      apply Z.lt_le_trans with (2 ^ d * 2 ^ (e - 2 * e0)); [nia|].
      rewrite <- Z.pow_add_r by lia. apply Z.pow_le_mono_r; lia. }
    assert (0 < 2 ^ h) by (apply Z.pow_pos_nonneg; lia). nia. }
  assert (Hdq : Zdigits2 q0 <= h) by (apply Zdigits2_le_iff; lia).
  assert (Hhe : h + e0 = (d + e + 1) / 2).
  { unfold h. replace (d + (e - 2 * e0) + 1) with (d + e + 1 + (- e0) * 2) by lia.
    rewrite Z.div_add by lia. lia. }
  assert (Hmono : (d + e + 1) / 2 <= (k + 1) / 2)
    by (apply Z.div_le_mono; lia).
  pose proof (half_up k) as Hk2.
  set (kk := (k + 1) / 2) in *. set (xx := (d + e + 1) / 2) in *.
  eapply below_weaken;
    [|apply (round_below q0 e0 kk); [exact Hq0 | lia | lia | lia]].
  lia.
Qed.

Lemma rounded_pow_within_range : pow_within_range rounded_pow.
Proof.
  split.
  - intros k a Hk Ha. unfold rounded_pow.
    change (SFeqb f_two f_two) with true. cbv iota.
    pose proof (fmul_below k k a a Ha Ha ltac:(lia) ltac:(lia) ltac:(lia)) as H.
    eapply below_weaken; [|exact H]. lia.
  - intros a Ha. unfold rounded_pow.
    change (SFeqb f_half f_two) with false. cbv iota.
    exact (SFsqrt_below 1024 a Ha ltac:(lia)).
Qed.

Lemma consecutive_deltas_length (l : list Z) :
  List.length (consecutive_deltas l) = (List.length l - 1)%nat.
Proof.
  induction l as [|a l IH]; [reflexivity|].
  destruct l as [|b t]; [reflexivity|].
  change (consecutive_deltas (a :: b :: t))
    with ((b - a) :: consecutive_deltas (b :: t)).
  cbn [List.length] in IH |- *. rewrite IH. lia.
Qed.

Lemma consecutive_deltas_bound (b : Z) (l : list Z) :
  0 <= b ->
  Forall (fun x => Z.abs x < 2 ^ b) l ->
  Forall (fun x => Z.abs x < 2 ^ (b + 1)) (consecutive_deltas l).
Proof.
  intros Hb.
  assert (H2 : 2 ^ (b + 1) = 2 * 2 ^ b)
    by (rewrite Z.pow_add_r by lia; lia).
  induction l as [|a l IH]; intros Hall; [constructor|].
  destruct l as [|c t]; [constructor|].
  change (consecutive_deltas (a :: c :: t))
    with ((c - a) :: consecutive_deltas (c :: t)).
  inversion Hall as [|? ? Ha Hall']; subst.
  constructor; [|apply IH; exact Hall'].
  inversion Hall' as [|? ? Hc _]; subst. lia.
Qed.

(** C4, as the code has it: the analysis is absent below two snapshots and
    otherwise the summary of the consecutive deltas, unless one of its
    operations raises: the doubles nearest to their means, and the
    population standard deviation (a division by the count) of the
    coverage and quality deltas, evaluated in doubles and rounded to two
    decimals.  The summary is returned for every history of two snapshots
    or more (fewer than [2 ^ 1000]) whose coverage and quality are below
    [2 ^ 400] and whose number of tests is below [2 ^ 1000], in absolute
    value; coverage 70, 75, 80 gives a coverage trend of 5.0 and a
    coverage volatility of 0.0, whatever the C library's [pow]. *)
Theorem trend_analysis (libm_pow : float -> float -> float)
    (h : list snapshot) :
  Metrics.analyze_trends libm_pow h
  = (if (List.length h <? 2)%nat then Ok None
     else t <- trend_of_deltas libm_pow
                 (consecutive_deltas (coverage_series h))
                 (consecutive_deltas (quality_series h))
                 (consecutive_deltas (tests_series h)) ;;
          Ok (Some t))
  /\ (pow_within_range libm_pow ->
      (2 <= List.length h)%nat -> len h < 2 ^ 1000 ->
      Forall totals_in_range h ->
      exists t, Metrics.analyze_trends libm_pow h = Ok (Some t))
  /\ Metrics.analyze_trends libm_pow sample_history
     = Ok (Some {| Metrics.coverage_trend := f_five;
                   Metrics.quality_trend := S754_zero false;
                   Metrics.tests_trend := f_two;
                   Metrics.coverage_volatility := Float (S754_zero false);
                   Metrics.quality_volatility := Float (S754_zero false) |}).
Proof.
  split; [apply analyze_trends_deltas|]. split; [|vm_compute; reflexivity].
  intros Hlibm Hlen Hlen' Hall.
  rewrite analyze_trends_deltas.
  replace (List.length h <? 2)%nat with false
    by (symmetry; apply Nat.ltb_ge; lia).
  assert (Hc : Forall (fun x => Z.abs x < 2 ^ 400) (coverage_series h)).
  { unfold coverage_series. apply Forall_map.
    eapply Forall_impl; [|exact Hall]. intros s Hs. apply Hs. }
  assert (Hq : Forall (fun x => Z.abs x < 2 ^ 400) (quality_series h)).
  { unfold quality_series. apply Forall_map.
    eapply Forall_impl; [|exact Hall]. intros s Hs. apply Hs. }
  assert (Ht : Forall (fun x => Z.abs x < 2 ^ 1000) (tests_series h)).
  { unfold tests_series. apply Forall_map.
    eapply Forall_impl; [|exact Hall]. intros s Hs. apply Hs. }
  apply (consecutive_deltas_bound 400) in Hc, Hq; try lia.
  apply (consecutive_deltas_bound 1000) in Ht; try lia.
  assert (Hl : forall f : list snapshot -> list Z,
            List.length (f h) = List.length h ->
            consecutive_deltas (f h) <> [] /\
            len (consecutive_deltas (f h)) < 2 ^ 1000).
  { intros f Hf.
    assert (Hd : List.length (consecutive_deltas (f h))
                 = (List.length h - 1)%nat)
      by (rewrite consecutive_deltas_length, Hf; reflexivity).
    unfold len in *. split; [|lia].
    intros E. rewrite E in Hd. simpl in Hd. lia. }
  destruct (Hl coverage_series (length_map _ h)) as [Hnc Hlc].
  destruct (Hl quality_series (length_map _ h)) as [Hnq Hlq].
  destruct (Hl tests_series (length_map _ h)) as [Hnt Hlt].
  set (dc := consecutive_deltas (coverage_series h)) in *.
  set (dq := consecutive_deltas (quality_series h)) in *.
  set (dt := consecutive_deltas (tests_series h)) in *.
  destruct (mean_magnitude (400 + 1) dc Hc Hnc ltac:(lia)) as (ct & Hct & _).
  destruct (mean_magnitude (400 + 1) dq Hq Hnq ltac:(lia)) as (qt & Hqt & _).
  destruct (mean_magnitude (1000 + 1) dt Ht Hnt ltac:(lia)) as (tt & Htt & _).
  destruct (population_std_dev_returns libm_pow (400 + 1) dc Hlibm Hnc Hlc Hc
              ltac:(lia)) as (cv & Hcv).
  destruct (population_std_dev_returns libm_pow (400 + 1) dq Hlibm Hnq Hlq Hq
              ltac:(lia)) as (qv & Hqv).
  unfold trend_of_deltas. rewrite Hct, Hqt, Htt, Hcv, Hqv. cbn [bind].
  eexists. reflexivity.
Qed.

Lemma trend_analysis_witness :
  exists t, Metrics.analyze_trends rounded_pow sample_history = Ok (Some t).
Proof.
  apply (trend_analysis rounded_pow sample_history).
  - exact rounded_pow_within_range.
  - simpl. lia.
  - reflexivity.
  - repeat constructor; simpl; reflexivity.
Defined.

(** Well beyond percentages: a coverage that goes from 150 to 175, and
    two snapshots of [2 ^ 1024] tests each, whose delta is 0. *)
Lemma trend_large :
  option_map Metrics.coverage_trend
    (match Metrics.analyze_trends rounded_pow
             [snapshot_of 10 150 80; snapshot_of 10 175 80] with
     | Ok t => t
     | Raise _ => None
     end)
  = Some (S754_finite false 7036874417766400 (-48)) /\
  option_map Metrics.tests_trend
    (match Metrics.analyze_trends rounded_pow
             [snapshot_of (2 ^ 1024) 70 80; snapshot_of (2 ^ 1024) 75 80] with
     | Ok t => t
     | Raise _ => None
     end)
  = Some (S754_zero false).
Proof. vm_compute. split; reflexivity. Qed.

(** The example of the specification: coverage 70, 75, 80 gives a coverage
    trend of 5.0 and a coverage volatility of 0.0, whatever the C library's
    [pow]. *)
Lemma trend_example (libm_pow : float -> float -> float) :
  Metrics.analyze_trends libm_pow sample_history
  = Ok (Some {| Metrics.coverage_trend := f_five;
                Metrics.quality_trend := S754_zero false;
                Metrics.tests_trend := f_two;
                Metrics.coverage_volatility := Float (S754_zero false);
                Metrics.quality_volatility := Float (S754_zero false) |}).
Proof. vm_compute. reflexivity. Qed.

(** A history of fewer than two snapshots has no trend. *)
Lemma trend_absent (libm_pow : float -> float -> float) (s : snapshot) :
  Metrics.analyze_trends libm_pow [] = Ok None /\
  Metrics.analyze_trends libm_pow [s] = Ok None.
Proof. split; reflexivity. Qed.

(** Two snapshots whose test counts differ by [2 ^ 1024]: the mean of the
    deltas is beyond the doubles and no value is returned. *)
Lemma trend_overflow :
  (2 <= List.length [snapshot_of 0 70 80; snapshot_of (2 ^ 1024) 75 80])%nat /\
  Metrics.analyze_trends rounded_pow
    [snapshot_of 0 70 80; snapshot_of (2 ^ 1024) 75 80]
  = Raise OverflowError.
Proof. split; [simpl; lia | vm_compute; reflexivity]. Qed.

(** ** Rounding to nearest *)



Lemma shr_1_located (N D : Z) (mrs : shr_record) :
  located N D mrs -> located N (2 * D) (shr_1 mrs).
Proof.
  destruct mrs as [m r s]. unfold located. cbn [shr_m shr_r shr_s].
  intros (HD & Hm & HT).
  destruct m as [|p|p]; [| |lia].
  - destruct r, s; cbn [shr_1 orb shr_m shr_r shr_s Z.b2z] in *; lia.
  - destruct p as [p|p|]; destruct r, s;
      cbn [shr_1 orb shr_m shr_r shr_s Z.b2z] in *; lia.
Qed.

Lemma iter_shr_1_located (p : positive) :
  forall N D mrs, located N D mrs ->
  located N (D * 2 ^ Zpos p) (iter_pos shr_1 p mrs).
Proof.
  induction p as [p IH|p IH|]; intros N D mrs H; simpl iter_pos.
  - apply shr_1_located in H. apply IH in H. apply IH in H.
    rewrite pow2_xI.
    replace (D * (2 * (2 ^ Z.pos p * 2 ^ Z.pos p)))
      with (2 * D * 2 ^ Z.pos p * 2 ^ Z.pos p) by ring.
    exact H.
  - apply IH in H. apply IH in H. rewrite pow2_xO.
    replace (D * (2 ^ Z.pos p * 2 ^ Z.pos p))
      with (D * 2 ^ Z.pos p * 2 ^ Z.pos p) by ring.
    exact H.
  - apply shr_1_located in H.
    replace (D * 2 ^ 1) with (2 * D) by (rewrite Z.pow_1_r; ring). exact H.
Qed.

Lemma shr_fexp_located (N D m e : Z) (l : location) :
  located N D (shr_record_of_loc m l) ->
  located N (D * 2 ^ (snd (shr_fexp prec emax m e l) - e))
    (fst (shr_fexp prec emax m e l)).
Proof.
  intros H. unfold shr_fexp, shr.
  destruct (fexp prec emax (Zdigits2 m + e) - e) as [|p|p]; cbn [fst snd].
  - rewrite Z.sub_diag, Z.pow_0_r, Z.mul_1_r. exact H.
  - replace (e + Z.pos p - e) with (Z.pos p) by lia.
    apply iter_shr_1_located. exact H.
  - rewrite Z.sub_diag, Z.pow_0_r, Z.mul_1_r. exact H.
Qed.

Lemma new_location_located (a b : Z) :
  0 <= a -> 0 < b ->
  located a b (shr_record_of_loc (a / b) (new_location b (a mod b))).
Proof.
  intros Ha Hb.
  pose proof (Z.div_mod a b ltac:(lia)) as Hdm.
  pose proof (Z.mod_pos_bound a b Hb) as Hr.
  assert (Hq : 0 <= a / b) by (apply Z.div_pos; lia).
  revert Hdm Hr Hq. generalize (a / b) (a mod b). intros q r Hdm Hr Hq.
  assert (Hloc : new_location b r
                 = if r =? 0 then loc_Exact else loc_Inexact (2 * r ?= b)).
  { unfold new_location, new_location_even, new_location_odd.
    destruct (Z.even b) eqn:Eb; [reflexivity|].
    destruct (r =? 0); [reflexivity|]. f_equal.
    assert (Hodd : Z.odd b = true) by (rewrite <- Z.negb_even, Eb; reflexivity).
    apply Z.odd_spec in Hodd. destruct Hodd as [k Hk].
    destruct (Z.compare_spec (2 * r + 1) b) as [Ec|Ec|Ec]; symmetry;
      [apply Z.compare_lt_iff | apply Z.compare_lt_iff
       | apply Z.compare_gt_iff]; lia. }
  rewrite Hloc. unfold located.
  destruct (r =? 0) eqn:E0.
  - apply Z.eqb_eq in E0. cbn [shr_record_of_loc shr_m shr_r shr_s Z.b2z].
    subst r. split; [lia|]. split; [lia|]. subst a. ring.
  - apply Z.eqb_neq in E0.
    destruct (Z.compare_spec (2 * r) b) as [Ec|Ec|Ec];
      cbn [shr_record_of_loc shr_m shr_r shr_s Z.b2z];
      (split; [lia|]); (split; [lia|]); subst a; lia.
Qed.


Lemma fexp_eq (x : Z) : fexp prec emax x = Z.max (x - 53) (-1074).
Proof. reflexivity. Qed.

Lemma located_record (N D : Z) (mrs : shr_record) :
  located N D mrs ->
  let M := round_nearest_even (shr_m mrs) (loc_of_shr_record mrs) in
  shr_m mrs <= M <= shr_m mrs + 1 /\
  (2 * M - 1) * D <= 2 * N <= (2 * M + 1) * D.
Proof.
  destruct mrs as [m r s]. unfold located. cbn [shr_m shr_r shr_s].
  intros (HD & Hm & HT).
  destruct r, s; cbn [loc_of_shr_record round_nearest_even Z.b2z] in *;
    try destruct (Z.even m); lia.
Qed.

(** The mantissa of a rounded value. *)
Lemma binary_round_aux_nearest (N D m e : Z) (l : location) :
  located N D (shr_record_of_loc m l) ->
  Z.max e (fexp prec emax (Zdigits2 m + e)) < 971 ->
  exists M E,
    let e1 := Z.max e (fexp prec emax (Zdigits2 m + e)) in
    0 <= M /\
    (2 * M - 1) * (D * 2 ^ (e1 - e)) <= 2 * N
      <= (2 * M + 1) * (D * 2 ^ (e1 - e)) /\
    E = Z.max e1 (fexp prec emax (Zdigits2 M + e1)) /\
    M = M / 2 ^ (E - e1) * 2 ^ (E - e1) /\
    binary_round_aux prec emax false m e l
    = match M / 2 ^ (E - e1) with
      | Z0 => S754_zero false
      | Zpos p => S754_finite false p E
      | Zneg _ => S754_nan
      end.
Proof.
  intros Hloc Hmax.
  assert (Hm : 0 <= m).
  { destruct Hloc as (_ & Hm & _). rewrite shr_record_of_loc_m in Hm. exact Hm. }
  pose proof (shr_fexp_located N D m e l Hloc) as Hloc1.
  destruct (shr_fexp_spec m e l Hm) as [He1 Hm1].
  unfold binary_round_aux.
  destruct (shr_fexp prec emax m e l) as [mrs1 e1].
  cbn [fst snd] in Hloc1, He1, Hm1.
  cbv zeta. rewrite <- He1 in *.
  destruct (located_record _ _ _ Hloc1) as [Hr Hnear]. cbv zeta in Hr, Hnear.
  set (m1 := shr_m mrs1) in *.
  set (M := round_nearest_even m1 (loc_of_shr_record mrs1)) in *.
  pose proof (Zdigits2_nonneg m) as Hd0.
  pose proof (Zdigits2_upper m Hm) as Hup.
  pose proof (fexp_eq (Zdigits2 m + e)) as Hfe.
  assert (Hj : 0 <= e1 - e) by lia.
  assert (Hm1lo : 0 <= m1).
  { rewrite Hm1. apply Z.div_pos; [lia | apply Z.pow_pos_nonneg; lia]. }
  assert (Hm1hi : m1 < 2 ^ Z.max (Zdigits2 m - (e1 - e)) 0).
  { rewrite Hm1. apply div_pow2_lt; lia. }
  assert (HM : 0 <= M) by lia.
  destruct (shr_fexp_spec M e1 loc_Exact HM) as [He2 Hm3].
  destruct (shr_fexp prec emax M e1 loc_Exact) as [mrs2 e2].
  cbn [fst snd] in He2, Hm3.
  pose proof (fexp_eq (Zdigits2 M + e1)) as Hfe2.
  exists M, e2. split; [exact HM|]. split; [exact Hnear|].
  split; [exact He2|].
  assert (Hd1 : Zdigits2 m1 <= Z.max (Zdigits2 m - (e1 - e)) 0).
  { apply Zdigits2_le_iff; lia. }
  assert (Hdiv : M = M / 2 ^ (e2 - e1) * 2 ^ (e2 - e1)).
  { destruct (Z.eq_dec e2 e1) as [->|Hne].
    - rewrite Z.sub_diag, Z.pow_0_r, Z.div_1_r. lia.
    - assert (Hgt : e1 < e2) by lia.
      pose proof (Zdigits2_nonneg m1) as Hdm1.
      pose proof (Zdigits2_nonneg M) as HdM.
      assert (HMd : Zdigits2 M <= Zdigits2 m1 + 1).
      { apply Zdigits2_le_iff; try lia.
        pose proof (Zdigits2_upper m1 Hm1lo).
        rewrite Z.pow_add_r, Z.pow_1_r by lia. lia. }
      assert (Hd1' : Zdigits2 m1 < Zdigits2 M) by lia.
      assert (HM1 : M = m1 + 1).
      { destruct (Z.eq_dec M m1) as [Heq|]; [|lia]. rewrite Heq in Hd1'. lia. }
      assert (Hpow : M = 2 ^ Zdigits2 m1).
      { pose proof (Zdigits2_upper m1 Hm1lo).
        destruct (Z_lt_le_dec M (2 ^ Zdigits2 m1)) as [Hlt|]; [|lia].
        apply Zdigits2_le_iff in Hlt; lia. }
      assert (He21 : e2 - e1 = 1) by lia.
      assert (Hd1pos : 1 <= Zdigits2 m1) by lia.
      rewrite He21, Z.pow_1_r, Hpow.
      replace (Zdigits2 m1) with (1 + (Zdigits2 m1 - 1)) by lia.
      rewrite Z.pow_add_r, Z.pow_1_r by lia.
      rewrite Z.mul_comm, Z.div_mul by lia. ring. }
  split; [exact Hdiv|].
  rewrite Hm3.
  destruct (M / 2 ^ (e2 - e1)) as [|p|p]; try reflexivity.
  replace (e2 <=? emax - prec) with true; [reflexivity|].
  symmetry. apply Z.leb_le. change (emax - prec) with 971.
  pose proof (Zdigits2_nonneg m1) as Hdm1.
  assert (HMd : Zdigits2 M <= Zdigits2 m1 + 1).
  { apply Zdigits2_le_iff; try lia.
    pose proof (Zdigits2_upper m1 Hm1lo).
    rewrite Z.pow_add_r, Z.pow_1_r by lia. lia. }
  lia.
Qed.


(** The quotient of two positive integers, before rounding. *)
Lemma SFdiv_core_located (a b : positive) :
  let e' := Z.min (fexp prec emax (Zdigits2 (Zpos a) - Zdigits2 (Zpos b))) 0 in
  let n := Zpos a * 2 ^ (- e') in
  SFdiv_core_binary prec emax (Zpos a) 0 (Zpos b) 0
  = (n / Zpos b, e', new_location (Zpos b) (n mod Zpos b)) /\
  located n (Zpos b)
    (shr_record_of_loc (n / Zpos b) (new_location (Zpos b) (n mod Zpos b))).
Proof.
  cbv zeta. unfold SFdiv_core_binary.
  rewrite !Z.add_0_r, Z.sub_0_r, Z.sub_0_l.
  set (e' := Z.min (fexp prec emax (Zdigits2 (Zpos a) - Zdigits2 (Zpos b))) 0).
  assert (He' : e' <= 0) by (unfold e'; lia).
  assert (Hn : (match - e' with
                | 0 => Zpos a
                | Zpos _ => Z.shiftl (Zpos a) (- e')
                | Zneg _ => 0
                end) = Zpos a * 2 ^ (- e')).
  { assert (Hs : 0 <= - e') by lia. revert Hs.
    generalize (- e'). intros s Hs.
    destruct s as [|p|p]; try lia.
    rewrite Z.shiftl_mul_pow2 by lia. reflexivity. }
  rewrite Hn.
  set (n := Zpos a * 2 ^ (- e')).
  assert (Hnn : 0 <= n).
  { unfold n. assert (0 < 2 ^ (- e')) by (apply Z.pow_pos_nonneg; lia). nia. }
  split.
  - unfold Z.div, Z.modulo. destruct (Z.div_eucl n (Zpos b)). reflexivity.
  - apply new_location_located; lia.
Qed.

Lemma int_of_float_mantissa (M E g : Z) (p : positive) :
  0 <= g -> - g <= E -> Zpos p * 2 ^ (E + g) = M ->
  int_of_float (S754_finite false p E) = Ok (M / 2 ^ g).
Proof.
  intros Hg HE HM. unfold int_of_float. f_equal.
  assert (H2g : 0 < 2 ^ g) by (apply Z.pow_pos_nonneg; lia).
  destruct E as [|q|q].
  - rewrite Z.shiftl_0_r. rewrite <- HM, Z.add_0_l, Z.div_mul by lia.
    reflexivity.
  - rewrite Z.shiftl_mul_pow2 by lia. rewrite <- HM.
    rewrite Z.pow_add_r, Z.mul_assoc, Z.div_mul by lia. reflexivity.
  - rewrite Z.shiftr_div_pow2 by lia. rewrite <- HM.
    assert (0 < 2 ^ Zpos q) by (apply Z.pow_pos_nonneg; lia).
    assert (0 < 2 ^ (Zneg q + g)) by (apply Z.pow_pos_nonneg; lia).
    replace (2 ^ g) with (2 ^ Zpos q * 2 ^ (Zneg q + g))
      by (rewrite <- Z.pow_add_r by lia; f_equal; lia).
    rewrite Z.div_mul_cancel_r by lia. reflexivity.
Qed.

(** An integer nearest to [a * G / b] has the integer part of [a / b] for
    its own integer part on the grid of [G], when [b] is small against the
    grid or [a / b] is below one half. *)
Lemma nearest_floor (a b q0 r0 M G : Z) :
  0 < b -> 0 <= r0 < b -> a = b * q0 + r0 -> 0 <= q0 -> 0 < G ->
  (2 * M - 1) * b <= 2 * (a * G) <= (2 * M + 1) * b ->
  b < 2 * G \/ 2 * a < b ->
  q0 * G <= M < (q0 + 1) * G.
Proof.
  intros Hb Hr Ha Hq0 HG [Hlo Hhi] Hcase.
  assert (HaG : a * G = q0 * G * b + r0 * G) by (rewrite Ha; ring).
  assert (HrG : 0 <= r0 * G <= (b - 1) * G).
  { split; [apply Z.mul_nonneg_nonneg; lia|].
    apply Z.mul_le_mono_nonneg_r; lia. }
  split.
  - destruct (Z_lt_le_dec M (q0 * G)) as [Hlt|]; [|assumption].
    exfalso.
    assert (H1 : (2 * M + 1) * b <= (2 * (q0 * G) - 1) * b)
      by (apply Z.mul_le_mono_nonneg_r; lia).
    lia.
  - destruct (Z_lt_le_dec M ((q0 + 1) * G)) as [|Hge]; [assumption|].
    exfalso.
    assert (H1 : (2 * ((q0 + 1) * G) - 1) * b <= (2 * M - 1) * b)
      by (apply Z.mul_le_mono_nonneg_r; lia).
    destruct Hcase as [Hsmall|Hhalf].
    + (* 2 a G <= 2 q0 G b + 2 (b-1) G, and (2 (q0+1) G - 1) b <= 2 a G *)
      lia.
    + assert (Hq : q0 = 0).
      { destruct (Z.eq_dec q0 0) as [|Hne]; [assumption|]. exfalso.
        assert (b * 1 <= b * q0) by (apply Z.mul_le_mono_nonneg_l; lia).
        lia. }
      subst q0.
      assert (H2 : 2 * a * G <= (b - 1) * G)
        by (apply Z.mul_le_mono_nonneg_r; lia).
      assert (H3 : b * 1 <= b * G) by (apply Z.mul_le_mono_nonneg_l; lia).
      lia.
Qed.

(** The integer part of the double quotient [a / b] is the integer
    quotient, for [0 <= a < 2 ^ 53] and [0 < b]. *)
Lemma int_truediv_floor (a b : Z) :
  0 <= a < 2 ^ 53 -> 0 < b ->
  exists x, int_truediv a b = Ok x /\ int_of_float x = Ok (a / b).
Proof.
  intros Ha Hb. unfold int_truediv.
  replace (b =? 0) with false by (symmetry; apply Z.eqb_neq; lia).
  destruct a as [|pa|pa]; [| |lia].
  { exists (S754_zero (b <? 0)). split; [reflexivity|].
    rewrite Z.div_0_l by lia. reflexivity. }
  destruct b as [|pb|pb]; try lia.
  cbn [Z.ltb Z.compare Z.abs Z.to_pos SFdiv xorb].
  destruct (SFdiv_core_located pa pb) as [Hcore Hloc]. cbv zeta in Hcore, Hloc.
  rewrite Hcore.
  pose proof (fexp_eq (Zdigits2 (Zpos pa) - Zdigits2 (Zpos pb))) as Hfe.
  set (e' := Z.min (fexp prec emax (Zdigits2 (Zpos pa) - Zdigits2 (Zpos pb))) 0)
    in *.
  set (n := Zpos pa * 2 ^ (- e')) in *.
  assert (Hda : 1 <= Zdigits2 (Zpos pa) <= 53).
  { split; [apply Zdigits2_pos; lia | apply Zdigits2_le_iff; lia]. }
  assert (Hdb : 1 <= Zdigits2 (Zpos pb)) by (apply Zdigits2_pos; lia).
  assert (He' : -1074 <= e' <= -1
                /\ Zdigits2 (Zpos pa) - Zdigits2 (Zpos pb) - 53 <= e')
    by (unfold e'; lia).
  assert (H2e : 0 < 2 ^ (- e')) by (apply Z.pow_pos_nonneg; lia).
  pose proof (Zdigits2_upper (Zpos pa) ltac:(lia)) as Hua.
  pose proof (Zdigits2_lower (Zpos pb) ltac:(lia)) as Hlb.
  pose proof (Zdigits2_upper (Zpos pb) ltac:(lia)) as Hub.
  set (q := n / Zpos pb) in *.
  assert (Hq0 : 0 <= q) by (apply Z.div_pos; unfold n; nia).
  (* the quotient has at most 54 digits *)
  assert (Hdq : Zdigits2 q <= 54).
  { apply Zdigits2_le_iff; try lia.
    apply Z.div_lt_upper_bound; [lia|].
    unfold n.
    apply Z.lt_le_trans with (2 ^ Zdigits2 (Zpos pa) * 2 ^ (- e')); [nia|].
    apply Z.le_trans with (2 ^ (Zdigits2 (Zpos pb) - 1) * 2 ^ 54); [|nia].
    rewrite <- !Z.pow_add_r by lia. apply Z.pow_le_mono_r; lia. }
  pose proof (fexp_eq (Zdigits2 q + e')) as Hfq.
  destruct (binary_round_aux_nearest n (Zpos pb) q e' _ Hloc ltac:(lia))
    as (M & E & HM & Hnear & HE & Hdiv & Hres).
  cbv zeta in *.
  set (e1 := Z.max e' (fexp prec emax (Zdigits2 q + e'))) in *.
  assert (He1' : e' <= e1 <= 0) by lia.
  (* M is the integer nearest to a * 2 ^ (- e1) / b *)
  assert (H2g : 0 < 2 ^ (- e1)) by (apply Z.pow_pos_nonneg; lia).
  assert (H2j : 0 < 2 ^ (e1 - e')) by (apply Z.pow_pos_nonneg; lia).
  assert (Hsplit : 2 ^ (- e') = 2 ^ (- e1) * 2 ^ (e1 - e')).
  { rewrite <- Z.pow_add_r by lia. f_equal. lia. }
  assert (Hnear' : (2 * M - 1) * Zpos pb <= 2 * (Zpos pa * 2 ^ (- e1))
                   <= (2 * M + 1) * Zpos pb).
  { unfold n in Hnear. rewrite Hsplit in Hnear. destruct Hnear as [Hlo Hhi].
    split; apply (Z.mul_le_mono_pos_r _ _ (2 ^ (e1 - e'))); try exact H2j.
    - replace ((2 * M - 1) * Zpos pb * 2 ^ (e1 - e'))
        with ((2 * M - 1) * (Zpos pb * 2 ^ (e1 - e'))) by ring.
      replace (2 * (Zpos pa * 2 ^ (- e1)) * 2 ^ (e1 - e'))
        with (2 * (Zpos pa * (2 ^ (- e1) * 2 ^ (e1 - e')))) by ring.
      exact Hlo.
    - replace ((2 * M + 1) * Zpos pb * 2 ^ (e1 - e'))
        with ((2 * M + 1) * (Zpos pb * 2 ^ (e1 - e'))) by ring.
      replace (2 * (Zpos pa * 2 ^ (- e1)) * 2 ^ (e1 - e'))
        with (2 * (Zpos pa * (2 ^ (- e1) * 2 ^ (e1 - e')))) by ring.
      exact Hhi. }
  (* either the divisor is small against the grid, or the quotient is
     below one half *)
  assert (Hcase : Zpos pb < 2 * 2 ^ (- e1) \/ 2 * Zpos pa < Zpos pb).
  { destruct (Z_le_gt_dec (-1074)
                (Zdigits2 (Zpos pa) - Zdigits2 (Zpos pb) - 53)) as [Hn|Hclip].
    - left.
      apply Z.lt_le_trans with (2 ^ Zdigits2 (Zpos pb)); [lia|].
      replace (2 * 2 ^ (- e1)) with (2 ^ (1 - e1))
        by (rewrite <- Z.pow_succ_r by lia; f_equal; lia).
      apply Z.pow_le_mono_r; lia.
    - right.
      apply Z.lt_le_trans with (2 ^ (Zdigits2 (Zpos pa) + 1)).
      + rewrite Z.pow_add_r, Z.pow_1_r by lia. lia.
      + apply Z.le_trans with (2 ^ (Zdigits2 (Zpos pb) - 1)); [|lia].
        apply Z.pow_le_mono_r; lia. }
  pose proof (Z.div_mod (Zpos pa) (Zpos pb) ltac:(lia)) as Hdm.
  pose proof (Z.mod_pos_bound (Zpos pa) (Zpos pb) ltac:(lia)) as Hr.
  set (q0 := Zpos pa / Zpos pb) in *.
  set (r0 := Zpos pa mod Zpos pb) in *.
  assert (Hq00 : 0 <= q0) by (apply Z.div_pos; lia).
  assert (Hfloor : M / 2 ^ (- e1) = q0).
  { pose proof (nearest_floor (Zpos pa) (Zpos pb) q0 r0 M (2 ^ (- e1))
                  ltac:(lia) Hr Hdm Hq00 H2g Hnear' Hcase) as Hbounds.
    symmetry. apply Z.div_unique with (M - q0 * 2 ^ (- e1)); [|ring].
    left. lia. }
  rewrite Hres.
  destruct (M / 2 ^ (E - e1)) as [|p|p] eqn:EM.
  - exists (S754_zero false). split; [reflexivity|].
    assert (M = 0) by lia. subst M.
    rewrite Z.div_0_l in Hfloor by lia. rewrite <- Hfloor. reflexivity.
  - exists (S754_finite false p E). split; [reflexivity|].
    rewrite <- Hfloor.
    apply int_of_float_mantissa; try lia.
    replace (E + - e1) with (E - e1) by lia. symmetry. exact Hdiv.
  - exfalso.
    assert (0 <= M / 2 ^ (E - e1)).
    { apply Z.div_pos; [lia | apply Z.pow_pos_nonneg; lia]. }
    lia.
Qed.

Lemma binary_round_aux_sign (s : bool) (m e : Z) (l : location) :
  binary_round_aux prec emax s m e l
  = if s then SFopp (binary_round_aux prec emax false m e l)
    else binary_round_aux prec emax false m e l.
Proof.
  destruct s; [|reflexivity]. unfold binary_round_aux.
  destruct (shr_fexp prec emax m e l) as [mrs1 e1].
  destruct (shr_fexp prec emax _ e1 loc_Exact) as [mrs2 e2].
  destruct (shr_m mrs2); try reflexivity.
  destruct (e2 <=? emax - prec); reflexivity.
Qed.

(** Rounding a value that needs no rounding: [c * 2 ^ j] at exponent
    [- j - i], the quotient of [c * 2 ^ (j) * k] by [k]... *)
Lemma binary_round_aux_exact (c D m e : Z) (l : location) :
  0 < c < 2 ^ 53 ->
  e <= Zdigits2 c - 53 ->
  located (c * 2 ^ (- e) * D) D (shr_record_of_loc m l) ->
  binary_round_aux prec emax false m e l
  = S754_finite false (Z.to_pos (c * 2 ^ (53 - Zdigits2 c))) (Zdigits2 c - 53).
Proof.
  intros Hc He Hloc.
  assert (Hdc : 1 <= Zdigits2 c <= 53).
  { split; [apply Zdigits2_pos; lia | apply Zdigits2_le_iff; lia]. }
  assert (H2e : 0 < 2 ^ (- e)) by (apply Z.pow_pos_nonneg; lia).
  assert (HD : 0 < D) by apply Hloc.
  assert (Hm : m = c * 2 ^ (- e)).
  { destruct Hloc as (_ & Hm0 & HT). rewrite shr_record_of_loc_m in *.
    destruct l as [|[]]; cbn [shr_record_of_loc shr_m shr_r shr_s Z.b2z] in HT;
      nia. }
  assert (Hdm : Zdigits2 m = Zdigits2 c - e).
  { rewrite Hm, Zdigits2_mul_pow2 by lia. lia. }
  pose proof (fexp_eq (Zdigits2 m + e)) as Hfe.
  destruct (binary_round_aux_nearest _ D m e l Hloc ltac:(lia))
    as (M & E & HM & Hnear & HE & Hdiv & Hres).
  cbv zeta in *.
  set (e1 := Z.max e (fexp prec emax (Zdigits2 m + e))) in *.
  assert (He1 : e1 = Zdigits2 c - 53) by lia.
  assert (H2j : 0 < 2 ^ (e1 - e)) by (apply Z.pow_pos_nonneg; lia).
  assert (H2g : 0 < 2 ^ (- e1)) by (apply Z.pow_pos_nonneg; lia).
  assert (Hsplit : 2 ^ (- e) = 2 ^ (- e1) * 2 ^ (e1 - e)).
  { rewrite <- Z.pow_add_r by lia. f_equal. lia. }
  assert (HMv : M = c * 2 ^ (- e1)).
  { rewrite Hsplit in Hnear.
    assert (HP : 0 < D * 2 ^ (e1 - e)) by nia.
    replace (2 * (c * (2 ^ (- e1) * 2 ^ (e1 - e)) * D))
      with (2 * (c * 2 ^ (- e1)) * (D * 2 ^ (e1 - e))) in Hnear by ring.
    destruct Hnear as [Hlo Hhi].
    apply Z.mul_le_mono_pos_r in Hlo, Hhi; [lia | exact HP | exact HP]. }
  assert (HdM : Zdigits2 M = 53).
  { rewrite HMv, Zdigits2_mul_pow2 by lia. lia. }
  pose proof (fexp_eq (Zdigits2 M + e1)) as HfM.
  assert (HEe : E = e1) by lia.
  rewrite Hres, HEe, Z.sub_diag, Z.pow_0_r, Z.div_1_r.
  assert (HMpos : 0 < M) by (rewrite HMv; apply Z.mul_pos_pos; lia).
  destruct M as [|p|p]; try lia.
  replace (53 - Zdigits2 c) with (- e1) by lia. rewrite <- HMv.
  rewrite He1. reflexivity.
Qed.

Lemma float_of_int_exact (c : Z) :
  Z.abs c < 2 ^ 53 -> float_of_int c = Ok (exact_double c).
Proof.
  intros Hc. unfold float_of_int, exact_double.
  assert (Hpos : forall s (p : positive), Zpos p < 2 ^ 53 ->
            binary_round prec emax s p 0
            = S754_finite s (Z.to_pos (Zpos p * 2 ^ (53 - Zdigits2 (Zpos p))))
                (Zdigits2 (Zpos p) - 53)).
  { intros s p Hp. unfold binary_round.
    assert (Hdc : 1 <= Zdigits2 (Zpos p) <= 53).
    { split; [apply Zdigits2_pos; lia | apply Zdigits2_le_iff; lia]. }
    pose proof (fexp_eq (Zpos (digits2_pos p) + 0)) as Hfe.
    change (Zpos (digits2_pos p)) with (Zdigits2 (Zpos p)) in *.
    destruct (shl_align_spec p 0 (fexp prec emax (Zdigits2 (Zpos p) + 0)))
      as [Hs Hf].
    destruct (shl_align p 0 (fexp prec emax (Zdigits2 (Zpos p) + 0)))
      as [mz ez]. cbn [fst snd] in Hs, Hf.
    rewrite binary_round_aux_sign.
    rewrite (binary_round_aux_exact (Zpos p) 1 (Zpos mz) ez loc_Exact);
      [destruct s; reflexivity | lia | lia |].
    unfold located. cbn [shr_record_of_loc shr_m shr_r shr_s Z.b2z].
    rewrite Hf. replace (0 - ez) with (- ez) by lia.
    assert (0 < 2 ^ (- ez)) by (apply Z.pow_pos_nonneg; lia).
    split; [lia|]. split; [nia | ring]. }
  destruct c as [|p|p]; [reflexivity| |].
  - cbn [binary_normalize]. rewrite Hpos by lia. reflexivity.
  - cbn [binary_normalize]. rewrite Hpos by lia. reflexivity.
Qed.

Lemma SFdiv_exact (s : bool) (pa pk : positive) (c : Z) :
  0 < c < 2 ^ 53 -> Zpos pa = Zpos pk * c ->
  SFdiv prec emax (S754_finite s pa 0) (S754_finite false pk 0)
  = S754_finite s (Z.to_pos (c * 2 ^ (53 - Zdigits2 c))) (Zdigits2 c - 53).
Proof.
  intros Hc Ha. cbn [SFdiv].
  destruct (SFdiv_core_located pa pk) as [Hcore Hloc].
  cbv zeta in Hcore, Hloc. rewrite Hcore.
  pose proof (fexp_eq (Zdigits2 (Zpos pa) - Zdigits2 (Zpos pk))) as Hfe.
  set (e' := Z.min (fexp prec emax (Zdigits2 (Zpos pa) - Zdigits2 (Zpos pk))) 0)
    in *.
  assert (Hdc : 1 <= Zdigits2 c <= 53).
  { split; [apply Zdigits2_pos; lia | apply Zdigits2_le_iff; lia]. }
  assert (Hda : Zdigits2 (Zpos pa) <= Zdigits2 (Zpos pk) + Zdigits2 c).
  { pose proof (Zdigits2_upper (Zpos pk) ltac:(lia)).
    pose proof (Zdigits2_upper c ltac:(lia)).
    pose proof (Zdigits2_nonneg (Zpos pk)).
    apply Zdigits2_le_iff; try lia.
    rewrite Z.pow_add_r by lia. rewrite Ha. nia. }
  rewrite binary_round_aux_sign, xorb_false_r.
  rewrite (binary_round_aux_exact c (Zpos pk) _ e' _); [destruct s; reflexivity| | |].
  - exact Hc.
  - lia.
  - replace (c * 2 ^ (- e') * Zpos pk) with (Zpos pa * 2 ^ (- e'))
      by (rewrite Ha; ring).
    exact Hloc.
Qed.

(** A quotient that is an integer below [2 ^ 53] is computed exactly. *)
Lemma int_truediv_exact (k c : Z) :
  0 < k -> Z.abs c < 2 ^ 53 -> int_truediv (k * c) k = Ok (exact_double c).
Proof.
  intros Hk Hc. unfold int_truediv.
  replace (k =? 0) with false by (symmetry; apply Z.eqb_neq; lia).
  destruct (Z.eq_dec c 0) as [->|Hne].
  { rewrite Z.mul_0_r. replace (k <? 0) with false
      by (symmetry; apply Z.ltb_ge; lia). reflexivity. }
  destruct k as [|pk|pk]; try lia.
  destruct (Z.pos pk * c) as [|pa|pa] eqn:Ea; [nia| |].
  - assert (Hcp : 0 < c) by nia.
    cbn [Z.ltb Z.compare Z.abs Z.to_pos].
    rewrite (SFdiv_exact false pa pk c) by lia.
    unfold exact_double. destruct c as [|pc|pc]; try lia. reflexivity.
  - assert (Hcn : c < 0) by nia.
    cbn [Z.ltb Z.compare Z.abs Z.to_pos].
    rewrite (SFdiv_exact true pa pk (- c)) by lia.
    unfold exact_double. destruct c as [|pc|pc]; try lia. reflexivity.
Qed.

Lemma int_truediv_self (n : Z) : 0 < n -> int_truediv n n = Ok f_one.
Proof.
  intros Hn. pose proof (int_truediv_exact n 1 Hn ltac:(reflexivity)) as H.
  rewrite Z.mul_1_r in H. exact H.
Qed.

(** ** What the extractors can return *)

Lemma all_in_keep (p : N -> bool) (it : item) (c : N) (g : text) :
  (grp it = true -> p c = true) -> all_in p g -> all_in p (keep it c g).
Proof.
  intros Hc Hg. unfold keep. destruct (grp it); [|exact Hg].
  unfold all_in in *. simpl. rewrite Hc by reflexivity. exact Hg.
Qed.

(** The text of the group is made of characters its items accept. *)
Lemma match_here_group (p : N -> bool) (items : list item) :
  (forall it c, In it items -> grp it = true -> cls it c = true -> p c = true) ->
  forall s g, match_here items s = Some g -> all_in p g.
Proof.
  induction items as [|it rest IH]; intros Hit.
  - intros s g H. injection H as <-. reflexivity.
  - assert (Hk : forall s g, match_here rest s = Some g -> all_in p g).
    { apply IH. intros it' c Hin. apply Hit. right. exact Hin. }
    assert (Hc : forall c, cls it c = true -> grp it = true -> p c = true).
    { intros c Hcls Hgrp. apply (Hit it c); [left; reflexivity | exact Hgrp | exact Hcls]. }
    assert (Hstar : forall s g,
              match_here ({| cls := cls it; qnt := Star; grp := grp it |} :: rest) s
              = Some g -> all_in p g).
    { induction s as [|c s IHs]; intros g H.
      - rewrite match_here_star_nil in H. apply (Hk _ _ H).
      - rewrite match_here_star in H.
        destruct (cls it c) eqn:Ec; [|apply (Hk _ _ H)].
        destruct (match_here _ s) as [g'|] eqn:Em; [|apply (Hk _ _ H)].
        injection H as <-.
        apply (all_in_keep p {| cls := cls it; qnt := Star; grp := grp it |});
          [apply Hc; exact Ec | apply IHs; reflexivity]. }
    intros s g H. destruct it as [cl q b]. cbn [cls grp] in *.
    destruct q.
    + destruct s as [|c s]; [discriminate H|].
      rewrite match_here_one in H.
      destruct (cl c) eqn:Ec; [|discriminate H].
      destruct (match_here rest s) as [g'|] eqn:Em; [|discriminate H].
      injection H as <-.
      apply (all_in_keep p {| cls := cl; qnt := One; grp := b |});
        [apply Hc; exact Ec | apply (Hk _ _ Em)].
    + apply (Hstar _ _ H).
    + destruct s as [|c s]; [discriminate H|].
      rewrite match_here_plus in H.
      destruct (cl c) eqn:Ec; [|discriminate H].
      destruct (match_here _ s) as [g'|] eqn:Em; [|discriminate H].
      injection H as <-.
      apply (all_in_keep p {| cls := cl; qnt := Plus; grp := b |});
        [apply Hc; exact Ec | apply (Hstar _ _ Em)].
Qed.

Lemma search_group (p : N -> bool) (items : list item) :
  (forall it c, In it items -> grp it = true -> cls it c = true -> p c = true) ->
  forall s g, search items s = Some g -> all_in p g.
Proof.
  intros Hit s. induction s as [|c s IH]; intros g H; cbn [search] in H.
  - destruct (match_here items []) eqn:E; [|discriminate H].
    injection H as <-. apply (match_here_group p items Hit _ _ E).
  - destruct (match_here items (c :: s)) eqn:E.
    + injection H as <-. apply (match_here_group p items Hit _ _ E).
    + apply IH. exact H.
Qed.

Lemma lit_no_group (label : string) (it : item) :
  In it (lit label) -> grp it = false.
Proof.
  unfold lit. intros H. apply in_map_iff in H.
  destruct H as (c & <- & _). reflexivity.
Qed.

(** In the patterns of the scripts the group is a run of digits. *)
Lemma field_group_digits (label suffix : string) (q : quant) (it : item)
    (c : N) :
  In it (lit label ++ [spaces q; digits_group] ++ lit suffix) ->
  grp it = true -> cls it c = true -> isdecimal c = true.
Proof.
  intros Hin Hgrp Hcls.
  apply in_app_or in Hin. destruct Hin as [Hin|Hin].
  { apply lit_no_group in Hin. congruence. }
  apply in_app_or in Hin. destruct Hin as [Hin|Hin].
  - destruct Hin as [<-|[<-|[]]]; [discriminate Hgrp | exact Hcls].
  - apply lit_no_group in Hin. congruence.
Qed.

Lemma todecimal_range (c : N) : isdecimal c = true -> 0 <= todecimal c <= 9.
Proof.
  intros H. destruct (isdecimal_run c H) as (z & _ & Hz & ->). lia.
Qed.

Lemma int_of_decimals_range (g : text) :
  all_in isdecimal g ->
  0 <= int_of_decimals g < 10 ^ Z.of_nat (List.length g).
Proof.
  unfold all_in, int_of_decimals. intros Hg.
  assert (H : forall l acc n,
            forallb isdecimal l = true -> 0 <= acc < 10 ^ Z.of_nat n ->
            0 <= fold_left (fun a c => 10 * a + todecimal c) l acc
              < 10 ^ Z.of_nat (n + List.length l)).
  { induction l as [|c l IH]; intros acc n Hl Hacc; cbn [fold_left List.length].
    - rewrite Nat.add_0_r. exact Hacc.
    - simpl in Hl. apply andb_true_iff in Hl. destruct Hl as [Hc Hl].
      pose proof (todecimal_range c Hc).
      replace (n + S (List.length l))%nat with (S n + List.length l)%nat by lia.
      apply IH; [exact Hl|].
      rewrite Nat2Z.inj_succ, Z.pow_succ_r by lia. lia. }
  specialize (H g 0 0%nat Hg ltac:(simpl; lia)).
  rewrite Nat.add_0_l in H. exact H.
Qed.

Lemma int_of_str_range (g : text) :
  all_in isdecimal g ->
  match int_of_str g with
  | Ok n => 0 <= n < numeral_bound
  | Raise e => e = ValueError
  end.
Proof.
  intros Hg. unfold int_of_str.
  destruct (max_str_digits <? List.length g)%nat eqn:E; [reflexivity|].
  apply Nat.ltb_ge in E.
  pose proof (int_of_decimals_range g Hg) as [H0 H1].
  split; [exact H0|].
  apply Z.lt_le_trans with (10 ^ Z.of_nat (List.length g)); [exact H1|].
  unfold numeral_bound. apply Z.pow_le_mono_r; lia.
Qed.

Lemma numeral_bound_pos : 0 < numeral_bound.
Proof. unfold numeral_bound. apply Z.pow_pos_nonneg; lia. Qed.

Lemma or_zero_range (g : text) :
  all_in isdecimal g -> 0 <= Report.or_zero (int_of_str g) < numeral_bound.
Proof.
  intros Hg. pose proof (int_of_str_range g Hg) as H.
  pose proof numeral_bound_pos.
  destruct (int_of_str g); simpl; [exact H | lia].
Qed.

Lemma extract_number_range (content : text) (pattern : string) :
  0 <= Report.extract_number content pattern < numeral_bound.
Proof.
  unfold Report.extract_number.
  pose proof numeral_bound_pos.
  destruct (search _ content) as [g|] eqn:E; [|lia].
  apply or_zero_range.
  apply (search_group isdecimal _
           (fun it c => field_group_digits pattern "" Plus it c) _ _ E).
Qed.

Lemma extract_percentage_range (content : text) (pattern : string) :
  0 <= Report.extract_percentage content pattern < numeral_bound.
Proof.
  unfold Report.extract_percentage.
  pose proof numeral_bound_pos.
  destruct (search _ content) as [g|] eqn:E; [|lia].
  apply or_zero_range.
  apply (search_group isdecimal _
           (fun it c => field_group_digits pattern "%" Plus it c) _ _ E).
Qed.

Lemma extract_metric_range (content : text) (pattern : string) :
  match Metrics.extract_metric content pattern with
  | Ok n => 0 <= n < numeral_bound
  | Raise e => e = ValueError
  end.
Proof.
  unfold Metrics.extract_metric.
  pose proof numeral_bound_pos.
  destruct (search _ content) as [g|] eqn:E; [|lia].
  apply int_of_str_range.
  rewrite app_assoc, <- lit_app in E.
  apply (search_group isdecimal _
           (fun it c => field_group_digits (pattern ++ ":") "" Star it c) _ _ E).
Qed.

(** X1: on every text, a sequence of Unicode code points of whatever
    scripts, every number the three extractors return is a natural number
    below [10 ^ 4300]; [extract_number] and [extract_percentage] never
    raise, and [extract_metric] raises nothing but the ValueError of a
    numeral of more than 4300 digits. *)
Theorem extracted_numbers_in_range (content : text) (pattern : string) :
  0 <= Report.extract_number content pattern < numeral_bound /\
  0 <= Report.extract_percentage content pattern < numeral_bound /\
  match Metrics.extract_metric content pattern with
  | Ok n => 0 <= n < numeral_bound
  | Raise e => e = ValueError
  end.
Proof.
  split; [apply extract_number_range|].
  split; [apply extract_percentage_range | apply extract_metric_range].
Qed.

(** ** Totals *)

Lemma sum_from (l : list Z) (a : Z) : fold_left Z.add l a = a + sum l.
Proof.
  unfold sum. revert a. induction l as [|x l IH]; intros a; cbn [fold_left].
  - lia.
  - rewrite IH, (IH (0 + x)). lia.
Qed.

Lemma sum_cons (x : Z) (l : list Z) : sum (x :: l) = x + sum l.
Proof. unfold sum at 1. cbn [fold_left]. rewrite sum_from. lia. Qed.

Lemma sum_permutation (l l' : list Z) : Permutation l l' -> sum l = sum l'.
Proof.
  intros H. induction H as [|x l l' _ IH|x y l|l l' l'' _ IH1 _ IH2].
  - reflexivity.
  - rewrite !sum_cons, IH. reflexivity.
  - rewrite !sum_cons. lia.
  - congruence.
Qed.

Lemma sum_nonneg (l : list Z) : Forall (fun x => 0 <= x) l -> 0 <= sum l.
Proof.
  intros H. induction H as [|x l Hx _ IH]; [reflexivity|].
  rewrite sum_cons. lia.
Qed.

(** The mean of the source and its integer part: [int(sum / len)], [0] for
    no value. *)
Lemma truncated_mean (A : Type) (l : list A) (s : Z) :
  0 <= s < 2 ^ 53 ->
  exists avg,
    match l with
    | [] => Ok (Int 0)
    | _ => truediv (Int s) (Int (len l))
    end = Ok avg /\
    int avg = Ok (if len l =? 0 then 0 else s / len l).
Proof.
  intros Hs. destruct l as [|x l].
  { exists (Int 0). split; reflexivity. }
  assert (Hn : 0 < len (x :: l)) by (unfold len; simpl List.length; lia).
  replace (len (x :: l) =? 0) with false by (symmetry; apply Z.eqb_neq; lia).
  destruct (int_truediv_floor s (len (x :: l)) Hs Hn) as (q & Hq & Hi).
  exists (Float q). unfold truediv. rewrite Hq. split; [reflexivity | exact Hi].
Qed.

(** X2: the totals are the sums of the counters and the integer parts of
    the mean coverage and the mean quality score, that is the sums divided
    by the number of subjects, rounded down (0 for no subject); the means
    are so for sums below [2 ^ 53]. *)
Theorem totals_are_floor_means (programs_data : dict program_data) :
  let values := map snd programs_data in
  0 <= sum (map coverage values) < 2 ^ 53 ->
  0 <= sum (map quality_score values) < 2 ^ 53 ->
  Report.calculate_totals programs_data
  = Ok {| Totals.total_tests := sum (map total_tests values);
          Totals.total_passed := sum (map passed values);
          Totals.total_failed := sum (map failed values);
          Totals.overall_coverage :=
            if len programs_data =? 0 then 0
            else sum (map coverage values) / len programs_data;
          Totals.overall_quality :=
            if len programs_data =? 0 then 0
            else sum (map quality_score values) / len programs_data |}.
Proof.
  intros values Hc Hq. unfold Report.calculate_totals. fold values.
  destruct (truncated_mean _ programs_data _ Hc) as (ac & Hac & Hic).
  destruct (truncated_mean _ programs_data _ Hq) as (aq & Haq & Hiq).
  rewrite Hac, Haq. cbn [bind]. rewrite Hic, Hiq. reflexivity.
Qed.

Lemma totals_are_floor_means_witness :
  Report.calculate_totals
    [("NUMBERS"%string, subject 10 8 85); ("EMPPAY"%string, subject 4 4 90)]
  = Ok {| Totals.total_tests := 14;
          Totals.total_passed := 12;
          Totals.total_failed := 2;
          Totals.overall_coverage := 87;
          Totals.overall_quality := 87 |}.
Proof.
  apply (totals_are_floor_means
           [("NUMBERS"%string, subject 10 8 85);
            ("EMPPAY"%string, subject 4 4 90)]);
    (split; [apply Z.leb_le; reflexivity | apply Z.ltb_lt; reflexivity]).
Defined.

(** X3: the totals do not depend on the order of the subjects. *)
Theorem totals_order_independent (programs_data programs_data' : dict program_data) :
  Permutation programs_data programs_data' ->
  Report.calculate_totals programs_data = Report.calculate_totals programs_data'.
Proof.
  intros H. unfold Report.calculate_totals.
  assert (Hs : forall f : program_data -> Z,
            sum (map f (map snd programs_data))
            = sum (map f (map snd programs_data'))).
  { intros f. apply sum_permutation. do 2 apply Permutation_map. exact H. }
  assert (Hl : len programs_data = len programs_data').
  { unfold len. rewrite (Permutation_length H). reflexivity. }
  rewrite !Hs, Hl.
  destruct programs_data as [|x l], programs_data' as [|x' l'];
    try reflexivity.
  - apply Permutation_nil in H. discriminate H.
  - symmetry in H. apply Permutation_nil in H. discriminate H.
Qed.

Lemma totals_order_independent_witness :
  Report.calculate_totals
    [("NUMBERS"%string, subject 10 8 85); ("EMPPAY"%string, subject 4 4 90)]
  = Report.calculate_totals
      [("EMPPAY"%string, subject 4 4 90); ("NUMBERS"%string, subject 10 8 85)].
Proof.
  apply (totals_order_independent
           [("NUMBERS"%string, subject 10 8 85);
            ("EMPPAY"%string, subject 4 4 90)]
           [("EMPPAY"%string, subject 4 4 90);
            ("NUMBERS"%string, subject 10 8 85)]).
  apply perm_swap.
Defined.

(** ** The subjects of a run *)


Lemma parsed_fields_nonneg (content : text) :
  let d := Report.parse_program content in
  0 <= total_tests d /\ 0 <= passed d /\ 0 <= failed d /\
  0 <= coverage d /\ 0 <= quality_score d.
Proof.
  cbv zeta. unfold Report.parse_program. cbn [total_tests passed failed coverage quality_score].
  repeat split;
    first [apply extract_number_range | apply extract_percentage_range].
Qed.

Lemma parse_test_results_entries (read_file : string -> option text) :
  Forall (fun kd => exists content, snd kd = Report.parse_program content)
    (Report.parse_test_results read_file).
Proof.
  unfold Report.parse_test_results. generalize program_names.
  induction l as [|program l IH]; cbn [flat_map]; [constructor|].
  apply Forall_app. split; [|exact IH].
  destruct (read_file program) as [content|]; constructor; [|constructor].
  exists content. reflexivity.
Qed.

Lemma sum_le (b : Z) (l : list Z) :
  Forall (fun x => 0 <= x <= b) l -> 0 <= sum l <= b * len l.
Proof.
  intros H. unfold len.
  induction H as [|x l Hx _ IH].
  - change (sum []) with 0. cbn [List.length]. lia.
  - rewrite sum_cons. cbn [List.length]. rewrite Nat2Z.inj_succ. lia.
Qed.

(** The overall figure [calculate_totals] makes of a sum of natural
    numbers. *)
Lemma mean_outcome (A : Type) (l : list A) (s : Z) :
  0 <= s ->
  match (avg <- (match l with
                 | [] => Ok (Int 0)
                 | _ => truediv (Int s) (Int (len l))
                 end) ;;
         int avg) with
  | Ok n => 0 <= n
  | Raise e => e = OverflowError
  end.
Proof.
  intros Hs. destruct l as [|a l]; [cbn [bind int]; lia|].
  assert (Hlen : 0 < len (a :: l)) by (unfold len; simpl; lia).
  unfold truediv.
  pose proof (int_truediv_nonneg s (len (a :: l)) Hs Hlen) as Hq.
  destruct (int_truediv s (len (a :: l))) as [q|e]; [|exact Hq].
  cbn [bind int].
  pose proof (int_of_float_nonneg q ltac:(left; exact Hq)) as Hn.
  destruct (int_of_float q); exact Hn.
Qed.

(** X5: for the result files that [main] has read, at least one of them,
    whatever their texts hold: [calculate_totals] returns totals whose
    five counters are natural numbers, or raises OverflowError (a
    percentage beyond the range of doubles) and nothing else; when no
    file reports a coverage or quality percentage above 100, the totals
    are returned and the overall coverage and quality are percentages
    again. *)
Theorem parsed_totals_in_range (read_file : string -> option text) :
  let programs_data := Report.parse_test_results read_file in
  programs_data <> [] ->
  match Report.calculate_totals programs_data with
  | Ok t =>
    0 <= Totals.total_tests t /\
    0 <= Totals.total_passed t /\
    0 <= Totals.total_failed t /\
    0 <= Totals.overall_coverage t /\
    0 <= Totals.overall_quality t
  | Raise e => e = OverflowError
  end /\
  (Forall (fun kd => coverage (snd kd) <= 100 /\ quality_score (snd kd) <= 100)
     programs_data ->
   exists t,
     Report.calculate_totals programs_data = Ok t /\
     0 <= Totals.overall_coverage t <= 100 /\
     0 <= Totals.overall_quality t <= 100).
Proof.
  cbv zeta. intros _.
  pose proof (parse_test_results_entries read_file) as Hent.
  assert (Hlen3 : (List.length (Report.parse_test_results read_file) <= 3)%nat).
  { unfold Report.parse_test_results, program_names. cbn [flat_map].
    destruct (read_file "NUMBERS"%string), (read_file "EMPPAY"%string),
      (read_file "DEPTPAY"%string); simpl; lia. }
  set (pd := Report.parse_test_results read_file) in *.
  assert (Hf : forall f : program_data -> Z,
            (forall content, 0 <= f (Report.parse_program content)) ->
            Forall (fun x => 0 <= x) (map f (map snd pd))).
  { intros f Hfn. rewrite map_map. apply Forall_map.
    eapply Forall_impl; [|exact Hent].
    intros kd (content & ->). apply Hfn. }
  assert (Hcov0 : 0 <= sum (map coverage (map snd pd)))
    by (apply sum_nonneg, Hf; intros c; apply parsed_fields_nonneg).
  assert (Hqual0 : 0 <= sum (map quality_score (map snd pd)))
    by (apply sum_nonneg, Hf; intros c; apply parsed_fields_nonneg).
  split.
  - unfold Report.calculate_totals.
    pose proof (mean_outcome _ pd _ Hcov0) as Hoc.
    pose proof (mean_outcome _ pd _ Hqual0) as Hoq.
    destruct (match pd with
              | [] => Ok (Int 0)
              | _ :: _ => truediv (Int (sum (map coverage (map snd pd))))
                            (Int (len pd))
              end) as [ac|e]; [|exact Hoc].
    destruct (match pd with
              | [] => Ok (Int 0)
              | _ :: _ => truediv (Int (sum (map quality_score (map snd pd))))
                            (Int (len pd))
              end) as [aq|e]; [|exact Hoq].
    cbn [bind] in Hoc, Hoq |- *.
    destruct (int ac) as [oc|e]; [|exact Hoc].
    destruct (int aq) as [oq|e]; [|exact Hoq].
    cbn [bind Totals.total_tests Totals.total_passed Totals.total_failed
         Totals.overall_coverage Totals.overall_quality].
    split; [apply sum_nonneg, Hf; intros c; apply parsed_fields_nonneg|].
    split; [apply sum_nonneg, Hf; intros c; apply parsed_fields_nonneg|].
    split; [apply sum_nonneg, Hf; intros c; apply parsed_fields_nonneg|].
    split; assumption.
  - intros Hmax.
    assert (Hb : forall f : program_data -> Z,
              (forall content, 0 <= f (Report.parse_program content)) ->
              Forall (fun kd => f (snd kd) <= 100) pd ->
              0 <= sum (map f (map snd pd)) <= 100 * len pd).
    { intros f Hfn Hle.
      replace (len pd) with (len (map f (map snd pd)))
        by (unfold len; rewrite !length_map; reflexivity).
      apply sum_le. rewrite map_map. apply Forall_map.
      rewrite Forall_forall in *. intros kd Hin.
      destruct (Hent kd Hin) as (content & Hkd).
      split; [rewrite Hkd; apply Hfn | apply Hle; exact Hin]. }
    assert (Hlen : 0 <= len pd <= 3) by (unfold len; lia).
    pose proof (Hb coverage
                  (fun c => proj1 (proj2 (proj2 (proj2 (parsed_fields_nonneg c)))))
                  ltac:(eapply Forall_impl; [|exact Hmax]; intros kd H; apply H))
      as Hcov.
    pose proof (Hb quality_score
                  (fun c => proj2 (proj2 (proj2 (proj2 (parsed_fields_nonneg c)))))
                  ltac:(eapply Forall_impl; [|exact Hmax]; intros kd H; apply H))
      as Hqual.
    assert (H53 : 300 < 2 ^ 53) by reflexivity.
    assert (Hc53 : 0 <= sum (map coverage (map snd pd)) < 2 ^ 53) by lia.
    assert (Hq53 : 0 <= sum (map quality_score (map snd pd)) < 2 ^ 53) by lia.
    destruct (truncated_mean _ pd _ Hc53) as (ac & Hac & Hic).
    destruct (truncated_mean _ pd _ Hq53) as (aq & Haq & Hiq).
    unfold Report.calculate_totals.
    rewrite Hac, Haq. cbn [bind]. rewrite Hic, Hiq. cbn [bind].
    eexists. split; [reflexivity|].
    cbn [Totals.overall_coverage Totals.overall_quality].
    assert (Hdiv : forall s, 0 <= s <= 100 * len pd ->
              0 <= (if len pd =? 0 then 0 else s / len pd) <= 100).
    { intros s Hs. destruct (len pd =? 0) eqn:E; [lia|].
      apply Z.eqb_neq in E. split.
      - apply Z.div_pos; lia.
      - apply Z.div_le_upper_bound; lia. }
    split; apply Hdiv; assumption.
Qed.

Lemma parsed_totals_in_range_witness :
  exists t,
    Report.calculate_totals
      (Report.parse_test_results
         (fun program =>
            if String.eqb program "NUMBERS"
            then Some (text_of_string "Total Test Cases: 10 Tests Passed: 8 Tests Failed: 2 Code Coverage: 85% Test Quality Score: 80%")
            else None)) = Ok t /\
    0 <= Totals.overall_coverage t <= 100 /\
    0 <= Totals.overall_quality t <= 100.
Proof.
  apply (parsed_totals_in_range
           (fun program =>
              if String.eqb program "NUMBERS"
              then Some (text_of_string "Total Test Cases: 10 Tests Passed: 8 Tests Failed: 2 Code Coverage: 85% Test Quality Score: 80%")
              else None)).
  - vm_compute. discriminate.
  - vm_compute. repeat constructor; discriminate.
Defined.

(** A file that reports 101% and one that reports 99%: the totals are
    computed, with an overall coverage of 100. *)
Lemma parsed_totals_above_hundred :
  option_map Totals.overall_coverage
    (returned
       (Report.calculate_totals
          (Report.parse_test_results
             (fun program =>
                if String.eqb program "NUMBERS"
                then Some (text_of_string "Code Coverage: 101%")
                else if String.eqb program "EMPPAY"
                then Some (text_of_string "Code Coverage: 99%")
                else None))))
  = Some 100.
Proof. vm_compute. reflexivity. Qed.

(** ** From the result files to the recommendations *)

Lemma analyze_program_returns (d : program_data) :
  0 <= total_tests d < 2 ^ 1000 ->
  0 <= passed d < 2 ^ 1000 ->
  0 <= coverage d < 2 ^ 1000 ->
  exists a,
    Metrics.analyze_program d = Ok a /\
    0 <= Metrics.test_quality_index a <= 100.
Proof.
  intros [Ht Ht'] Hp Hc.
  destruct (quality_index_value d 1000 Ht ltac:(lia))
    as (x & fc & Bx & _ & Hqi & _); try lia.
  { intros Hpos.
    assert (Zdigits2 (passed d) <= 1000) by (apply Zdigits2_le_iff; lia).
    pose proof (Zdigits2_pos (total_tests d) Hpos). lia. }
  pose proof (float_value_nonneg 1010 x Bx) as Hx.
  pose proof two_1000_numeral_bound as Hbound.
  pose proof (estimate_paths_returns (total_tests d) Ht ltac:(lia)) as Hpaths.
  cbv zeta in Hpaths. destruct Hpaths as [_ Hpaths].
  assert (Hcpt : exists r,
            (cpt <- (if 0 <? total_tests d
                     then truediv (Int (coverage d)) (Int (total_tests d))
                     else Ok (Int 0)) ;;
             round cpt 2) = Ok r).
  { destruct (0 <? total_tests d) eqn:E.
    - apply Z.ltb_lt in E.
      assert (Hdc : Zdigits2 (coverage d) - Zdigits2 (total_tests d) + 1 <= 1000).
      { assert (Zdigits2 (coverage d) <= 1000) by (apply Zdigits2_le_iff; lia).
        pose proof (Zdigits2_pos (total_tests d) E). lia. }
      destruct (int_truediv_below (coverage d) (total_tests d) 1000
                  ltac:(lia) E Hdc ltac:(lia)) as (q & Hq & Bq).
      destruct (float_round_below 1001 q Bq ltac:(lia)) as (r & Hr & _).
      exists (Float r). unfold truediv. rewrite Hq. cbn [bind round].
      rewrite Hr. reflexivity.
    - exists (Int 0). reflexivity. }
  destruct Hcpt as (r & Hr).
  unfold Metrics.analyze_program.
  destruct (if total_tests d <=? 5 then (Metrics.LOW, 1)
            else if total_tests d <=? 20 then (Metrics.MEDIUM, 2)
            else (Metrics.HIGH, 3)) as [level score].
  destruct (if 0 <? total_tests d
            then truediv (Int (coverage d)) (Int (total_tests d))
            else Ok (Int 0)) as [cpt|e]; [|discriminate Hr].
  cbn [bind] in Hr |- *. rewrite Hr. cbn [bind]. rewrite Hpaths. cbn [bind].
  rewrite Hqi. cbn [bind].
  eexists. split; [reflexivity|]. cbn [Metrics.test_quality_index]. lia.
Qed.

Lemma mapM_returns {A B : Type} (f : A -> res B) (P : B -> Prop) (l : list A) :
  Forall (fun a => exists b, f a = Ok b /\ P b) l ->
  exists l', mapM f l = Ok l' /\ Forall P l'.
Proof.
  intros H. induction H as [|a l (b & Hb & Pb) _ (l' & Hl' & Pl')].
  - exists []. split; [reflexivity | constructor].
  - exists (b :: l'). cbn [mapM]. rewrite Hb, Hl'.
    split; [reflexivity | constructor; assumption].
Qed.

Lemma metrics_parsed_nonneg (content : text) (d : program_data) :
  Metrics.parse_program content = Ok d ->
  0 <= total_tests d /\ 0 <= passed d /\ 0 <= coverage d.
Proof.
  unfold Metrics.parse_program. intros H.
  bind_inv H. bind_inv H. bind_inv H. bind_inv H. injection H as <-.
  cbn [total_tests passed coverage].
  pose proof (extract_metric_range content "Total Test Cases") as H1.
  pose proof (extract_metric_range content "Tests Passed") as H2.
  pose proof (extract_metric_range content "Code Coverage") as H3.
  rewrite Hv in H1. rewrite Hv0 in H2. rewrite Hv1 in H3. lia.
Qed.

(** What [main] collects: one record for each existing result file. *)
Lemma collect_programs_entries (read_file : string -> option (res text))
    (programs_data : dict program_data) :
  Metrics.collect_programs read_file = Ok programs_data ->
  map fst programs_data = existing read_file /\
  NoDup (map fst programs_data) /\
  Forall (fun kd => exists content,
            Metrics.parse_program content = Ok (snd kd)) programs_data.
Proof.
  unfold Metrics.collect_programs, existing, program_names.
  cbn [fold_left filter]. unfold Metrics.collect_step. cbn [bind].
  assert (Hn : (String.eqb "EMPPAY" "NUMBERS" = false
                /\ String.eqb "DEPTPAY" "NUMBERS" = false
                /\ String.eqb "DEPTPAY" "EMPPAY" = false)%string)
    by (repeat split; reflexivity).
  destruct Hn as (Hen & Hdn & Hde).
  destruct (read_file "NUMBERS"%string) as [[cn|]|] eqn:En; cbn [bind];
    [destruct (Metrics.parse_program cn) as [dn|] eqn:Pn| |];
    cbn [bind setitem];
    (destruct (read_file "EMPPAY"%string) as [[ce|]|] eqn:Ee; cbn [bind];
     [destruct (Metrics.parse_program ce) as [de|] eqn:Pe| |]);
    cbn [bind setitem]; rewrite ?Hen; cbn [bind setitem];
    (destruct (read_file "DEPTPAY"%string) as [[cd|]|] eqn:Ed; cbn [bind];
     [destruct (Metrics.parse_program cd) as [dd|] eqn:Pd| |]);
    cbn [bind setitem]; rewrite ?Hdn, ?Hde; cbn [bind setitem];
    intros H; try discriminate H; injection H as <-;
    cbn [map fst];
    (split; [reflexivity|]);
    (split; [repeat constructor; cbn [In]; intuition discriminate|]);
    repeat constructor; cbn [snd]; eexists; eassumption.
Qed.

Lemma Forall2_map_fst {A B C : Type} (l : list (A * B)) (l' : list (A * C)) :
  Forall2 (fun x y => fst x = fst y) l l' -> map fst l' = map fst l.
Proof.
  intros H. induction H as [|x y l l' Hxy _ IH]; [reflexivity|].
  cbn [map]. rewrite Hxy, IH. reflexivity.
Qed.

(** X6: once [main] has collected [programs_data] without an exception
    (every existing result file was read and parsed) and found at least
    one result file, nothing is raised up to the recommendations when the
    counters read are below [2 ^ 1000]: there is one record for each
    existing result file, every record is analysed, with a quality index
    from 0 to 100, under the key of its subject, and the recommendation
    loop finds every subject of the analysis in the data; at least one
    recommendation line is printed. *)
Theorem metrics_pipeline (read_file : string -> option (res text))
    (programs_data : dict program_data) :
  Metrics.collect_programs read_file = Ok programs_data ->
  programs_data <> [] ->
  Forall (fun kd => total_tests (snd kd) < 2 ^ 1000 /\
                    passed (snd kd) < 2 ^ 1000 /\
                    coverage (snd kd) < 2 ^ 1000) programs_data ->
  map fst programs_data = existing read_file /\
  exists analysis recs,
    Metrics.analyze_code_complexity programs_data = Ok analysis /\
    map fst analysis = map fst programs_data /\
    Forall (fun ka => 0 <= Metrics.test_quality_index (snd ka) <= 100)
      analysis /\
    Metrics.recommendations programs_data analysis = Ok recs /\
    recs <> [].
Proof.
  intros Hcollect _ Hsmall.
  destruct (collect_programs_entries read_file programs_data Hcollect)
    as (Hkeys & Hnd & Hent).
  split; [exact Hkeys|].
  assert (Hall : Forall (fun kd : string * program_data =>
                   exists ka : string * Metrics.analysis_entry,
                     (let '(program, d) := kd in
                      a <- Metrics.analyze_program d ;; Ok (program, a)) = Ok ka /\
                     0 <= Metrics.test_quality_index (snd ka) <= 100)
                  programs_data).
  { rewrite Forall_forall in *. intros [program d] Hin.
    destruct (Hent _ Hin) as (content & Hparse). cbn [snd] in Hparse.
    pose proof (Hsmall _ Hin) as (Hst & Hsp & Hsc). cbn [snd] in Hst, Hsp, Hsc.
    destruct (metrics_parsed_nonneg content d Hparse) as (Ht & Hp & Hc).
    destruct (analyze_program_returns d ltac:(lia) ltac:(lia) ltac:(lia))
      as (a & Ha & Hq).
    exists (program, a). rewrite Ha. split; [reflexivity | exact Hq]. }
  destruct (mapM_returns _ _ _ Hall) as (analysis & Han & Hqi).
  assert (Han' : Metrics.analyze_code_complexity programs_data = Ok analysis)
    by exact Han.
  pose proof (complexity_keys programs_data analysis Han') as Hk.
  pose proof (recommendations_lines programs_data analysis Hnd Hk) as Hrec.
  exists analysis. eexists.
  split; [exact Han'|]. split; [apply Forall2_map_fst; exact Hk|].
  split; [exact Hqi|]. split; [exact Hrec|].
  destruct (all_rules programs_data analysis); discriminate.
Qed.

Lemma metrics_pipeline_witness :
  map fst [("NUMBERS"%string, subject 10 8 85)]
  = existing (fun program =>
                if String.eqb program "NUMBERS"
                then Some (Ok (text_of_string "Total Test Cases: 10 Tests Passed: 8 Code Coverage: 85 Test Quality Score: 85"))
                else None)
  /\ exists analysis recs,
       Metrics.analyze_code_complexity
         [("NUMBERS"%string,
           {| total_tests := 10; passed := 8; failed := 0;
              coverage := 85; quality_score := 85 |})] = Ok analysis /\
       map fst analysis
       = map fst [("NUMBERS"%string,
                   {| total_tests := 10; passed := 8; failed := 0;
                      coverage := 85; quality_score := 85 |})] /\
       Forall (fun ka => 0 <= Metrics.test_quality_index (snd ka) <= 100)
         analysis /\
       Metrics.recommendations
         [("NUMBERS"%string,
           {| total_tests := 10; passed := 8; failed := 0;
              coverage := 85; quality_score := 85 |})] analysis = Ok recs /\
       recs <> [].
Proof.
  apply (metrics_pipeline
           (fun program =>
              if String.eqb program "NUMBERS"
              then Some (Ok (text_of_string "Total Test Cases: 10 Tests Passed: 8 Code Coverage: 85 Test Quality Score: 85"))
              else None)
           [("NUMBERS"%string,
             {| total_tests := 10; passed := 8; failed := 0;
                coverage := 85; quality_score := 85 |})]).
  - vm_compute. reflexivity.
  - discriminate.
  - repeat constructor.
Defined.

(** A result file that cannot be decoded stops the collection with the
    exception of the read, and no file at all leaves nothing to analyse. *)
Lemma collect_programs_read_error :
  Metrics.collect_programs
    (fun program =>
       if String.eqb program "EMPPAY" then Some (Raise UnicodeDecodeError)
       else Some (Ok (text_of_string "Total Test Cases: 10")))
  = Raise UnicodeDecodeError /\
  Metrics.collect_programs (fun _ => None) = Ok [].
Proof. split; reflexivity. Qed.

(** ** Run after run *)

Lemma last_items_absorb {A : Type} (k : nat) (l r : list A) :
  Report.last_items k (Report.last_items k l ++ r) = Report.last_items k (l ++ r).
Proof.
  unfold Report.last_items.
  set (b := (List.length l - k)%nat).
  rewrite !length_app, length_skipn.
  replace (List.length l + List.length r - k)%nat
    with ((List.length l - b + List.length r - k) + b)%nat by (unfold b; lia).
  rewrite <- skipn_skipn. f_equal.
  rewrite skipn_app.
  replace (b - List.length l)%nat with 0%nat by (unfold b; lia).
  reflexivity.
Qed.

(** X7: appending the snapshots of several runs one at a time, cutting the
    history to its last 100 entries after each, leaves what one cut after
    all of them leaves: the last 100 entries of the prior history followed
    by the new snapshots. *)
Theorem history_of_runs (history runs : list Report.json) :
  runs <> [] ->
  fold_left Report.append_history runs history
  = Report.last_items 100 (history ++ runs).
Proof.
  revert history. induction runs as [|m runs IH]; intros history Hne;
    [contradiction|].
  cbn [fold_left]. destruct runs as [|m' runs].
  - reflexivity.
  - rewrite IH by discriminate. unfold Report.append_history.
    rewrite last_items_absorb, <- app_assoc. reflexivity.
Qed.

Lemma history_of_runs_witness :
  fold_left Report.append_history
    [Report.JInt 100; Report.JInt 101; Report.JInt 102] (numbered_history 100)
  = Report.last_items 100
      (numbered_history 100
       ++ [Report.JInt 100; Report.JInt 101; Report.JInt 102]).
Proof.
  apply (history_of_runs (numbered_history 100)
           [Report.JInt 100; Report.JInt 101; Report.JInt 102]).
  discriminate.
Defined.

(** ** The trend is the overall change *)

Lemma sum_consecutive_deltas (l : list Z) :
  sum (consecutive_deltas l) = last l 0 - hd 0 l.
Proof.
  destruct l as [|a l]; [reflexivity|].
  revert a. induction l as [|b l IH]; intros a.
  - simpl. unfold sum. simpl. lia.
  - change (consecutive_deltas (a :: b :: l))
      with ((b - a) :: consecutive_deltas (b :: l)).
    rewrite sum_cons, IH.
    change (last (a :: b :: l) 0) with (last (b :: l) 0).
    cbn [hd]. lia.
Qed.

Lemma len_consecutive_deltas (l : list Z) :
  l <> [] -> len (consecutive_deltas l) = len l - 1.
Proof.
  intros Hne. unfold len. rewrite consecutive_deltas_length.
  destruct l; [contradiction|]. cbn [List.length]. lia.
Qed.

(** X8: each trend is the change from the first snapshot to the last
    divided by the number of steps between them (as one true division of
    integers): the snapshots in between do not count. *)
Theorem trend_is_overall_change (libm_pow : float -> float -> float)
    (h : list snapshot) (t : Metrics.trend_summary) :
  Metrics.analyze_trends libm_pow h = Ok (Some t) ->
  int_truediv (last (coverage_series h) 0 - hd 0 (coverage_series h))
    (len h - 1) = Ok (Metrics.coverage_trend t) /\
  int_truediv (last (quality_series h) 0 - hd 0 (quality_series h))
    (len h - 1) = Ok (Metrics.quality_trend t) /\
  int_truediv (last (tests_series h) 0 - hd 0 (tests_series h))
    (len h - 1) = Ok (Metrics.tests_trend t).
Proof.
  intros H. rewrite analyze_trends_deltas in H.
  destruct (List.length h <? 2)%nat eqn:E; [discriminate H|].
  apply Nat.ltb_ge in E.
  bind_inv H. injection H as <-.
  unfold trend_of_deltas in Hv.
  bind_inv Hv. bind_inv Hv. bind_inv Hv. bind_inv Hv. bind_inv Hv.
  injection Hv as <-.
  cbn [Metrics.coverage_trend Metrics.quality_trend Metrics.tests_trend].
  assert (Hs : forall f : list snapshot -> list Z,
            List.length (f h) = List.length h ->
            sum (consecutive_deltas (f h)) = last (f h) 0 - hd 0 (f h) /\
            len (consecutive_deltas (f h)) = len h - 1).
  { intros f Hf. split; [apply sum_consecutive_deltas|].
    unfold len. rewrite consecutive_deltas_length, Hf. lia. }
  destruct (Hs coverage_series (length_map _ h)) as [Hc1 Hc2].
  destruct (Hs quality_series (length_map _ h)) as [Hq1 Hq2].
  destruct (Hs tests_series (length_map _ h)) as [Ht1 Ht2].
  rewrite Hc1, Hc2 in Hv0. rewrite Hq1, Hq2 in Hv1. rewrite Ht1, Ht2 in Hv2.
  repeat split; assumption.
Qed.

Lemma trend_is_overall_change_witness :
  int_truediv (80 - 70) 2 = Ok f_five /\
  int_truediv (80 - 80) 2 = Ok (S754_zero false) /\
  int_truediv (14 - 10) 2 = Ok f_two.
Proof.
  apply (trend_is_overall_change rounded_pow sample_history
           {| Metrics.coverage_trend := f_five;
              Metrics.quality_trend := S754_zero false;
              Metrics.tests_trend := f_two;
              Metrics.coverage_volatility := Float (S754_zero false);
              Metrics.quality_volatility := Float (S754_zero false) |}).
  vm_compute. reflexivity.
Defined.

(** ** Steady histories *)

Lemma fsub_diag (x : float) :
  match x with S754_infinity _ | S754_nan => False | _ => True end ->
  fsub x x = S754_zero false.
Proof.
  destruct x as [[]|[]| |s m e]; try contradiction; intros _; try reflexivity.
  unfold fsub, SFsub. rewrite Z.sub_diag. reflexivity.
Qed.

Lemma exact_double_finite (c : Z) :
  match exact_double c with S754_infinity _ | S754_nan => False | _ => True end.
Proof. destruct c; exact I. Qed.

Lemma sum_repeat (c : Z) (n : nat) : sum (repeat c n) = Z.of_nat n * c.
Proof.
  induction n as [|n IH]; [reflexivity|].
  cbn [repeat]. rewrite sum_cons, IH. lia.
Qed.

Lemma mean_repeat (c : Z) (n : nat) :
  (1 <= n)%nat -> Z.abs c < 2 ^ 53 ->
  int_truediv (sum (repeat c n)) (len (repeat c n)) = Ok (exact_double c).
Proof.
  intros Hn Hc. unfold len. rewrite sum_repeat, repeat_length.
  apply int_truediv_exact; lia.
Qed.

Section Steady.

Variable libm_pow : float -> float -> float.

Lemma squared_deviations_repeat (c : Z) (n : nat) :
  Z.abs c < 2 ^ 53 ->
  squared_deviations libm_pow (exact_double c) (repeat c n)
  = Ok (repeat (S754_zero false) n).
Proof.
  intros Hc. unfold squared_deviations.
  induction n as [|n IH]; [reflexivity|].
  cbn [repeat mapM]. rewrite IH.
  rewrite (float_of_int_exact c Hc). cbn [bind].
  rewrite (fsub_diag _ (exact_double_finite c)). reflexivity.
Qed.

Lemma fold_fadd_zeros (n : nat) :
  fold_left fadd (repeat (S754_zero false) n) (S754_zero false)
  = S754_zero false.
Proof. induction n as [|n IH]; [reflexivity | exact IH]. Qed.

(** The deviation of a constant series is 0.0, whatever [pow] the C
    library has: the base of each power is zero. *)
Lemma population_std_dev_repeat (c : Z) (n : nat) :
  (1 <= n)%nat -> Z.of_nat n < 2 ^ 1000 -> Z.abs c < 2 ^ 53 ->
  population_std_dev libm_pow (repeat c n) = Ok (S754_zero false).
Proof.
  intros Hn Hn' Hc. unfold population_std_dev.
  rewrite (mean_repeat c n Hn Hc). cbn [bind].
  rewrite (squared_deviations_repeat c n Hc). cbn [bind].
  rewrite fold_fadd_zeros.
  unfold len. rewrite repeat_length.
  destruct (float_of_int_above (Z.of_nat n) 1 ltac:(lia)
              ltac:(change (2 ^ (1 - 1)) with 1; lia))
    as (fn & Hfn & _ & Afn).
  rewrite Hfn. cbn [bind].
  destruct fn as [[]|[]| |[] m e]; try contradiction.
  reflexivity.
Qed.

End Steady.

Lemma Forall_eq_repeat {A : Type} (c : A) (l : list A) :
  Forall (eq c) l -> l = repeat c (List.length l).
Proof.
  intros H. induction H as [|x l <- _ IH]; [reflexivity|].
  cbn [List.length repeat]. f_equal. exact IH.
Qed.

(** X9: in a history of two snapshots or more (fewer than [2 ^ 1000]),
    when the coverage, the quality and the number of tests each change by
    the same amount from every snapshot to the next, an amount below
    [2 ^ 53] in absolute value, the trends are those amounts, held
    exactly, and both volatilities are 0.0, with any C library [pow]. *)
Theorem steady_history (libm_pow : float -> float -> float)
    (h : list snapshot) (c q t : Z) :
  (2 <= List.length h)%nat -> len h < 2 ^ 1000 ->
  Forall (eq c) (consecutive_deltas (coverage_series h)) ->
  Forall (eq q) (consecutive_deltas (quality_series h)) ->
  Forall (eq t) (consecutive_deltas (tests_series h)) ->
  Z.abs c < 2 ^ 53 -> Z.abs q < 2 ^ 53 -> Z.abs t < 2 ^ 53 ->
  Metrics.analyze_trends libm_pow h
  = Ok (Some {| Metrics.coverage_trend := exact_double c;
                Metrics.quality_trend := exact_double q;
                Metrics.tests_trend := exact_double t;
                Metrics.coverage_volatility := Float (S754_zero false);
                Metrics.quality_volatility := Float (S754_zero false) |}).
Proof.
  intros Hlen Hlen' Hc Hq Ht Bc Bq Bt.
  rewrite analyze_trends_deltas.
  replace (List.length h <? 2)%nat with false
    by (symmetry; apply Nat.ltb_ge; lia).
  apply Forall_eq_repeat in Hc, Hq, Ht.
  rewrite consecutive_deltas_length in Hc, Hq, Ht.
  unfold coverage_series in Hc at 2. unfold quality_series in Hq at 2.
  unfold tests_series in Ht at 2. rewrite length_map in Hc, Hq, Ht.
  rewrite Hc, Hq, Ht. unfold len in Hlen'.
  set (n := (List.length h - 1)%nat).
  assert (Hn : (1 <= n)%nat) by (unfold n; lia).
  assert (Hn' : Z.of_nat n < 2 ^ 1000) by (unfold n; lia).
  unfold trend_of_deltas.
  rewrite !mean_repeat by assumption. cbn [bind].
  rewrite !population_std_dev_repeat by assumption. reflexivity.
Qed.

Lemma steady_history_witness :
  Metrics.analyze_trends rounded_pow sample_history
  = Ok (Some {| Metrics.coverage_trend := exact_double 5;
                Metrics.quality_trend := exact_double 0;
                Metrics.tests_trend := exact_double 2;
                Metrics.coverage_volatility := Float (S754_zero false);
                Metrics.quality_volatility := Float (S754_zero false) |}).
Proof.
  apply (steady_history rounded_pow sample_history 5 0 2).
  - simpl. lia.
  - reflexivity.
  - repeat constructor.
  - repeat constructor.
  - repeat constructor.
  - reflexivity.
  - reflexivity.
  - reflexivity.
Defined.

(** ** Subjects whose tests all pass *)

Lemma exact_index_all_passed (t c : Z) :
  0 < t ->
  Qfloor (inject_Z t / inject_Z t * inject_Z 50 + inject_Z c * (1 # 2))
  = 50 + c / 2.
Proof.
  intros Ht.
  assert (Hnz : ~ (inject_Z t == 0)%Q).
  { unfold Qeq, inject_Z. simpl. lia. }
  assert (Heq : (inject_Z t / inject_Z t * inject_Z 50 + inject_Z c * (1 # 2)
                 == (100 + c) # 2)%Q).
  { unfold Qdiv. rewrite Qmult_inv_r by exact Hnz.
    unfold Qeq, Qplus, Qmult, inject_Z. cbn [Qnum Qden]. lia. }
  rewrite Heq. unfold Qfloor. 
  replace (100 + c) with (50 * 2 + c) by lia.
  rewrite Z.div_add_l by lia. reflexivity.
Qed.

(** X10: when every test of a subject passes, the pass rate is the double
    1.0 whatever the number of tests, so for a coverage from 0 to 100 the
    quality index is exactly [50 + coverage // 2], the value of the formula
    in exact arithmetic, and the test effectiveness is 100.0. *)
Theorem all_tests_passed (d : program_data) :
  0 < total_tests d -> passed d = total_tests d -> 0 <= coverage d <= 100 ->
  Metrics.calculate_quality_index d = Ok (50 + coverage d / 2) /\
  exact_quality_index d = 50 + coverage d / 2 /\
  Metrics.test_effectiveness d = Ok (Float f_hundred).
Proof.
  intros Ht Hp Hc.
  pose proof (int_truediv_self (total_tests d) Ht) as Hone.
  assert (Hpos : (0 <? total_tests d) = true) by (apply Z.ltb_lt; exact Ht).
  split; [|split].
  - set (f := fun c =>
      match Metrics.calculate_quality_index (subject 1 1 c) with
      | Ok n => n =? 50 + c / 2
      | Raise _ => false
      end).
    assert (Hall : forallb f (map Z.of_nat (seq 0 101)) = true)
      by (vm_compute; reflexivity).
    pose proof (Z_range_forallb f 101 Hall (coverage d) ltac:(lia)) as Hf.
    unfold f in Hf.
    assert (Heq : Metrics.calculate_quality_index d
                  = Metrics.calculate_quality_index
                      (subject 1 1 (coverage d))).
    { unfold Metrics.calculate_quality_index, truediv.
      rewrite Hp, Hpos, Hone. reflexivity. }
    rewrite Heq.
    destruct (Metrics.calculate_quality_index (subject 1 1 (coverage d)));
      [|discriminate Hf].
    apply Z.eqb_eq in Hf. rewrite Hf. reflexivity.
  - unfold exact_quality_index. rewrite Hp.
    rewrite (exact_index_all_passed _ _ Ht).
    pose proof (Z.div_le_upper_bound (coverage d) 2 50 ltac:(lia) ltac:(lia)).
    lia.
  - unfold Metrics.test_effectiveness, truediv.
    rewrite Hp, Hpos, Hone. reflexivity.
Qed.

Lemma all_tests_passed_witness :
  Metrics.calculate_quality_index (subject 7 7 85) = Ok (50 + 85 / 2) /\
  exact_quality_index (subject 7 7 85) = 50 + 85 / 2 /\
  Metrics.test_effectiveness (subject 7 7 85) = Ok (Float f_hundred).
Proof.
  apply (all_tests_passed (subject 7 7 85)); simpl; lia.
Defined.

(** ** Whole quotients *)

(** Rounding to two decimals leaves a whole number as it is. *)
Lemma float_round_exact (c : Z) :
  0 <= c < 2 ^ 53 -> float_round (exact_double c) 2 = Ok (exact_double c).
Proof.
  intros Hc. destruct (Z.eq_dec c 0) as [->|Hne]; [reflexivity|].
  assert (Hdc : 1 <= Zdigits2 c <= 53).
  { split; [apply Zdigits2_pos; lia | apply Zdigits2_le_iff; lia]. }
  assert (Hn : float_round (exact_double c) 2 = int_truediv (100 * c) 100).
  { unfold exact_double, float_round. destruct c as [|p|p]; try lia.
    cbn [Z.ltb Z.compare Z.abs].
    set (m := Zpos p * 2 ^ (53 - Zdigits2 (Zpos p))).
    assert (H2 : 0 < 2 ^ (53 - Zdigits2 (Zpos p)))
      by (apply Z.pow_pos_nonneg; lia).
    assert (Hm : 0 < m) by (unfold m; nia).
    rewrite Z2Pos.id by exact Hm.
    change (10 ^ 2) with 100.
    assert (Hval : match Zdigits2 (Zpos p) - 53 with
                   | Zneg q => round_half_even_div (m * 100) (2 ^ Zpos q)
                   | _ => m * 2 ^ (Zdigits2 (Zpos p) - 53) * 100
                   end = 100 * Zpos p).
    { destruct (Zdigits2 (Zpos p) - 53) as [|q|q] eqn:E; try lia.
      - unfold m. replace (53 - Zdigits2 (Zpos p)) with 0 by lia.
        rewrite !Z.pow_0_r. lia.
      - assert (Hq : 53 - Zdigits2 (Zpos p) = Zpos q) by lia.
        unfold round_half_even_div.
        replace (m * 100) with (100 * Zpos p * 2 ^ Zpos q)
          by (unfold m; rewrite Hq; ring).
        rewrite Z.mod_mul, Z.div_mul by lia.
        replace (2 * 0 ?= 2 ^ Zpos q) with Lt
          by (symmetry; apply Z.compare_lt_iff; lia).
        reflexivity. }
    rewrite Hval.
    replace (100 * Zpos p =? 0) with false
      by (symmetry; apply Z.eqb_neq; lia).
    reflexivity. }
  rewrite Hn. apply int_truediv_exact; lia.
Qed.

(** X11: when the coverage is a whole multiple of the number of tests, the
    coverage per test is that multiple, held exactly: the division and the
    rounding to two decimals lose nothing (for counters below [2 ^ 1000]
    and a coverage below [2 ^ 53]). *)
Theorem whole_coverage_per_test (d : program_data) (c : Z) :
  0 < total_tests d < 2 ^ 1000 -> 0 <= passed d < 2 ^ 1000 ->
  coverage d = total_tests d * c -> 0 <= c -> coverage d < 2 ^ 53 ->
  exists a,
    Metrics.analyze_program d = Ok a /\
    Metrics.coverage_per_test a = Float (exact_double c).
Proof.
  intros [Ht Ht'] Hp Hcov Hc Hsmall.
  assert (Hc53 : Z.abs c < 2 ^ 53) by nia.
  assert (H1000 : 2 ^ 53 < 2 ^ 1000) by reflexivity.
  destruct (quality_index_value d 1000 ltac:(lia) ltac:(lia))
    as (x & fc & _ & _ & Hqi & _); try lia.
  { intros _.
    assert (Zdigits2 (passed d) <= 1000) by (apply Zdigits2_le_iff; lia).
    pose proof (Zdigits2_pos (total_tests d) Ht). lia. }
  pose proof two_1000_numeral_bound as Hbound.
  pose proof (estimate_paths_returns (total_tests d) ltac:(lia) ltac:(lia))
    as Hpaths.
  cbv zeta in Hpaths. destruct Hpaths as [_ Hpaths].
  unfold Metrics.analyze_program.
  replace (0 <? total_tests d) with true by (symmetry; apply Z.ltb_lt; lia).
  unfold truediv. rewrite Hcov, (int_truediv_exact _ c Ht Hc53).
  cbn [bind round]. rewrite (float_round_exact c) by lia.
  cbn [bind]. rewrite Hpaths. cbn [bind]. rewrite Hqi. cbn [bind].
  destruct (if total_tests d <=? 5 then (Metrics.LOW, 1)
            else if total_tests d <=? 20 then (Metrics.MEDIUM, 2)
            else (Metrics.HIGH, 3)) as [level score].
  eexists. split; reflexivity.
Qed.

Lemma whole_coverage_per_test_witness :
  exists a,
    Metrics.analyze_program (subject 4 4 80) = Ok a /\
    Metrics.coverage_per_test a = Float (exact_double 20).
Proof.
  apply (whole_coverage_per_test (subject 4 4 80) 20); simpl;
    first [lia | reflexivity | split; [lia | reflexivity]].
Defined.

(** ** Subjects whose tests all fail *)

(** X12: when tests were run and none passed, and the coverage is a
    natural number below [2 ^ 1000], the quality index is the coverage
    term alone, [min(100, coverage // 2)], as for a subject without tests,
    and the test effectiveness is 0.0. *)
Theorem no_test_passed (d : program_data) :
  0 < total_tests d -> passed d = 0 -> 0 <= coverage d < 2 ^ 1000 ->
  Metrics.calculate_quality_index d = Ok (Z.min 100 (coverage d / 2)) /\
  Metrics.test_effectiveness d = Ok (Float (S754_zero false)).
Proof.
  intros Ht Hp Hc.
  assert (Hpos : (0 <? total_tests d) = true) by (apply Z.ltb_lt; exact Ht).
  assert (Hq : int_truediv 0 (total_tests d) = Ok (S754_zero false)).
  { unfold int_truediv.
    replace (total_tests d =? 0) with false by (symmetry; apply Z.eqb_neq; lia).
    replace (total_tests d <? 0) with false by (symmetry; apply Z.ltb_ge; lia).
    reflexivity. }
  split.
  - assert (Heq : Metrics.calculate_quality_index d
                  = Metrics.calculate_quality_index
                      (subject 0 0 (coverage d))).
    { unfold Metrics.calculate_quality_index, truediv.
      rewrite Hp, Hpos, Hq. unfold mul, add, arith.
      cbn [bind to_float coverage subject total_tests Z.ltb Z.compare].
      destruct (float_of_int (coverage d)); reflexivity. }
    rewrite Heq.
    exact (quality_index_no_tests (subject 0 0 (coverage d)) eq_refl Hc).
  - unfold Metrics.test_effectiveness, truediv.
    rewrite Hp, Hpos, Hq. reflexivity.
Qed.

Lemma no_test_passed_witness :
  Metrics.calculate_quality_index (subject 10 0 60) = Ok (Z.min 100 (60 / 2)) /\
  Metrics.test_effectiveness (subject 10 0 60) = Ok (Float (S754_zero false)).
Proof.
  apply (no_test_passed (subject 10 0 60)); simpl;
    first [lia | reflexivity | split; [lia | reflexivity]].
Defined.

(** ** Decimal numerals, read back *)

Lemma span_unique (p : ascii -> bool) (a t : string) :
  all_chars p a -> starts_with p t = false -> span p (a ++ t) = (a, t).
Proof.
  unfold all_chars. intros Ha Ht. induction a as [|c a IH]; simpl in *.
  - destruct t as [|c t]; [reflexivity|]. simpl in Ht |- *. rewrite Ht. reflexivity.
  - apply andb_true_iff in Ha. destruct Ha as [Hc Ha].
    rewrite Hc, (IH Ha). reflexivity.
Qed.

Lemma uint_digits (d : Decimal.uint) :
  all_chars isdigit (NilEmpty.string_of_uint d).
Proof.
  unfold all_chars. induction d; simpl; [reflexivity | assumption ..].
Qed.

Lemma uint_value_acc (d : Decimal.uint) :
  forall acc : positive,
  fold_left (fun a c => 10 * a + digit_value c)
    (list_ascii_of_string (NilEmpty.string_of_uint d)) (Zpos acc)
  = Zpos (Pos.of_uint_acc d acc).
Proof.
  induction d; intros acc; cbn [NilEmpty.string_of_uint list_ascii_of_string
                                fold_left Pos.of_uint_acc];
    try reflexivity;
    rewrite <- IHd; f_equal; unfold digit_value; simpl N_of_ascii; lia.
Qed.

Lemma uint_value (d : Decimal.uint) :
  int_of_digits (NilEmpty.string_of_uint d) = Z.of_N (Pos.of_uint d).
Proof.
  unfold int_of_digits.
  induction d; cbn [NilEmpty.string_of_uint list_ascii_of_string fold_left
                    Pos.of_uint];
    try reflexivity;
    try exact IHd;
    match goal with
    | |- fold_left _ _ ?a = Z.of_N (N.pos (Pos.of_uint_acc _ ?p)) =>
      change a with (Zpos p); apply uint_value_acc
    end.
Qed.

(** The numeral of a natural number [n] reads back as [n]. *)
Lemma numeral_read_back (n : Z) :
  0 <= n ->
  all_chars isdigit (NilZero.string_of_int (Z.to_int n)) /\
  int_of_digits (NilZero.string_of_int (Z.to_int n)) = n.
Proof.
  intros Hn. destruct n as [|p|p]; [| |lia].
  - split; reflexivity.
  - cbn [Z.to_int NilZero.string_of_int].
    assert (Hs : NilZero.string_of_uint (Pos.to_uint p)
                 = NilEmpty.string_of_uint (Pos.to_uint p)).
    { pose proof (Unsigned.to_uint_nonnil p) as Hnn.
      unfold NilZero.string_of_uint.
      destruct (Pos.to_uint p); try reflexivity. contradiction. }
    rewrite Hs. split; [apply uint_digits|].
    rewrite uint_value, Unsigned.of_to. reflexivity.
Qed.

(** X13: for a natural number of tests (small enough for the upper
    estimate to be printed: twice the number is below [10 ^ 4300]) the
    estimate is returned, two decimal numerals joined by a dash; the first
    reads back as the number of tests, the second as the upper estimate:
    twice the tests below 10 of them, one and a half times (rounded down)
    from 10 on, so never below the tests and never above twice the
    tests. *)
Theorem estimated_paths_read_back (test_count : Z) :
  0 <= test_count -> 2 * test_count < numeral_bound ->
  let upper := if test_count <? 10 then test_count * 2
               else test_count + test_count / 2 in
  exists lo hi : string,
    Metrics.estimate_paths test_count = Ok (lo ++ "-" ++ hi)%string /\
    span isdigit (lo ++ "-" ++ hi)%string = (lo, ("-" ++ hi)%string) /\
    int_of_digits lo = test_count /\
    all_chars isdigit hi /\
    int_of_digits hi = upper /\
    test_count <= upper <= 2 * test_count.
Proof.
  intros Ht Hb upper.
  pose proof (estimate_paths_returns test_count Ht Hb) as Hp.
  cbv zeta in Hp. fold upper in Hp. destruct Hp as [Hu He].
  destruct (numeral_read_back test_count Ht) as [Hlo1 Hlo2].
  destruct (numeral_read_back upper ltac:(lia)) as [Hhi1 Hhi2].
  exists (NilZero.string_of_int (Z.to_int test_count)),
         (NilZero.string_of_int (Z.to_int upper)).
  split; [exact He|]. split.
  - apply span_unique; [exact Hlo1 | reflexivity].
  - repeat split; try assumption; apply Hu.
Qed.

Lemma estimated_paths_read_back_witness :
  exists lo hi : string,
    Metrics.estimate_paths 12 = Ok (lo ++ "-" ++ hi)%string /\
    span isdigit (lo ++ "-" ++ hi)%string = (lo, ("-" ++ hi)%string) /\
    int_of_digits lo = 12 /\
    all_chars isdigit hi /\
    int_of_digits hi = 18 /\
    12 <= 18 <= 2 * 12.
Proof.
  apply (estimated_paths_read_back 12); [lia | reflexivity].
Defined.

(** A number of tests of more than 4300 digits cannot be printed: the
    f-string raises ValueError, and so does the analysis of the subject
    when its quotient and its rounding have gone through. *)
Lemma estimate_paths_too_long (test_count : Z) :
  numeral_bound <= test_count ->
  Metrics.estimate_paths test_count = Raise ValueError.
Proof.
  intros Hb. pose proof numeral_bound_pos as Hpos.
  unfold Metrics.estimate_paths.
  rewrite (str_raises test_count) by lia.
  destruct (test_count <? 10); reflexivity.
Qed.

(** ** The stored history, read back *)

Lemma index_map {A B : Type} (f : A -> B) (l : list A) (i : nat) :
  index (map f l) i = (a <- index l i ;; Ok (f a)).
Proof.
  unfold index. rewrite nth_error_map.
  destruct (nth_error l i); reflexivity.
Qed.

Lemma json_trend_step (h : list snapshot) (acc : res Metrics.deltas) (i : nat) :
  MetricsJson.trend_step (map Report.json_of_snapshot h)
    (d <- acc ;; Ok (deltas_numbers d)) i
  = (d <- Metrics.trend_step h acc i ;; Ok (deltas_numbers d)).
Proof.
  unfold MetricsJson.trend_step, Metrics.trend_step.
  destruct acc as [d|e]; [|reflexivity]. cbn [bind].
  rewrite !index_map.
  destruct (index h (i - 1)) as [prev|e]; [|reflexivity]. cbn [bind].
  change (MetricsJson.subscript (Report.json_of_snapshot prev) "totals")
    with (@Ok Report.json (Report.json_of_totals (totals prev))).
  cbn [bind].
  destruct (index h i) as [curr|e]; [|reflexivity]. cbn [bind].
  change (MetricsJson.subscript (Report.json_of_snapshot curr) "totals")
    with (@Ok Report.json (Report.json_of_totals (totals curr))).
  cbn [bind]. unfold deltas_numbers. cbn [Metrics.d_coverage Metrics.d_quality Metrics.d_tests].
  rewrite !map_app. reflexivity.
Qed.

Lemma json_trend_loop (h : list snapshot) (l : list nat) :
  forall acc : res Metrics.deltas,
  fold_left (MetricsJson.trend_step (map Report.json_of_snapshot h)) l
    (d <- acc ;; Ok (deltas_numbers d))
  = (d <- fold_left (Metrics.trend_step h) l acc ;; Ok (deltas_numbers d)).
Proof.
  induction l as [|i l IH]; intros acc; cbn [fold_left]; [reflexivity|].
  rewrite json_trend_step. apply IH.
Qed.

Lemma json_sum_from (l : list Z) (a : Z) :
  fold_left (fun acc x => s <- acc ;; add s x) (map Int l) (Ok (Int a))
  = Ok (Int (fold_left Z.add l a)).
Proof.
  revert a. induction l as [|x l IH]; intros a; cbn [map fold_left];
    [reflexivity|].
  cbn [bind]. apply IH.
Qed.

Lemma json_mean (l : list Z) :
  MetricsJson.mean (map Int l)
  = truediv (Int (sum l)) (Int (len l)).
Proof.
  unfold MetricsJson.mean, MetricsJson.sum. rewrite json_sum_from.
  cbn [bind]. unfold len. rewrite length_map. reflexivity.
Qed.

Lemma fold_left_map_arg {A B C : Type} (f : A -> C -> A) (g : B -> C)
    (l : list B) (a : A) :
  fold_left f (map g l) a = fold_left (fun acc x => f acc (g x)) l a.
Proof.
  revert a. induction l as [|x l IH]; intros a; cbn [map fold_left];
    [reflexivity | apply IH].
Qed.

Lemma json_std_dev (libm_pow : float -> float -> float) (l : list Z) :
  MetricsJson.calculate_std_dev libm_pow (map Int l)
  = Metrics.calculate_std_dev libm_pow l.
Proof.
  destruct l as [|x l]; [reflexivity|].
  unfold MetricsJson.calculate_std_dev, Metrics.calculate_std_dev.
  cbn [map]. change (Int x :: map Int l) with (map Int (x :: l)).
  rewrite json_mean. 
  destruct (truediv (Int (sum (x :: l))) (Int (len (x :: l)))) as [mean|e];
    [|reflexivity].
  cbn [bind]. rewrite fold_left_map_arg.
  unfold len. rewrite length_map. reflexivity.
Qed.

Lemma analyze_trends_of_snapshots (libm_pow : float -> float -> float)
    (h : list snapshot) :
  MetricsJson.analyze_trends libm_pow (map Report.json_of_snapshot h)
  = (r <- Metrics.analyze_trends libm_pow h ;;
     Ok (option_map summary_numbers r)).
Proof.
  unfold MetricsJson.analyze_trends, Metrics.analyze_trends.
  rewrite length_map.
  destruct (List.length h <? 2)%nat; [reflexivity|].
  pose proof (json_trend_loop h (seq 1 (List.length h - 1))
                (Ok {| Metrics.d_coverage := []; Metrics.d_quality := [];
                       Metrics.d_tests := [] |})) as Hloop.
  cbn [bind] in Hloop. unfold deltas_numbers at 1 in Hloop. cbn [map Metrics.d_coverage Metrics.d_quality Metrics.d_tests] in Hloop.
  rewrite Hloop. clear Hloop.
  destruct (fold_left _ _ _) as [d|e]; [|reflexivity]. cbn [bind].
  unfold deltas_numbers. cbn [MetricsJson.d_coverage MetricsJson.d_quality MetricsJson.d_tests].
  rewrite !json_mean, !json_std_dev. unfold truediv.
  destruct (int_truediv (sum (Metrics.d_coverage d)) _); [|reflexivity].
  cbn [bind].
  destruct (int_truediv (sum (Metrics.d_quality d)) _); [|reflexivity].
  cbn [bind].
  destruct (int_truediv (sum (Metrics.d_tests d)) _); [|reflexivity].
  cbn [bind].
  destruct (Metrics.calculate_std_dev libm_pow (Metrics.d_coverage d));
    [|reflexivity].
  cbn [bind].
  destruct (Metrics.calculate_std_dev libm_pow (Metrics.d_quality d));
    [|reflexivity].
  reflexivity.
Qed.

(** X14: the history that [generate_report.py] writes is read back by
    [analyze_metrics.py] under the same keys: on the stored snapshots the
    analysis of the JSON values is the analysis of their totals, and
    [main] passes its result to the report, or no trends when it raised. *)
Theorem stored_history_trends (libm_pow : float -> float -> float)
    (json_load : string -> res Report.json) (content : string)
    (h : list snapshot) :
  MetricsJson.analyze_trends libm_pow (map Report.json_of_snapshot h)
  = (r <- Metrics.analyze_trends libm_pow h ;;
     Ok (option_map summary_numbers r))
  /\ (json_load content = Ok (Report.JList (map Report.json_of_snapshot h)) ->
      MetricsJson.load_trends libm_pow json_load (Some content)
      = match Metrics.analyze_trends libm_pow h with
        | Ok (Some t) => Some (summary_numbers t)
        | _ => None
        end).
Proof.
  split; [apply analyze_trends_of_snapshots|].
  intros Hload. unfold MetricsJson.load_trends. rewrite Hload.
  rewrite analyze_trends_of_snapshots, length_map.
  destruct (1 <? List.length h)%nat eqn:E.
  - destruct (Metrics.analyze_trends libm_pow h) as [[t|]|e]; reflexivity.
  - apply Nat.ltb_ge in E. unfold Metrics.analyze_trends.
    replace (List.length h <? 2)%nat with true
      by (symmetry; apply Nat.ltb_lt; lia).
    reflexivity.
Qed.

Lemma stored_history_trends_witness :
  MetricsJson.load_trends rounded_pow
    (fun _ => Ok (Report.JList (map Report.json_of_snapshot sample_history)))
    (Some "[]"%string)
  = match Metrics.analyze_trends rounded_pow sample_history with
    | Ok (Some t) => Some (summary_numbers t)
    | _ => None
    end.
Proof.
  apply (stored_history_trends rounded_pow
           (fun _ => Ok (Report.JList (map Report.json_of_snapshot sample_history)))
           "[]"%string sample_history).
  reflexivity.
Defined.

(** ** Entries that are not snapshots *)

Lemma trend_step_raise (history : list Report.json) (e : exn) (i : nat) :
  MetricsJson.trend_step history (Raise e) i = Raise e.
Proof. reflexivity. Qed.

Lemma trend_loop_raise (history : list Report.json) (l : list nat) (e : exn) :
  fold_left (MetricsJson.trend_step history) l (Raise e) = Raise e.
Proof. induction l as [|i l IH]; [reflexivity | exact IH]. Qed.

(** A turn of the loop that meets an entry without totals raises. *)
Lemma trend_step_malformed (history : list Report.json) (v : Report.json)
    (acc : res MetricsJson.deltas) (i : nat) :
  (forall t, MetricsJson.subscript v "totals" <> Ok t) ->
  nth_error history (i - 1) = Some v \/ nth_error history i = Some v ->
  exists e, MetricsJson.trend_step history acc i = Raise e.
Proof.
  intros Hv Hnth. unfold MetricsJson.trend_step.
  destruct acc as [d|e]; [|exists e; reflexivity]. cbn [bind].
  unfold index.
  destruct (nth_error history (i - 1)) as [prev|] eqn:Ep;
    [|eexists; reflexivity]. cbn [bind].
  destruct (MetricsJson.subscript prev "totals") as [tp|e] eqn:Esp;
    [|eexists; reflexivity]. cbn [bind].
  destruct Hnth as [Hnth|Hnth].
  { injection Hnth as ->. exfalso. apply (Hv tp). exact Esp. }
  rewrite Hnth. cbn [bind].
  destruct (MetricsJson.subscript v "totals") as [tc|e] eqn:Esc;
    [|eexists; reflexivity].
  exfalso. apply (Hv tc). reflexivity.
Qed.

Lemma analyze_trends_malformed (libm_pow : float -> float -> float)
    (history : list Report.json) (v : Report.json) :
  (2 <= List.length history)%nat ->
  In v history ->
  (forall t, MetricsJson.subscript v "totals" <> Ok t) ->
  exists e, MetricsJson.analyze_trends libm_pow history = Raise e.
Proof.
  intros Hlen Hin Hv.
  apply In_nth_error in Hin. destruct Hin as [j Hj].
  assert (Hjlt : (j < List.length history)%nat).
  { apply nth_error_Some. rewrite Hj. discriminate. }
  unfold MetricsJson.analyze_trends.
  replace (List.length history <? 2)%nat with false
    by (symmetry; apply Nat.ltb_ge; lia).
  set (i := Nat.max j 1).
  assert (Hseq : seq 1 (List.length history - 1)
                 = seq 1 (i - 1) ++ i :: seq (S i) (List.length history - 1 - i)).
  { replace (List.length history - 1)%nat
      with ((i - 1) + S (List.length history - 1 - i))%nat at 1
      by (unfold i; lia).
    rewrite seq_app. cbn [seq]. repeat f_equal; unfold i; lia. }
  rewrite Hseq, fold_left_app. cbn [fold_left].
  destruct (trend_step_malformed history v
              (fold_left (MetricsJson.trend_step history) (seq 1 (i - 1))
                 (Ok {| MetricsJson.d_coverage := [];
                        MetricsJson.d_quality := [];
                        MetricsJson.d_tests := [] |})) i Hv) as [e He].
  { unfold i. destruct j as [|j].
    - left. exact Hj.
    - right. replace (Nat.max (S j) 1) with (S j) by lia. exact Hj. }
  rewrite He, trend_loop_raise. exists e. reflexivity.
Qed.

(** X15: one entry of the stored history that is not a dict with a
    ['totals'] key (a value that a previous run recovered from a file
    which held no list, say) is enough for [main] to go on without trends,
    wherever the entry stands and whatever the other entries are. *)
Theorem malformed_entry_disables_trends (libm_pow : float -> float -> float)
    (json_load : string -> res Report.json) (content : string)
    (history : list Report.json) (v : Report.json) :
  json_load content = Ok (Report.JList history) ->
  In v history ->
  (forall t, MetricsJson.subscript v "totals" <> Ok t) ->
  MetricsJson.load_trends libm_pow json_load (Some content) = None.
Proof.
  intros Hload Hin Hv. unfold MetricsJson.load_trends. rewrite Hload.
  destruct (1 <? List.length history)%nat eqn:E; [|reflexivity].
  apply Nat.ltb_lt in E.
  destruct (analyze_trends_malformed libm_pow history v ltac:(lia) Hin Hv)
    as [e He].
  rewrite He. reflexivity.
Qed.

Lemma malformed_entry_disables_trends_witness :
  MetricsJson.load_trends rounded_pow
    (fun _ => Ok (Report.JList
                    (Report.JInt 7 :: map Report.json_of_snapshot sample_history)))
    (Some "7"%string) = None.
Proof.
  apply (malformed_entry_disables_trends rounded_pow
           (fun _ => Ok (Report.JList
                           (Report.JInt 7
                            :: map Report.json_of_snapshot sample_history)))
           "7"%string
           (Report.JInt 7 :: map Report.json_of_snapshot sample_history)
           (Report.JInt 7)).
  - reflexivity.
  - left. reflexivity.
  - intros t H. discriminate H.
Defined.
